(** * libopus.js: the Encoder / Decoder binding layer over the Opus engine

    A shallow embedding of [lib/utils.js], [lib/decoder.js] and
    [lib/encoder.js].  The compiled Opus engine ([build/libopus.js], produced
    by Emscripten from the libopus sources) is an external collaborator: it
    is a parameter of the development, a table of functions acting on the
    foreign heap.  JS exceptions are results, mutable objects are threaded
    explicitly, and every call made through the engine's function table is
    recorded in a trace. *)

From Stdlib Require Import ZArith List String Bool Lia.
From Stdlib Require Import Strings.Byte.
From stdpp Require Import gmap list strings pretty.

Local Open Scope Z_scope.

(** ** JavaScript values reaching the API *)

Inductive SampleType := Int16 | Float32.

(** [Int16Array.BYTES_PER_ELEMENT], [Float32Array.BYTES_PER_ELEMENT]. *)
Definition BYTES_PER_ELEMENT (t : SampleType) : Z :=
  match t with Int16 => 2 | Float32 => 4 end.

(** A Node [Buffer]: its contents and its offset in the backing
    [ArrayBuffer] ([chunk.buffer], [chunk.byteOffset]). *)
Record Buffer := mkBuffer { buf_bytes : list byte; byteOffset : Z }.

Definition buf_length (b : Buffer) : Z := Z.of_nat (length (buf_bytes b)).

(** An [Int16Array] or [Float32Array], kept as its element type and its raw
    little-endian contents; the numeric reading of an element is not needed
    by the binding layer, which only moves the bytes. *)
Record TypedArray := mkTypedArray { ta_type : SampleType; ta_bytes : list byte }.

Definition ta_length (a : TypedArray) : Z :=
  Z.of_nat (length (ta_bytes a)) / BYTES_PER_ELEMENT (ta_type a).

(** Numbers are the integers: sample counts, sizes, rates, addresses. *)
Inductive JsValue :=
| VUndefined
| VNull
| VBool (b : bool)
| VNumber (n : Z)
| VString (s : string)
| VBuffer (b : Buffer)
| VTyped (a : TypedArray)
| VObject.

(** ToBoolean, as used by [||]. *)
Definition truthy (v : JsValue) : bool :=
  match v with
  | VUndefined | VNull => false
  | VBool b => b
  | VNumber n => negb (n =? 0)
  | VString s => negb (String.eqb s "")
  | VBuffer _ | VTyped _ | VObject => true
  end.

(** ToString, as used by ['mode cannot be ' + mode].  It is JavaScript's
    on [undefined], [null], the booleans, the strings, the integers below
    2^53 in magnitude (their decimal digits) and a Buffer of ASCII text.
    The remaining cases are not computed and stand as tags: a typed array
    prints as its elements joined by commas (which needs the decimal form of
    a float), a larger integer prints as the shortest digits of its double,
    in exponent form from 1e21 on, and an object prints as its own
    [toString] says. *)
Definition to_js_string (v : JsValue) : string :=
  match v with
  | VUndefined => "undefined"
  | VNull => "null"
  | VBool true => "true"
  | VBool false => "false"
  | VNumber n => pretty n
  | VString s => s
  | VBuffer b => string_of_list_byte (buf_bytes b)
  | VTyped _ => "[object TypedArray]"
  | VObject => "[object Object]"
  end.

(** [v == s] for [s] one of the two mode names: a string compares by
    contents, a Buffer through its [toString()], and the numbers, booleans,
    [null], [undefined], typed arrays and plain objects of this model never
    equal a mode name.  (An array or a [String] object can; [VObject] is a
    plain object.) *)
Definition loose_eq_string (v : JsValue) (s : string) : bool :=
  match v with
  | VString s' => String.eqb s' s
  | VBuffer b => String.eqb (string_of_list_byte (buf_bytes b)) s
  | _ => false
  end.

(** What a [throw] carries: the encoder's constructor throws bare strings,
    everything else throws [Error] or [TypeError] objects. *)
Inductive Thrown :=
| ThrownString (s : string)
| ThrownError (message : string)
| ThrownTypeError (message : string)
| ThrownRangeError (message : string).

Definition thrown_text (t : Thrown) : string :=
  match t with
  | ThrownString s | ThrownError s | ThrownTypeError s | ThrownRangeError s => s
  end.

Fixpoint contains (needle s : string) : bool :=
  String.prefix needle s ||
  match s with
  | EmptyString => false
  | String _ s' => contains needle s'
  end.

(** chai's [to.throw(/channel/)]. *)
Definition channel_related (t : Thrown) : bool := contains "channel" (thrown_text t).

(** ** Computations that may throw, over a mutable state *)

Inductive Result (A : Type) :=
| Ok (a : A)
| Throw (e : Thrown).
Arguments Ok {A} a.
Arguments Throw {A} e.

Definition M (S A : Type) : Type := S -> Result A * S.

Definition pure {S A} (a : A) : M S A := fun s => (Ok a, s).

Definition throw {S A} (e : Thrown) : M S A := fun s => (Throw e, s).

Definition bind {S A B} (m : M S A) (k : A -> M S B) : M S B :=
  fun s => match m s with
           | (Ok a, s') => k a s'
           | (Throw e, s') => (Throw e, s')
           end.

(** [try { body } finally { fin }] for a finaliser that cannot throw. *)
Definition try_finally {S A} (body : M S A) (fin : S -> S) : M S A :=
  fun s => let '(r, s') := body s in (r, fin s').

Notation "'let*' x ':=' m 'in' k" := (bind m (fun x => k))
  (at level 10, x name, m at level 100, k at level 200).
Notation "m1 ';;' m2" := (bind m1 (fun _ => m2))
  (at level 100, m2 at level 200, right associativity).

(** ** The foreign heap and the engine's function table *)

(** The linear memory, one byte per address.  It is total: the blocks the
    allocator hands out are taken to lie inside the memory, so the range
    checks of the typed-array views on it never fire. *)
Definition Heap : Type := Z -> byte.

(** One entry per call through the [libopus] object. *)
Inductive Event :=
| EvMalloc (size p : Z)
| EvFree (p : Z)
| EvDecoderGetSize (channels size : Z)
| EvDecoderInit (st rate channels status : Z)
| EvDecode (float : bool) (st data len pcm frame_size decode_fec res : Z)
| EvDecoderCtl (st request args status : Z)
| EvPacketGetNbSamples (data len rate res : Z)
| EvEncoderGetSize (channels size : Z)
| EvEncoderInit (st rate channels application status : Z)
| EvEncode (float : bool) (st pcm frame_size data max_data_bytes res : Z).

(** The state of the Emscripten module instance: the linear memory, the
    blocks handed out by [_malloc] and not yet released (address to size),
    and the calls made so far. *)
Record World := mkWorld {
  HEAPU8 : Heap;
  live : gmap Z Z;
  trace : list Event
}.

(** The exported functions of the engine.  Each acts on the linear memory
    only; [malloc_addr] is the allocator's placement policy. *)
Record LibOpus := mkLibOpus {
  malloc_addr : gmap Z Z -> Z -> Z;
  opus_strerror : Z -> string;
  opus_decoder_get_size : Z -> Z;
  opus_decoder_init : Heap -> Z -> Z -> Z -> Z * Heap;
  opus_decode : Heap -> Z -> Z -> Z -> Z -> Z -> Z -> Z * Heap;
  opus_decode_float : Heap -> Z -> Z -> Z -> Z -> Z -> Z -> Z * Heap;
  opus_decoder_ctl : Heap -> Z -> Z -> Z -> Z * Heap;
  opus_packet_get_nb_samples : Heap -> Z -> Z -> Z -> Z;
  opus_encoder_get_size : Z -> Z;
  opus_encoder_init : Heap -> Z -> Z -> Z -> Z -> Z * Heap;
  opus_encode : Heap -> Z -> Z -> Z -> Z -> Z -> Z * Heap;
  opus_encode_float : Heap -> Z -> Z -> Z -> Z -> Z -> Z * Heap
}.

Definition byte_of_Z (z : Z) : byte :=
  match Byte.of_N (Z.to_N (z mod 256)) with
  | Some b => b
  | None => "000"%byte
  end.

Definition Z_of_byte (b : byte) : Z := Z.of_N (Byte.to_N b).

(** *** Views on the linear memory *)

(** [HEAPU8.set(arr, offset)], [HEAP16.set], [HEAPF32.set]: the bytes of
    [arr] land at byte address [offset]. *)
Definition heap_set (arr : list byte) (offset : Z) (heap : Heap) : Heap :=
  fun a =>
    if bool_decide (offset <= a < offset + Z.of_nat (length arr))
    then nth (Z.to_nat (a - offset)) arr "000"%byte
    else heap a.

(** [HEAPU8.slice(b, e)] and [HEAPU8.subarray(b, e)] read the same bytes;
    the callers copy the view at once, so one reader serves both. *)
Fixpoint heap_read (heap : Heap) (a : Z) (n : nat) : list byte :=
  match n with
  | O => []
  | S n' => heap a :: heap_read heap (a + 1) n'
  end.

Definition heap_slice (b e : Z) (heap : Heap) : list byte :=
  heap_read heap b (Z.to_nat (e - b)).

(** [HEAPU32[i] = v]. *)
Definition heapu32_store (i v : Z) (heap : Heap) : Heap :=
  let u := v mod 2 ^ 32 in
  heap_set [byte_of_Z u; byte_of_Z (Z.shiftr u 8);
            byte_of_Z (Z.shiftr u 16); byte_of_Z (Z.shiftr u 24)] (4 * i) heap.

(** [HEAP32[i]]. *)
Definition heap32_load (i : Z) (heap : Heap) : Z :=
  let u := Z_of_byte (heap (4 * i))
           + Z.shiftl (Z_of_byte (heap (4 * i + 1))) 8
           + Z.shiftl (Z_of_byte (heap (4 * i + 2))) 16
           + Z.shiftl (Z_of_byte (heap (4 * i + 3))) 24 in
  if u <? 2 ^ 31 then u else u - 2 ^ 32.

Definition log (e : Event) (w : World) : World :=
  {| HEAPU8 := HEAPU8 w; live := live w; trace := trace w ++ [e] |}.

Definition with_heap (h : Heap) (w : World) : World :=
  {| HEAPU8 := h; live := live w; trace := trace w |}.

(** [utils.p_pcm_len] and [utils.p_data_len]. *)
Definition p_pcm_len : Z := 4 (*Float32*) * 2 (*channels*) * 120 (*ms*) * 48 (*samples/ms*).
Definition p_data_len : Z := 120 (*ms*) * 512 (*bits per ms*).

Section Binding.

(** The engine instance, [require('../build/libopus.js').instance]. *)
Variable libopus : LibOpus.

(** *** The calls through [libopus] *)

Definition alloc_block (size : Z) (w : World) : Z * World :=
  let p := malloc_addr libopus (live w) size in
  (p, log (EvMalloc size p)
        {| HEAPU8 := HEAPU8 w; live := <[p := size]> (live w); trace := trace w |}).

Definition _malloc (size : Z) : M World Z := fun w =>
  let '(p, w') := alloc_block size w in (Ok p, w').

Definition free_block (p : Z) (w : World) : World :=
  log (EvFree p) {| HEAPU8 := HEAPU8 w; live := delete p (live w); trace := trace w |}.

Definition _free (p : Z) : M World unit := fun w => (Ok tt, free_block p w).

(** A call of an engine function that returns a status and may write the
    linear memory. *)
Definition engine_call (f : Heap -> Z * Heap) (ev : Z -> Event) : M World Z := fun w =>
  let '(r, h) := f (HEAPU8 w) in (Ok r, log (ev r) (with_heap h w)).

Definition _opus_decoder_get_size (channels : Z) : M World Z := fun w =>
  let size := opus_decoder_get_size libopus channels in
  (Ok size, log (EvDecoderGetSize channels size) w).

Definition _opus_decoder_init (st rate channels : Z) : M World Z :=
  engine_call (fun h => opus_decoder_init libopus h st rate channels)
              (EvDecoderInit st rate channels).

Definition _opus_decode (st data len pcm frame_size decode_fec : Z) : M World Z :=
  engine_call (fun h => opus_decode libopus h st data len pcm frame_size decode_fec)
              (EvDecode false st data len pcm frame_size decode_fec).

Definition _opus_decode_float (st data len pcm frame_size decode_fec : Z) : M World Z :=
  engine_call (fun h => opus_decode_float libopus h st data len pcm frame_size decode_fec)
              (EvDecode true st data len pcm frame_size decode_fec).

Definition _opus_decoder_ctl (st request args : Z) : M World Z :=
  engine_call (fun h => opus_decoder_ctl libopus h st request args)
              (EvDecoderCtl st request args).

Definition _opus_packet_get_nb_samples (data len rate : Z) : M World Z := fun w =>
  let r := opus_packet_get_nb_samples libopus (HEAPU8 w) data len rate in
  (Ok r, log (EvPacketGetNbSamples data len rate r) w).

Definition _opus_encoder_get_size (channels : Z) : M World Z := fun w =>
  let size := opus_encoder_get_size libopus channels in
  (Ok size, log (EvEncoderGetSize channels size) w).

Definition _opus_encoder_init (st rate channels application : Z) : M World Z :=
  engine_call (fun h => opus_encoder_init libopus h st rate channels application)
              (EvEncoderInit st rate channels application).

Definition _opus_encode (st pcm frame_size data max_data_bytes : Z) : M World Z :=
  engine_call (fun h => opus_encode libopus h st pcm frame_size data max_data_bytes)
              (EvEncode false st pcm frame_size data max_data_bytes).

Definition _opus_encode_float (st pcm frame_size data max_data_bytes : Z) : M World Z :=
  engine_call (fun h => opus_encode_float libopus h st pcm frame_size data max_data_bytes)
              (EvEncode true st pcm frame_size data max_data_bytes).

Definition HEAPU8_set (arr : list byte) (offset : Z) : M World unit := fun w =>
  (Ok tt, with_heap (heap_set arr offset (HEAPU8 w)) w).

(** [utils.stringifyError]. *)
Definition stringifyError (errorId : Z) : string := opus_strerror libopus errorId.

End Binding.

(** ** The codec state of a handle *)

(** [this._state] is the address of the live foreign block when
    [this._unsafe] is set, and a private [Uint8Array] copy of the block
    otherwise; the constructors set the two fields together, so the handle
    keeps one tagged field and [_unsafe] is read off it. *)
Inductive CodecState :=
| Foreign (p : Z)
| Snapshot (bytes : list byte).

Definition is_foreign (st : CodecState) : bool :=
  match st with Foreign _ => true | Snapshot _ => false end.

Section WithState.

Variable libopus : LibOpus.

(** The body shared, word for word, by [Decoder.prototype._withState] and
    [Encoder.prototype._withState]. *)
Definition withState {A} (st : CodecState) (func : Z -> M World A)
  : World -> Result A * CodecState * World :=
  fun w =>
    match st with
    | Foreign p =>
        (* Unsafe mode already has the state stored in memory *)
        let '(r, w') := func p w in (r, st, w')
    | Snapshot bytes =>
        (* Store state in memory *)
        let '(p, w1) := alloc_block libopus (Z.of_nat (length bytes)) w in
        let w2 := with_heap (heap_set bytes p (HEAPU8 w1)) w1 in
        (* Call function *)
        let '(r, w3) := func p w2 in
        (* finally: retrieve state from memory *)
        let bytes' := heap_slice p (p + Z.of_nat (length bytes)) (HEAPU8 w3) in
        (r, Snapshot bytes', free_block p w3)
    end.

End WithState.

(** What a [_transform] hands to its [callback]. *)
Inductive Callback :=
| CallbackError (err : Thrown)
| CallbackData (result : Buffer).

(** [new Int16Array(buffer)] / [new Float32Array(buffer)] over a whole
    [ArrayBuffer]. *)
Definition new_TypedArray {S} (t : SampleType) (buffer : list byte) : M S TypedArray :=
  if Z.of_nat (length buffer) mod BYTES_PER_ELEMENT t =? 0
  then pure (mkTypedArray t buffer)
  else throw (ThrownRangeError "byte length of typed array should be a multiple of its element size").

(** [new T(buffer, byteOffset, length)] over the backing store of a Buffer
    whose contents are [bytes]: the offset must be aligned; [length] is the
    element count after ToIndex has truncated it, and the view stays inside
    the Buffer it is taken from. *)
Definition new_TypedArray_view {S} (t : SampleType) (bytes : list byte) (byteOffset : Z)
    (length : Z) : M S TypedArray :=
  if byteOffset mod BYTES_PER_ELEMENT t =? 0
  then pure (mkTypedArray t (take (Z.to_nat (length * BYTES_PER_ELEMENT t)) bytes))
  else throw (ThrownRangeError "start offset of typed array should be a multiple of its element size").

(** [v.length], as far as the binding reads it; reading a property of
    [undefined] or [null] throws. *)
Definition get_length {S} (v : JsValue) : M S Z :=
  match v with
  | VUndefined | VNull => throw (ThrownTypeError "Cannot read property 'length' of undefined")
  | VTyped a => pure (ta_length a)
  | VBuffer b => pure (buf_length b)
  | VString s => pure (Z.of_nat (String.length s))
  | VBool _ | VNumber _ | VObject => pure 0
  end.

(** ** [lib/decoder.js] *)

Module Decoder.

Record Options := mkOptions {
  opt_rate : option Z;
  opt_channels : option Z;
  opt_unsafe : option bool
}.

Record t := mkDecoder { _rate : Z; _channels : Z; _state : CodecState }.

Definition _unsafe (self : t) : bool := is_foreign (_state self).

Definition with_state (self : t) (st : CodecState) : t :=
  {| _rate := _rate self; _channels := _channels self; _state := st |}.

Section Methods.

(** The engine instance, and the two scratch regions [utils.p_pcm] and
    [utils.p_data] allocated once when [lib/utils.js] is loaded. *)
Variable libopus : LibOpus.
Variables p_pcm p_data : Z.

(** [function Decoder(opts)], for a whole number of channels; the
    constructor on any number is [JsDecoder.Decoder] below. *)
Definition Decoder (opts : Options) : M World t :=
  let rate := default 48000 (opt_rate opts) in
  let channels := default 1 (opt_channels opts) in
  let unsafe := default false (opt_unsafe opts) in
  if (channels <? 1) || (channels >? 2)
  then throw (ThrownError "channels must be either 1 or 2")
  else if bool_decide (rate ∉ [8000; 12000; 16000; 24000; 48000])
  then throw (ThrownError "rate can only be 8k, 12k, 16k, 24k or 48k")
  else
    (* Allocate space for the decoder state *)
    let* size := _opus_decoder_get_size libopus channels in
    let* dec := _malloc libopus size in
    (* Initialize the decoder *)
    let* status := _opus_decoder_init libopus dec rate channels in
    if negb (status =? 0)
    then
      (* Free allocated space and throw error *)
      _free dec ;; throw (ThrownError (stringifyError libopus status))
    else if unsafe
    then pure {| _rate := rate; _channels := channels; _state := Foreign dec |}
    else
      fun w =>
        let bytes := heap_slice dec (dec + size) (HEAPU8 w) in
        (_free dec ;;
         pure {| _rate := rate; _channels := channels; _state := Snapshot bytes |}) w.

(** [Decoder.prototype._withState]. *)
Definition _withState {A} (func : Z -> M World A) : M (t * World) A :=
  fun '(self, w) =>
    let '(r, st, w') := withState libopus (_state self) func w in
    (r, (with_state self st, w')).

(** [Decoder.prototype.destroy]. *)
Definition destroy : M (t * World) unit :=
  fun '(self, w) =>
    match _state self with
    | Foreign p => (Ok tt, (self, free_block p w))
    | Snapshot _ => (Ok tt, (self, w))
    end.

(** [Decoder.prototype._getLastPacketDuration]. *)
Definition _getLastPacketDuration (p_dec : Z) : M World Z :=
  let* p_res := _malloc libopus 4 in
  let* pp_res := _malloc libopus 4 in
  try_finally
    ((fun w => (Ok tt, with_heap (heapu32_store (Z.shiftr pp_res 2) p_res (HEAPU8 w)) w)) ;;
     let* err := _opus_decoder_ctl libopus p_dec 4039 pp_res in
     if negb (err =? 0)
     then throw (ThrownError (stringifyError libopus err))
     else fun w => (Ok (heap32_load (Z.shiftr p_res 2) (HEAPU8 w)), w))
    (fun w => free_block p_res (free_block pp_res w)).

(** The function that [Decoder.prototype._decode] passes to [_withState]. *)
Definition _decode_func (self : t) (data : JsValue) (bps : Z)
    (doDecode : Z -> Z -> Z -> Z -> Z -> Z -> M World Z) (p_dec : Z) : M World (list byte) :=
  let* data :=
    (if truthy data then pure data
     else let* d := _getLastPacketDuration p_dec in pure (VNumber d)) in
  let* res :=
    match data with
    | VNumber n =>
        if n * bps >? p_data_len
        then throw (ThrownError "too much lost data")
        else
          (* Signal packet loss *)
          doDecode p_dec 0 0 p_pcm n 0
    | VBuffer b =>
        if buf_length b >? p_data_len
        then throw (ThrownError "data array too large")
        else
          (* Decode input data *)
          HEAPU8_set (buf_bytes b) p_data ;;
          let maxFrameSize := p_pcm_len / _channels self / bps in
          doDecode p_dec p_data (buf_length b) p_pcm maxFrameSize 0
    | _ =>
        (* Invalid input data *)
        throw (ThrownTypeError "data must be number, Buffer or null")
    end in
  (* Handle result *)
  if res <? 0
  then throw (ThrownError (stringifyError libopus res))
  else fun w => (Ok (heap_slice p_pcm (p_pcm + res * bps) (HEAPU8 w)), w).

(** [Decoder.prototype._decode]: decode the input and leave the result on
    the heap; returns the [ArrayBuffer] of decoded data. *)
Definition _decode (data : JsValue) (bps : Z)
    (doDecode : Z -> Z -> Z -> Z -> Z -> Z -> M World Z) : M (t * World) (list byte) :=
  fun '(self, w) => _withState (_decode_func self data bps doDecode) (self, w).

(** [Decoder.prototype.decodeInt16]. *)
Definition decodeInt16 (data : JsValue) : M (t * World) TypedArray :=
  let* buffer := _decode data 2 (_opus_decode libopus) in
  new_TypedArray Int16 buffer.

(** [Decoder.prototype.decodeFloat32]. *)
Definition decodeFloat32 (data : JsValue) : M (t * World) TypedArray :=
  let* buffer := _decode data 4 (_opus_decode_float libopus) in
  new_TypedArray Float32 buffer.

(** The decode method for a sample type, with its width and engine entry:
    [decodeInt16] is [_decode(data, 2, libopus._opus_decode)], [decodeFloat32]
    is [_decode(data, 4, libopus._opus_decode_float)]. *)
Definition decode_method (ty : SampleType) : JsValue -> M (t * World) TypedArray :=
  match ty with Int16 => decodeInt16 | Float32 => decodeFloat32 end.

Definition engine_decode (ty : SampleType) :=
  match ty with Int16 => opus_decode libopus | Float32 => opus_decode_float libopus end.

(** [Decoder.prototype.getLastPacketDuration]. *)
Definition getLastPacketDuration : M (t * World) Z :=
  _withState _getLastPacketDuration.

(** [Decoder.getNumberOfSamples]. *)
Definition getNumberOfSamples (data : JsValue) (sampleRate : Z) : M World Z :=
  match data with
  | VBuffer b =>
      if buf_length b >? p_data_len
      then throw (ThrownError "data array too large")
      else
        (* Parse input data *)
        HEAPU8_set (buf_bytes b) p_data ;;
        let* res := _opus_packet_get_nb_samples libopus p_data (buf_length b) sampleRate in
        (* Handle result *)
        if res <? 0
        then throw (ThrownError (stringifyError libopus res))
        else pure res
  | _ =>
      (* Invalid input data *)
      throw (ThrownTypeError "data must be a Buffer")
  end.

(** A [DecoderStream]: the bound decode method chosen by the mode. *)
Record DecoderStream := mkDecoderStream {
  stream_decode : JsValue -> M (t * World) TypedArray
}.

(** [function DecoderStream(decoder, mode)], reached through
    [Decoder.prototype.stream]. *)
Definition stream (mode : JsValue) : Result DecoderStream :=
  if loose_eq_string mode "Float32"
  then Ok {| stream_decode := decodeFloat32 |}
  else if loose_eq_string mode "Int16"
  then Ok {| stream_decode := decodeInt16 |}
  else Throw (ThrownTypeError ("mode cannot be " +:+ to_js_string mode)).

(** [DecoderStream.prototype._transform]; [Buffer.from(array.buffer,
    array.byteOffset, array.byteLength)] is a view on the whole array. *)
Definition _transform (s : DecoderStream) (chunk : Buffer) : M (t * World) Callback :=
  fun st =>
    match stream_decode s (VBuffer chunk) st with
    | (Ok array, st') => (Ok (CallbackData (mkBuffer (ta_bytes array) 0)), st')
    | (Throw err, st') => (Ok (CallbackError err), st')
    end.

End Methods.

End Decoder.

(** ** [lib/encoder.js] *)

Module Encoder.

(** [Application]: the encoding mode. *)
Definition VOIP : Z := 2048.
Definition AUDIO : Z := 2049.
Definition RESTRICTED_LOWDELAY : Z := 2051.

Record Options := mkOptions {
  opt_rate : option Z;
  opt_channels : option Z;
  opt_application : option Z;
  opt_unsafe : option bool
}.

Record t := mkEncoder {
  _rate : Z;
  _channels : Z;
  _application : Z;
  _state : CodecState
}.

Definition _unsafe (self : t) : bool := is_foreign (_state self).

Definition with_state (self : t) (st : CodecState) : t :=
  {| _rate := _rate self; _channels := _channels self;
     _application := _application self; _state := st |}.

Section Methods.

Variable libopus : LibOpus.
Variables p_pcm p_data : Z.

(** [function Encoder(opts)], for a whole number of channels; the
    constructor on any number is [JsEncoder.Encoder] below. *)
Definition Encoder (opts : Options) : M World t :=
  let rate := default 48000 (opt_rate opts) in
  let channels := default 1 (opt_channels opts) in
  let application := default AUDIO (opt_application opts) in
  let unsafe := default false (opt_unsafe opts) in
  if (channels <? 1) || (channels >? 2)
  then throw (ThrownString "channels must be either 1 or 2")
  else if bool_decide (rate ∉ [8000; 12000; 16000; 24000; 48000])
  then throw (ThrownString "rate can only be 8k, 12k, 16k, 24k or 48k")
  else if negb (application =? VOIP) && negb (application =? AUDIO)
          && negb (application =? RESTRICTED_LOWDELAY)
  then throw (ThrownString "invalid application type")
  else
    (* Allocate space for the encoder state *)
    let* size := _opus_encoder_get_size libopus channels in
    let* enc := _malloc libopus size in
    (* Initialize the encoder *)
    let* status := _opus_encoder_init libopus enc rate channels application in
    if negb (status =? 0)
    then
      (* Free allocated space and throw error *)
      _free enc ;; throw (ThrownString (stringifyError libopus status))
    else if unsafe
    then pure {| _rate := rate; _channels := channels;
                 _application := application; _state := Foreign enc |}
    else
      fun w =>
        let bytes := heap_slice enc (enc + size) (HEAPU8 w) in
        (_free enc ;;
         pure {| _rate := rate; _channels := channels;
                 _application := application; _state := Snapshot bytes |}) w.

(** [Encoder.prototype._withState]. *)
Definition _withState {A} (func : Z -> M World A) : M (t * World) A :=
  fun '(self, w) =>
    let '(r, st, w') := withState libopus (_state self) func w in
    (r, (with_state self st, w')).

(** [Encoder.prototype.destroy]. *)
Definition destroy : M (t * World) unit :=
  fun '(self, w) =>
    match _state self with
    | Foreign p => (Ok tt, (self, free_block p w))
    | Snapshot _ => (Ok tt, (self, w))
    end.

(** The function that [Encoder.prototype.encode] passes to [_withState];
    [length] is [pcm.length] and [samples] the quotient computed before the
    call. *)
Definition encode_func (pcm : JsValue) (length samples : Z) (p_enc : Z) : M World Buffer :=
  let* encode :=
    match pcm with
    | VTyped {| ta_type := Float32; ta_bytes := bytes |} =>
        if length * 4 >? p_pcm_len
        then throw (ThrownError "pcm array too large")
        else
          HEAPU8_set bytes (4 * Z.shiftr p_pcm 2) ;;
          pure (_opus_encode_float libopus)
    | VTyped {| ta_type := Int16; ta_bytes := bytes |} =>
        if length * 2 >? p_pcm_len
        then throw (ThrownError "pcm array too large")
        else
          HEAPU8_set bytes (2 * Z.shiftr p_pcm 1) ;;
          pure (_opus_encode libopus)
    | _ => throw (ThrownTypeError "pcm must be Int16Array or Float32Array")
    end in
  let* len := encode p_enc p_pcm samples p_data p_data_len in
  if len <? 0
  then throw (ThrownError (stringifyError libopus len))
  else fun w => (Ok (mkBuffer (heap_slice p_data (p_data + len) (HEAPU8 w)) 0), w).

(** [Encoder.prototype.encode].  [samples] reaches the engine as a 32-bit
    integer; the integer quotient is that value. *)
Definition encode (pcm : JsValue) : M (t * World) Buffer :=
  let* length := get_length pcm in
  fun '(self, w) =>
    let samples := length / _channels self in
    _withState (encode_func pcm length samples) (self, w).

(** The engine entry [encode] picks for an element type. *)
Definition engine_encode (ty : SampleType) :=
  match ty with Int16 => opus_encode libopus | Float32 => opus_encode_float libopus end.

(** An [EncoderStream]: the typed-array constructor chosen by the mode;
    [this._encoder] is the handle the stream's state threads. *)
Record EncoderStream := mkEncoderStream { _mode : SampleType }.

(** [function EncoderStream(encoder, mode)], reached through
    [Encoder.prototype.stream]. *)
Definition stream (mode : JsValue) : Result EncoderStream :=
  if loose_eq_string mode "Float32"
  then Ok {| _mode := Float32 |}
  else if loose_eq_string mode "Int16"
  then Ok {| _mode := Int16 |}
  else Throw (ThrownTypeError ("mode cannot be " +:+ to_js_string mode)).

(** [EncoderStream.prototype._transform].  The typed view is built outside
    the [try]: its [RangeError] leaves [_transform] as an exception. *)
Definition _transform (s : EncoderStream) (chunk : Buffer) : M (t * World) Callback :=
  let* chunk :=
    new_TypedArray_view (_mode s) (buf_bytes chunk) (byteOffset chunk)
      (buf_length chunk / BYTES_PER_ELEMENT (_mode s)) in
  fun st =>
    match encode (VTyped chunk) st with
    | (Ok result, st') => (Ok (CallbackData result), st')
    | (Throw err, st') => (Ok (CallbackError err), st')
    end.

End Methods.

End Encoder.

(** ** The stream host *)

(** Modelled from the spec: Node's [stream.Transform], which is not part of
    the repository.  "A push-style transform with one input chunk -> one
    output chunk, preserving input ordering (single in-flight item at a
    time; no reordering, no batching)": the chunks written are handed to
    [_transform] one at a time, in arrival order, each on the state its
    predecessor left; what each call did is collected in that order. *)
Fixpoint write_all {S} (transform : Buffer -> M S Callback) (chunks : list Buffer) (s : S)
  : list (Result Callback) * S :=
  match chunks with
  | [] => ([], s)
  | chunk :: rest =>
      let '(r, s') := transform chunk s in
      let '(rs, s'') := write_all transform rest s' in
      (r :: rs, s'')
  end.

(** The same chunks submitted by direct calls of a codec method. *)
Fixpoint call_all {S I O} (method : I -> M S O) (inputs : list I) (s : S)
  : list (Result O) * S :=
  match inputs with
  | [] => ([], s)
  | input :: rest =>
      let '(r, s') := method input s in
      let '(rs, s'') := call_all method rest s' in
      (r :: rs, s'')
  end.

(** The chunks a stream pushed to its readable side. *)
Definition pushed (rs : list (Result Callback)) : list Buffer :=
  omap (fun r => match r with Ok (CallbackData b) => Some b | _ => None end) rs.

(** What the callback of a [_transform] reports for a direct call's result. *)
Definition callback_of {O} (to_buffer : O -> Buffer) (r : Result O) : Result Callback :=
  match r with
  | Ok o => Ok (CallbackData (to_buffer o))
  | Throw err => Ok (CallbackError err)
  end.

(** ** Reading the trace *)

Definition is_codec_call (e : Event) : bool :=
  match e with
  | EvDecode _ _ _ _ _ _ _ _ | EvEncode _ _ _ _ _ _ _ | EvDecoderCtl _ _ _ _ => true
  | _ => false
  end.

(** The calls that run the codec on a state block, without the allocator's. *)
Definition codec_calls (evs : list Event) : list Event := filter is_codec_call evs.

(** ** A small engine to run the binding on concrete inputs

    Its codec state is four bytes holding the duration of the last packet.
    A packet is two bytes holding the frame's sample count per channel.
    Concealment is requested, as in libopus, by a null packet or a zero
    length. *)

Module Toy.

Definition store_le32 (a v : Z) (heap : Heap) : Heap :=
  let u := v mod 2 ^ 32 in
  heap_set [byte_of_Z u; byte_of_Z (Z.shiftr u 8);
            byte_of_Z (Z.shiftr u 16); byte_of_Z (Z.shiftr u 24)] a heap.

Definition load_le32 (a : Z) (heap : Heap) : Z :=
  Z_of_byte (heap a) + 256 * Z_of_byte (heap (a + 1))
  + 65536 * Z_of_byte (heap (a + 2)) + 16777216 * Z_of_byte (heap (a + 3)).

Definition valid_config (rate channels : Z) : bool :=
  bool_decide (rate ∈ [8000; 12000; 16000; 24000; 48000])
  && bool_decide (channels ∈ [1; 2]).

Definition malloc (live : gmap Z Z) (size : Z) : Z :=
  map_fold (fun a sz acc => Z.max acc (8 * ((a + Z.max sz 1 + 7) / 8))) 4096 live.

Definition strerror (code : Z) : string :=
  if code =? -1 then "invalid argument"
  else if code =? -2 then "buffer too small"
  else if code =? -5 then "request not implemented"
  else "unknown error".

Definition init (heap : Heap) (st rate channels : Z) : Z * Heap :=
  if valid_config rate channels then (0, store_le32 st 0 heap) else (-1, heap).

Definition decode (heap : Heap) (st data len pcm frame_size decode_fec : Z) : Z * Heap :=
  if (data =? 0) || (len =? 0)
  then if frame_size <? 0 then (-1, heap) else (frame_size, store_le32 st frame_size heap)
  else
    let n := Z_of_byte (heap data) + 256 * Z_of_byte (heap (data + 1)) in
    if n >? frame_size then (-2, heap) else (n, store_le32 st n heap).

Definition ctl (heap : Heap) (st request args : Z) : Z * Heap :=
  if request =? 4039
  then (0, store_le32 (load_le32 args heap) (load_le32 st heap) heap)
  else (-5, heap).

Definition encode (heap : Heap) (st pcm frame_size data max_data_bytes : Z) : Z * Heap :=
  if frame_size <=? 0 then (-1, heap)
  else if max_data_bytes <? 2 then (-2, heap)
  else (2, heap_set [byte_of_Z frame_size; byte_of_Z (Z.shiftr frame_size 8)] data heap).

Definition engine : LibOpus := {|
  malloc_addr := malloc;
  opus_strerror := strerror;
  opus_decoder_get_size := fun _ => 4;
  opus_decoder_init := init;
  opus_decode := decode;
  opus_decode_float := decode;
  opus_decoder_ctl := ctl;
  opus_packet_get_nb_samples := fun heap data len rate =>
    Z_of_byte (heap data) + 256 * Z_of_byte (heap (data + 1));
  opus_encoder_get_size := fun _ => 4;
  opus_encoder_init := fun heap st rate channels application => init heap st rate channels;
  opus_encode := encode;
  opus_encode_float := encode
|}.

(** The scratch regions, as [lib/utils.js] would have obtained them. *)
Definition p_pcm : Z := 4096.
Definition p_data : Z := 4096 + p_pcm_len.

Definition world : World := {|
  HEAPU8 := fun _ => "000"%byte;
  live := {[ p_pcm := p_pcm_len; p_data := p_data_len ]};
  trace := []
|}.

(** Handles built by the constructors on the fresh [world]. *)
Definition new_decoder (channels : Z) (unsafe : bool) : Decoder.t * World :=
  match Decoder.Decoder engine (Decoder.mkOptions None (Some channels) (Some unsafe)) world with
  | (Ok dec, w) => (dec, w)
  | (Throw _, w) => (Decoder.mkDecoder 0 0 (Snapshot []), w)
  end.

Definition new_encoder (channels : Z) (unsafe : bool) : Encoder.t * World :=
  match Encoder.Encoder engine
          (Encoder.mkOptions None (Some channels) None (Some unsafe)) world with
  | (Ok enc, w) => (enc, w)
  | (Throw _, w) => (Encoder.mkEncoder 0 0 0 (Snapshot []), w)
  end.

End Toy.

(** [k] successive calls of a method. *)
Fixpoint repeatM {S} (k : nat) (m : M S unit) : M S unit :=
  match k with
  | O => pure tt
  | S k' => m ;; repeatM k' m
  end.

(** ** Where an operation of a handle runs

    [withState] runs its operation at [op_address], in [op_world]; on a
    private snapshot both are made by the call, and [after_op] is the
    clean-up. *)

Definition op_address (libopus : LibOpus) (st : CodecState) (w : World) : Z :=
  match st with
  | Foreign p => p
  | Snapshot bytes => malloc_addr libopus (live w) (Z.of_nat (length bytes))
  end.

Definition op_world (libopus : LibOpus) (st : CodecState) (w : World) : World :=
  match st with
  | Foreign _ => w
  | Snapshot bytes =>
      let '(p, w1) := alloc_block libopus (Z.of_nat (length bytes)) w in
      with_heap (heap_set bytes p (HEAPU8 w1)) w1
  end.

Definition after_op (st : CodecState) (p : Z) (w : World) : CodecState * World :=
  match st with
  | Foreign _ => (st, w)
  | Snapshot bytes =>
      (Snapshot (heap_slice p (p + Z.of_nat (length bytes)) (HEAPU8 w)), free_block p w)
  end.

(** The allocator's calls around the operation. *)
Definition enter_events (libopus : LibOpus) (st : CodecState) (w : World) : list Event :=
  match st with
  | Foreign _ => []
  | Snapshot bytes =>
      [EvMalloc (Z.of_nat (length bytes)) (op_address libopus st w)]
  end.

Definition exit_events (st : CodecState) (p : Z) : list Event :=
  match st with
  | Foreign _ => []
  | Snapshot _ => [EvFree p]
  end.

(** The world after a call that loaded the state and threw before doing
    anything else. *)
Definition released_world (libopus : LibOpus) (st : CodecState) (w : World) : World :=
  (after_op st (op_address libopus st w) (op_world libopus st w)).2.

(** Where [HEAP16.set(pcm, p_pcm >> 1)] and [HEAPF32.set(pcm, p_pcm >> 2)]
    write. *)
Definition pcm_view_address (ty : SampleType) (p_pcm : Z) : Z :=
  match ty with
  | Int16 => 2 * Z.shiftr p_pcm 1
  | Float32 => 4 * Z.shiftr p_pcm 2
  end.

(** The events a call appended to the trace. *)
Definition new_events (before after : World) : list Event :=
  drop (length (trace before)) (trace after).

Definition is_decode_call (e : Event) : bool :=
  match e with EvDecode _ _ _ _ _ _ _ _ => true | _ => false end.

(** A call of the engine's decode that asks it to conceal [n] samples: no
    packet, no length, [n] as the frame size. *)
Definition conceals (n : Z) (e : Event) : bool :=
  match e with
  | EvDecode _ _ data len _ frame_size _ _ => (data =? 0) && (len =? 0) && (frame_size =? n)
  | _ => false
  end.

(** A call rejected for the size of its input: the size error, and the
    engine's codec entries not called. *)
Definition rejected_for_size {A} (before : World) (run : Result A * (Decoder.t * World)) : Prop :=
  (exists message, run.1 = Throw (ThrownError message)) /\
  codec_calls (new_events before run.2.2) = [].

(** The claim about a count of lost samples, in the specification's words:
    "reject if count x sampleWidth exceeds the PCM arena capacity; invoke
    engine decode with a null/zero packet pointer and the given sample count
    to signal concealment". *)
Definition lost_count_as_specified (libopus : LibOpus) (p_pcm p_data : Z)
    (ty : SampleType) (s : Decoder.t * World) (count : Z) : Prop :=
  let run := Decoder.decode_method libopus p_pcm p_data ty (VNumber count) s in
  (rejected_for_size s.2 run <-> count * BYTES_PER_ELEMENT ty > p_pcm_len) /\
  (count * BYTES_PER_ELEMENT ty <= p_pcm_len ->
   exists e, filter is_decode_call (new_events s.2 run.2.2) = [e] /\ conceals count e = true).

(** The mode string of a sample type. *)
Definition mode_name (ty : SampleType) : string :=
  match ty with Int16 => "Int16" | Float32 => "Float32" end.

(** The chunk's bytes reinterpreted as a typed array: as many whole
    elements as the chunk holds. *)
Definition reinterpret (ty : SampleType) (chunk : Buffer) : TypedArray :=
  mkTypedArray ty
    (take (Z.to_nat (buf_length chunk / BYTES_PER_ELEMENT ty * BYTES_PER_ELEMENT ty))
          (buf_bytes chunk)).

(** The results of the calls that returned. *)
Definition returned {O} (rs : list (Result O)) : list O :=
  omap (fun r => match r with Ok o => Some o | Throw _ => None end) rs.

(** The claim about the number of outputs, in the specification's words:
    "writing N chunks produces N outputs". *)
Definition one_output_per_chunk {S} (transform : Buffer -> M S Callback)
    (chunks : list Buffer) (s : S) : Prop :=
  length (pushed (write_all transform chunks s).1) = length chunks.

Definition supported_rate (rate : Z) : Prop := rate ∈ [8000; 12000; 16000; 24000; 48000].

Definition supported_application (application : Z) : Prop :=
  application = Encoder.VOIP \/ application = Encoder.AUDIO
  \/ application = Encoder.RESTRICTED_LOWDELAY.

Definition is_float (ty : SampleType) : bool :=
  match ty with Int16 => false | Float32 => true end.

(** ** Vocabulary of the further properties *)

(** chai's [to.throw(/rate/)] and [to.throw(/application/)]. *)
Definition rate_related (t : Thrown) : bool := contains "rate" (thrown_text t).
Definition application_related (t : Thrown) : bool :=
  contains "application" (thrown_text t).

(** [ToInt32]: what [HEAP32] shows of a number stored through [HEAPU32]. *)
Definition to_int32 (v : Z) : Z :=
  let u := v mod 2 ^ 32 in
  if u <? 2 ^ 31 then u else u - 2 ^ 32.

(** An allocator that never hands out the address of a live block. *)
Definition fresh_allocator (libopus : LibOpus) : Prop :=
  forall (blocks : gmap Z Z) (size : Z), blocks !! malloc_addr libopus blocks size = None.

(** A computation that leaves the live blocks as it found them. *)
Definition keeps_live {A} (m : M World A) : Prop :=
  forall w, live (m w).2 = live w.

(** Two states of one handle: the same foreign block, or snapshots of the
    same size. *)
Definition same_shape (st st' : CodecState) : Prop :=
  match st, st' with
  | Foreign p, Foreign p' => p = p'
  | Snapshot bytes, Snapshot bytes' => length bytes = length bytes'
  | _, _ => False
  end.

Definition is_number (v : JsValue) : bool :=
  match v with VNumber _ => true | _ => false end.

Definition is_buffer (v : JsValue) : bool :=
  match v with VBuffer _ => true | _ => false end.

Definition is_typed (v : JsValue) : bool :=
  match v with VTyped _ => true | _ => false end.

Definition is_nullish (v : JsValue) : bool :=
  match v with VUndefined | VNull => true | _ => false end.

(** The primitive values whose string form is printed as JavaScript prints
    it: [undefined], [null], the booleans, the strings, and the integers
    below 2^53 in magnitude, each of which is a double and prints as its
    decimal digits. *)
Definition prints_plainly (v : JsValue) : bool :=
  match v with
  | VUndefined | VNull | VBool _ | VString _ => true
  | VNumber n => Z.abs n <? 2 ^ 53
  | VBuffer _ | VTyped _ | VObject => false
  end.

(** The small engine with an init that reports an internal error. *)
Definition failing_init_engine : LibOpus := {|
  malloc_addr := Toy.malloc;
  opus_strerror := Toy.strerror;
  opus_decoder_get_size := fun _ => 4;
  opus_decoder_init := fun heap st rate channels => (-3, heap);
  opus_decode := Toy.decode;
  opus_decode_float := Toy.decode;
  opus_decoder_ctl := Toy.ctl;
  opus_packet_get_nb_samples := opus_packet_get_nb_samples Toy.engine;
  opus_encoder_get_size := fun _ => 4;
  opus_encoder_init := fun heap st rate channels application => (-3, heap);
  opus_encode := Toy.encode;
  opus_encode_float := Toy.encode
|}.

(** A handle before and after a call: the configuration is the one it was
    built with, and the state keeps its shape. *)
Definition same_decoder (dec dec' : Decoder.t) : Prop :=
  Decoder._rate dec' = Decoder._rate dec /\
  Decoder._channels dec' = Decoder._channels dec /\
  same_shape (Decoder._state dec) (Decoder._state dec').

Definition same_encoder (enc enc' : Encoder.t) : Prop :=
  Encoder._rate enc' = Encoder._rate enc /\
  Encoder._channels enc' = Encoder._channels enc /\
  Encoder._application enc' = Encoder._application enc /\
  same_shape (Encoder._state enc) (Encoder._state enc').

(** What the function that [_decode] passes to [_withState] can end in,
    run from the world [w]: the first [n] bytes-times-width of the PCM
    scratch region as the memory is when it returns, [n >= 0] being what
    the engine's decode, its last call, returned; or an [Error] or
    [TypeError]. *)
Definition decode_func_outcome (p_pcm bps : Z) (float : bool) (p_dec : Z) (w : World)
    (run : Result (list byte) * World) : Prop :=
  match run.1 with
  | Ok bytes =>
      exists n,
        0 <= n /\
        bytes = heap_slice p_pcm (p_pcm + n * bps) (HEAPU8 run.2) /\
        exists evs data len frame_size,
          trace run.2
          = trace w ++ evs ++ [EvDecode float p_dec data len p_pcm frame_size 0 n]
  | Throw err => exists message, err = ThrownError message \/ err = ThrownTypeError message
  end.

(** What a decode call can end in, [before] being the world it started
    from: a typed array of the method's type whose contents are the start
    of the PCM scratch region in the linear memory as the call leaves it,
    whole elements only, as many as the engine's decode (the last codec
    call made) returned; or an [Error] or [TypeError]. *)
Definition decode_outcome (p_pcm : Z) (ty : SampleType) (before : World)
    (run : Result TypedArray * (Decoder.t * World)) : Prop :=
  match run.1 with
  | Ok out =>
      ta_type out = ty /\
      0 <= ta_length out /\
      ta_bytes out
      = heap_slice p_pcm (p_pcm + ta_length out * BYTES_PER_ELEMENT ty) (HEAPU8 run.2.2) /\
      exists calls p_dec data len frame_size,
        codec_calls (new_events before run.2.2)
        = calls ++ [EvDecode (is_float ty) p_dec data len p_pcm frame_size 0 (ta_length out)]
  | Throw err => exists message, err = ThrownError message \/ err = ThrownTypeError message
  end.

(** ** The constructors on any number of channels

    [opts.channels] is documented as a number, and nothing in the
    constructors tests that it is a whole one.  The value is used three
    times: compared with 1 and with 2, passed to the engine's size query and
    init, which receive it as a 32-bit integer (ToInt32), and stored in
    [this._channels].  A value of another type goes through ToNumber at each
    of the first two uses ([true] is 1, a string that is no numeral and a
    plain object are NaN), so it is its number that is modelled. *)

(** A JavaScript number: a finite double is [m * 2 ^ e] for two integers,
    and there are NaN and the two infinities.  [1.5] is [Finite 3 (-1)]. *)
Inductive JsNumber :=
| Finite (m e : Z)
| NaN
| Infinity (negative : bool).

(** [x < n] and [x > n] for an integer literal [n]; a comparison with NaN
    is false. *)
Definition number_ltb (x : JsNumber) (n : Z) : bool :=
  match x with
  | Finite m e => if 0 <=? e then m * 2 ^ e <? n else m <? n * 2 ^ (- e)
  | NaN => false
  | Infinity negative => negative
  end.

Definition number_gtb (x : JsNumber) (n : Z) : bool :=
  match x with
  | Finite m e => if 0 <=? e then m * 2 ^ e >? n else m >? n * 2 ^ (- e)
  | NaN => false
  | Infinity negative => negb negative
  end.

(** ToInt32 of a number: the fraction is dropped (towards zero) and the
    integer wraps to 32 bits; NaN and the infinities give 0. *)
Definition ToInt32 (x : JsNumber) : Z :=
  match x with
  | Finite m e => to_int32 (if 0 <=? e then m * 2 ^ e else Z.quot m (2 ^ (- e)))
  | NaN | Infinity _ => 0
  end.

(** The test [opts.channels < 1 || opts.channels > 2]. *)
Definition channels_refused (channels : JsNumber) : bool :=
  number_ltb channels 1 || number_gtb channels 2.

Definition on_result {A B} (f : A -> B) (r : Result A) : Result B :=
  match r with
  | Ok a => Ok (f a)
  | Throw e => Throw e
  end.

(** [function Decoder(opts)] of [lib/decoder.js], with [opts.channels] any
    number; [Decoder.Decoder] is this constructor on whole numbers. *)
Module JsDecoder.

Record Options := mkOptions {
  opt_rate : option Z;
  opt_channels : option JsNumber;
  opt_unsafe : option bool
}.

Record t := mkDecoder { _rate : Z; _channels : JsNumber; _state : CodecState }.

Definition Decoder (libopus : LibOpus) (opts : Options) : M World t :=
  let rate := default 48000 (opt_rate opts) in
  let channels := default (Finite 1 0) (opt_channels opts) in
  let unsafe := default false (opt_unsafe opts) in
  if number_ltb channels 1 || number_gtb channels 2
  then throw (ThrownError "channels must be either 1 or 2")
  else if bool_decide (rate ∉ [8000; 12000; 16000; 24000; 48000])
  then throw (ThrownError "rate can only be 8k, 12k, 16k, 24k or 48k")
  else
    (* Allocate space for the decoder state *)
    let* size := _opus_decoder_get_size libopus (ToInt32 channels) in
    let* dec := _malloc libopus size in
    (* Initialize the decoder *)
    let* status := _opus_decoder_init libopus dec rate (ToInt32 channels) in
    if negb (status =? 0)
    then
      (* Free allocated space and throw error *)
      _free dec ;; throw (ThrownError (stringifyError libopus status))
    else if unsafe
    then pure {| _rate := rate; _channels := channels; _state := Foreign dec |}
    else
      fun w =>
        let bytes := heap_slice dec (dec + size) (HEAPU8 w) in
        (_free dec ;;
         pure {| _rate := rate; _channels := channels; _state := Snapshot bytes |}) w.

(** The options and the handle of [Decoder.Decoder], as this constructor
    sees them. *)
Definition of_options (opts : Decoder.Options) : Options :=
  {| opt_rate := Decoder.opt_rate opts;
     opt_channels := (fun n => Finite n 0) <$> Decoder.opt_channels opts;
     opt_unsafe := Decoder.opt_unsafe opts |}.

Definition of_handle (dec : Decoder.t) : t :=
  {| _rate := Decoder._rate dec;
     _channels := Finite (Decoder._channels dec) 0;
     _state := Decoder._state dec |}.

End JsDecoder.

(** [function Encoder(opts)] of [lib/encoder.js], with [opts.channels] any
    number; [Encoder.Encoder] is this constructor on whole numbers. *)
Module JsEncoder.

Record Options := mkOptions {
  opt_rate : option Z;
  opt_channels : option JsNumber;
  opt_application : option Z;
  opt_unsafe : option bool
}.

Record t := mkEncoder {
  _rate : Z;
  _channels : JsNumber;
  _application : Z;
  _state : CodecState
}.

Definition Encoder (libopus : LibOpus) (opts : Options) : M World t :=
  let rate := default 48000 (opt_rate opts) in
  let channels := default (Finite 1 0) (opt_channels opts) in
  let application := default Encoder.AUDIO (opt_application opts) in
  let unsafe := default false (opt_unsafe opts) in
  if number_ltb channels 1 || number_gtb channels 2
  then throw (ThrownString "channels must be either 1 or 2")
  else if bool_decide (rate ∉ [8000; 12000; 16000; 24000; 48000])
  then throw (ThrownString "rate can only be 8k, 12k, 16k, 24k or 48k")
  else if negb (application =? Encoder.VOIP) && negb (application =? Encoder.AUDIO)
          && negb (application =? Encoder.RESTRICTED_LOWDELAY)
  then throw (ThrownString "invalid application type")
  else
    (* Allocate space for the encoder state *)
    let* size := _opus_encoder_get_size libopus (ToInt32 channels) in
    let* enc := _malloc libopus size in
    (* Initialize the encoder *)
    let* status := _opus_encoder_init libopus enc rate (ToInt32 channels) application in
    if negb (status =? 0)
    then
      (* Free allocated space and throw error *)
      _free enc ;; throw (ThrownString (stringifyError libopus status))
    else if unsafe
    then pure {| _rate := rate; _channels := channels;
                 _application := application; _state := Foreign enc |}
    else
      fun w =>
        let bytes := heap_slice enc (enc + size) (HEAPU8 w) in
        (_free enc ;;
         pure {| _rate := rate; _channels := channels;
                 _application := application; _state := Snapshot bytes |}) w.

Definition of_options (opts : Encoder.Options) : Options :=
  {| opt_rate := Encoder.opt_rate opts;
     opt_channels := (fun n => Finite n 0) <$> Encoder.opt_channels opts;
     opt_application := Encoder.opt_application opts;
     opt_unsafe := Encoder.opt_unsafe opts |}.

Definition of_handle (enc : Encoder.t) : t :=
  {| _rate := Encoder._rate enc;
     _channels := Finite (Encoder._channels enc) 0;
     _application := Encoder._application enc;
     _state := Encoder._state enc |}.

End JsEncoder.

(** * Properties *)

(** ** The linear memory *)

Lemma heap_read_length heap a n : length (heap_read heap a n) = n.
Proof. revert a. induction n as [|n IH]; intros a; simpl; [done | by rewrite IH]. Qed.

Lemma heap_read_lookup heap a n (i : nat) :
  (i < n)%nat -> heap_read heap a n !! i = Some (heap (a + Z.of_nat i)).
Proof.
  revert a i. induction n as [|n IH]; intros a i Hi; [lia|].
  destruct i as [|i]; simpl.
  - by rewrite Z.add_0_r.
  - rewrite IH by lia. do 2 f_equal. lia.
Qed.

Lemma heap_read_ext heap heap' a n :
  (forall a', heap a' = heap' a') -> heap_read heap a n = heap_read heap' a n.
Proof.
  intros Hext. revert a. induction n as [|n IH]; intros a; simpl; [done|].
  by rewrite Hext, IH.
Qed.

Lemma heap_slice_length b e heap :
  length (heap_slice b e heap) = Z.to_nat (e - b).
Proof. apply heap_read_length. Qed.

Lemma heap_slice_lookup b e heap (i : nat) :
  (Z.of_nat i < e - b) -> heap_slice b e heap !! i = Some (heap (b + Z.of_nat i)).
Proof. intros Hi. apply heap_read_lookup. lia. Qed.

Lemma heap_set_inside arr p heap (i : nat) :
  (i < length arr)%nat ->
  heap_set arr p heap (p + Z.of_nat i) = nth i arr "000"%byte.
Proof.
  intros Hi. unfold heap_set.
  rewrite bool_decide_eq_true_2 by lia.
  f_equal. lia.
Qed.

Lemma heap_set_outside arr p heap a :
  ~ (p <= a < p + Z.of_nat (length arr)) -> heap_set arr p heap a = heap a.
Proof. intros Ha. unfold heap_set. by rewrite bool_decide_eq_false_2. Qed.

(** Writing a block and reading it back returns what was written. *)
Lemma heap_slice_set arr p heap :
  heap_slice p (p + Z.of_nat (length arr)) (heap_set arr p heap) = arr.
Proof.
  apply list_eq. intros i.
  destruct (decide (i < length arr)%nat) as [Hi|Hi].
  - rewrite heap_slice_lookup by lia.
    rewrite heap_set_inside by done.
    destruct (nth_lookup_or_length arr i "000"%byte) as [->|]; [done | lia].
  - rewrite !lookup_ge_None_2; [done | lia |].
    rewrite heap_slice_length. lia.
Qed.

(** ** Scoped state blocks *)

Lemma live_free_block p w : live (free_block p w) = delete p (live w).
Proof. reflexivity. Qed.

Lemma trace_free_block p w : trace (free_block p w) = trace w ++ [EvFree p].
Proof. reflexivity. Qed.

(** What [withState] does on a private snapshot, whatever [func] returns or
    throws. *)
Lemma withState_snapshot libopus {A} (bytes : list byte) (func : Z -> M World A) w :
  let n := Z.of_nat (length bytes) in
  let p := malloc_addr libopus (live w) n in
  let w2 := with_heap (heap_set bytes p (HEAPU8 w))
              {| HEAPU8 := HEAPU8 w; live := <[p := n]> (live w);
                 trace := trace w ++ [EvMalloc n p] |} in
  withState libopus (Snapshot bytes) func w =
    ((func p w2).1,
     Snapshot (heap_slice p (p + n) (HEAPU8 (func p w2).2)),
     free_block p (func p w2).2).
Proof.
  intros n p w2. unfold withState, alloc_block, log. simpl.
  fold n. fold p. fold w2.
  by destruct (func p w2) as [r w3].
Qed.

(** C1. For every Safe-mode handle, Encoder or Decoder, and every operation
    [func] run through [_withState]: a block of exactly the snapshot's size
    is obtained from [_malloc] (fresh, for an allocator that hands out free
    addresses), the snapshot is copied into it, [func] runs on its address,
    and whether [func] returns or throws (its result [r] is passed on as it
    is) the block's bytes are copied back into the snapshot and the block is
    released: the [_state] of the handle after the call is the snapshot
    [bytes'] of the block as [func] left it.  When [func] itself leaves no
    block behind, the live blocks after the call are those before it. *)
Theorem withState_safe_scoped_block
    (libopus : LibOpus) (A : Type) (dec : Decoder.t) (enc : Encoder.t)
    (bytes : list byte) (func : Z -> M World A) (w : World) :
  Decoder._state dec = Snapshot bytes ->
  Encoder._state enc = Snapshot bytes ->
  let n := Z.of_nat (length bytes) in
  let p := malloc_addr libopus (live w) n in
  live w !! p = None ->
  exists (w2 w3 : World) (r : Result A),
    trace w2 = trace w ++ [EvMalloc n p] /\
    live w2 = <[p := n]> (live w) /\
    heap_slice p (p + n) (HEAPU8 w2) = bytes /\
    (forall a, ~ (p <= a < p + n) -> HEAPU8 w2 a = HEAPU8 w a) /\
    func p w2 = (r, w3) /\
    let bytes' := heap_slice p (p + n) (HEAPU8 w3) in
    Decoder._withState libopus func (dec, w)
      = (r, (Decoder.with_state dec (Snapshot bytes'), free_block p w3)) /\
    Encoder._withState libopus func (enc, w)
      = (r, (Encoder.with_state enc (Snapshot bytes'), free_block p w3)) /\
    Decoder._state (Decoder._withState libopus func (dec, w)).2.1 = Snapshot bytes' /\
    Encoder._state (Encoder._withState libopus func (enc, w)).2.1 = Snapshot bytes' /\
    trace (free_block p w3) = trace w3 ++ [EvFree p] /\
    live (free_block p w3) = delete p (live w3) /\
    (live w3 = live w2 -> live (free_block p w3) = live w).
Proof.
  intros Hdec Henc n p Hfresh.
  pose proof (withState_snapshot libopus bytes func w) as Hrun.
  cbv zeta in Hrun. fold n in Hrun. fold p in Hrun.
  set (w2 := with_heap (heap_set bytes p (HEAPU8 w))
               {| HEAPU8 := HEAPU8 w; live := <[p := n]> (live w);
                  trace := trace w ++ [EvMalloc n p] |}) in *.
  destruct (func p w2) as [r w3] eqn:Hfunc. cbn [fst snd] in Hrun.
  exists w2, w3, r. repeat split.
  - apply heap_slice_set.
  - intros a Ha. by apply heap_set_outside.
  - done.
  - unfold Decoder._withState. by rewrite Hdec, Hrun.
  - unfold Encoder._withState. by rewrite Henc, Hrun.
  - unfold Decoder._withState. by rewrite Hdec, Hrun.
  - unfold Encoder._withState. by rewrite Henc, Hrun.
  - intros Hlive. rewrite live_free_block, Hlive. simpl.
    rewrite delete_insert_eq. by apply delete_id.
Qed.

(** The scheme at work on an operation that writes the state block and
    then fails: the handle holds what the operation wrote. *)
Lemma withState_safe_scoped_block_witness :
  let dec := Decoder.mkDecoder 48000 1 (Snapshot ["000"; "000"; "000"; "000"]%byte) in
  let failing : Z -> M World Z := fun p =>
    HEAPU8_set ["001"; "002"; "003"; "004"]%byte p ;;
    throw (ThrownError "invalid argument") in
  let run := Decoder._withState Toy.engine failing (dec, Toy.world) in
  run.1 = Throw (ThrownError "invalid argument") /\
  Decoder._state run.2.1 = Snapshot ["001"; "002"; "003"; "004"]%byte /\
  live run.2.2 = live Toy.world /\
  trace run.2.2 = [EvMalloc 4 111616; EvFree 111616].
Proof.
  intros dec failing run.
  destruct (withState_safe_scoped_block Toy.engine Z dec
              (Encoder.mkEncoder 48000 1 Encoder.AUDIO (Decoder._state dec))
              ["000"; "000"; "000"; "000"]%byte failing Toy.world
              eq_refl eq_refl ltac:(vm_compute; reflexivity))
    as (w2 & w3 & r & Htrace & Hlive & _ & _ & Hfunc & Hdec & _ & Hstate & _
        & Hfree & _ & Hsame).
  fold run in Hstate.
  pose proof (f_equal snd Hfunc) as Hw3. pose proof (f_equal fst Hfunc) as Hr.
  cbn [failing bind HEAPU8_set throw fst snd] in Hw3, Hr.
  split; [subst run; rewrite Hdec; by rewrite <- Hr|].
  split.
  { rewrite Hstate, <- Hw3. vm_compute. reflexivity. }
  split.
  - subst run. rewrite Hdec. cbn [snd]. apply Hsame.
    rewrite <- Hw3. reflexivity.
  - subst run. rewrite Hdec. cbn [snd]. rewrite Hfree, <- Hw3. cbn [trace with_heap].
    rewrite Htrace. vm_compute. reflexivity.
Defined.

(** ** Computations *)

Lemma bind_pure_l {S A B} (a : A) (k : A -> M S B) s : bind (pure a) k s = k a s.
Proof. reflexivity. Qed.

Lemma bind_assoc {S A B C} (m : M S A) (k : A -> M S B) (k' : B -> M S C) s :
  bind (bind m k) k' s = bind m (fun a => bind (k a) k') s.
Proof. unfold bind. by destruct (m s) as [[a|e] s']. Qed.

Lemma bind_ext {S A B} (m : M S A) (k k' : A -> M S B) s :
  (forall a s', k a s' = k' a s') -> bind m k s = bind m k' s.
Proof. intros Hk. unfold bind. destruct (m s) as [[a|e] s']; [apply Hk | done]. Qed.

(** [withState] sees its operation only through the calls it makes. *)
Lemma withState_ext libopus {A} st (f g : Z -> M World A) w :
  (forall p w', f p w' = g p w') -> withState libopus st f w = withState libopus st g w.
Proof.
  intros Hfg. unfold withState. destruct st as [p|bytes].
  - by rewrite Hfg.
  - destruct (alloc_block _ _ _) as [p w1]. by rewrite Hfg.
Qed.

(** ** [destroy] *)

(** C8. On a Safe-mode handle [destroy()] called any number of times returns
    normally and leaves the handle and the engine as they were; on an
    Unsafe-mode handle one [destroy()] makes one [_free] call, on the
    retained state block, which leaves the live blocks. *)
Theorem destroy_safe_noop_unsafe_frees_once
    (rate channels application : Z) (bytes : list byte) (p : Z) (w : World) (k : nat) :
  let safe_dec := Decoder.mkDecoder rate channels (Snapshot bytes) in
  let safe_enc := Encoder.mkEncoder rate channels application (Snapshot bytes) in
  let unsafe_dec := Decoder.mkDecoder rate channels (Foreign p) in
  let unsafe_enc := Encoder.mkEncoder rate channels application (Foreign p) in
  repeatM k Decoder.destroy (safe_dec, w) = (Ok tt, (safe_dec, w)) /\
  repeatM k Encoder.destroy (safe_enc, w) = (Ok tt, (safe_enc, w)) /\
  Decoder.destroy (unsafe_dec, w) = (Ok tt, (unsafe_dec, free_block p w)) /\
  Encoder.destroy (unsafe_enc, w) = (Ok tt, (unsafe_enc, free_block p w)) /\
  trace (free_block p w) = trace w ++ [EvFree p] /\
  live (free_block p w) = delete p (live w) /\
  HEAPU8 (free_block p w) = HEAPU8 w.
Proof.
  intros safe_dec safe_enc unsafe_dec unsafe_enc.
  repeat split.
  - induction k as [|k IH]; [done|].
    cbn [repeatM]. unfold bind at 1. cbn. exact IH.
  - induction k as [|k IH]; [done|].
    cbn [repeatM]. unfold bind at 1. cbn. exact IH.
Qed.

(** ** Falsy input to the decoder *)

Section DecodeAbsent.

Variable libopus : LibOpus.
Variables p_pcm p_data : Z.

(** A falsy [data] is replaced by the duration reported by the engine
    before [_decode] looks at its type. *)
Lemma _decode_func_falsy self data bps doDecode p_dec w :
  truthy data = false ->
  Decoder._decode_func libopus p_pcm p_data self data bps doDecode p_dec w =
  (let* d := Decoder._getLastPacketDuration libopus p_dec in
   let* res :=
     (if d * bps >? p_data_len
      then throw (ThrownError "too much lost data")
      else doDecode p_dec 0 0 p_pcm d 0) in
   if res <? 0
   then throw (ThrownError (stringifyError libopus res))
   else fun w' => (Ok (heap_slice p_pcm (p_pcm + res * bps) (HEAPU8 w')), w')) w.
Proof.
  intros Hfalsy. unfold Decoder._decode_func. rewrite Hfalsy.
  rewrite bind_assoc. apply bind_ext. intros d w'.
  by rewrite bind_pure_l.
Qed.

Lemma _decode_falsy data bps doDecode s :
  truthy data = false ->
  Decoder._decode libopus p_pcm p_data data bps doDecode s =
  Decoder._withState libopus (fun p_dec =>
    let* d := Decoder._getLastPacketDuration libopus p_dec in
    let* res :=
      (if d * bps >? p_data_len
       then throw (ThrownError "too much lost data")
       else doDecode p_dec 0 0 p_pcm d 0) in
    if res <? 0
    then throw (ThrownError (stringifyError libopus res))
    else fun w' => (Ok (heap_slice p_pcm (p_pcm + res * bps) (HEAPU8 w')), w')) s.
Proof.
  intros Hfalsy. destruct s as [self w].
  unfold Decoder._decode, Decoder._withState.
  erewrite withState_ext; [reflexivity|].
  intros p w'. by apply _decode_func_falsy.
Qed.

End DecodeAbsent.

(** ** Construction *)

Lemma channels_check_rejects channels :
  channels <> 1 -> channels <> 2 -> (channels <? 1) || (channels >? 2) = true.
Proof. intros H1 H2. apply orb_true_iff. lia. Qed.

Lemma channels_check_accepts channels :
  channels = 1 \/ channels = 2 -> (channels <? 1) || (channels >? 2) = false.
Proof. intros H. apply orb_false_iff. lia. Qed.


(** ** Running an operation on a handle *)

Lemma withState_run libopus {A} st (func : Z -> M World A) w :
  let p := op_address libopus st w in
  let run := func p (op_world libopus st w) in
  withState libopus st func w = (run.1, (after_op st p run.2).1, (after_op st p run.2).2).
Proof.
  intros p run. subst p run. unfold withState, op_address, op_world, after_op.
  destruct st as [p|bytes].
  - by destruct (func p w).
  - unfold alloc_block.
    by destruct (func _ _).
Qed.

Lemma trace_op_world libopus st w :
  trace (op_world libopus st w) = trace w ++ enter_events libopus st w.
Proof. destruct st; simpl; [by rewrite app_nil_r | done]. Qed.

Lemma trace_after_op st p w :
  trace (after_op st p w).2 = trace w ++ exit_events st p.
Proof. destruct st; simpl; [by rewrite app_nil_r | done]. Qed.

Lemma live_after_op libopus st w w3 :
  live w !! op_address libopus st w = None ->
  live w3 = live (op_world libopus st w) ->
  live (after_op st (op_address libopus st w) w3).2 = live w.
Proof.
  intros Hfresh Hlive. destruct st as [p|bytes]; simpl in *; [done|].
  rewrite Hlive, delete_insert_eq. by apply delete_id.
Qed.

Lemma codec_calls_enter libopus st w : codec_calls (enter_events libopus st w) = [].
Proof. by destruct st. Qed.

Lemma codec_calls_exit st p : codec_calls (exit_events st p) = [].
Proof. by destruct st. Qed.

Lemma codec_calls_app evs evs' :
  codec_calls (evs ++ evs') = codec_calls evs ++ codec_calls evs'.
Proof. apply filter_app. Qed.

(** The snapshot of a Safe-mode handle survives an operation that leaves
    the state block alone. *)
Lemma after_op_snapshot_unchanged libopus bytes w w3 :
  let p := op_address libopus (Snapshot bytes) w in
  (forall a, HEAPU8 w3 a = HEAPU8 (op_world libopus (Snapshot bytes) w) a) ->
  (after_op (Snapshot bytes) p w3).1 = Snapshot bytes.
Proof.
  intros p Hheap. simpl. f_equal.
  unfold heap_slice. rewrite (heap_read_ext _ _ _ _ Hheap).
  apply (heap_slice_set bytes p (HEAPU8 w)).
Qed.

(** ** Decoding *)

Section Decode.

Variable libopus : LibOpus.
Variables p_pcm p_data : Z.

(** [_opus_decode] and [_opus_decode_float] are the same wrapper around
    two engine entries. *)
Variable float : bool.
Variable f : Heap -> Z -> Z -> Z -> Z -> Z -> Z -> Z * Heap.

Let doDecode (st data len pcm frame_size decode_fec : Z) : M World Z :=
  engine_call (fun h => f h st data len pcm frame_size decode_fec)
              (EvDecode float st data len pcm frame_size decode_fec).

(** A packet that fits the packet scratch region. *)
Lemma _decode_func_packet self b bps p_dec w :
  buf_length b <= p_data_len ->
  let heap2 := heap_set (buf_bytes b) p_data (HEAPU8 w) in
  let maxFrameSize := p_pcm_len / Decoder._channels self / bps in
  let r := f heap2 p_dec p_data (buf_length b) p_pcm maxFrameSize 0 in
  Decoder._decode_func libopus p_pcm p_data self (VBuffer b) bps doDecode p_dec w =
    (if r.1 <? 0
     then Throw (ThrownError (stringifyError libopus r.1))
     else Ok (heap_slice p_pcm (p_pcm + r.1 * bps) r.2),
     log (EvDecode float p_dec p_data (buf_length b) p_pcm maxFrameSize 0 r.1)
       (with_heap r.2 w)).
Proof.
  intros Hlen heap2 maxFrameSize r.
  unfold Decoder._decode_func. cbn [truthy].
  rewrite bind_pure_l.
  replace (buf_length b >? p_data_len) with false by lia.
  unfold bind, HEAPU8_set, doDecode, engine_call. cbn [HEAPU8 with_heap].
  fold heap2. fold maxFrameSize. fold r.
  destruct r as [n heap3]. cbn [fst snd].
  by destruct (n <? 0).
Qed.

(** A packet that does not fit. *)
Lemma _decode_func_packet_too_large self b bps p_dec w :
  buf_length b > p_data_len ->
  Decoder._decode_func libopus p_pcm p_data self (VBuffer b) bps doDecode p_dec w =
    (Throw (ThrownError "data array too large"), w).
Proof.
  intros Hlen. unfold Decoder._decode_func. cbn [truthy].
  rewrite bind_pure_l.
  by replace (buf_length b >? p_data_len) with true by lia.
Qed.

(** A non-zero count of lost samples. *)
Lemma _decode_func_lost self n bps p_dec w :
  n <> 0 ->
  n * bps <= p_data_len ->
  let r := f (HEAPU8 w) p_dec 0 0 p_pcm n 0 in
  Decoder._decode_func libopus p_pcm p_data self (VNumber n) bps doDecode p_dec w =
    (if r.1 <? 0
     then Throw (ThrownError (stringifyError libopus r.1))
     else Ok (heap_slice p_pcm (p_pcm + r.1 * bps) r.2),
     log (EvDecode float p_dec 0 0 p_pcm n 0 r.1) (with_heap r.2 w)).
Proof.
  intros Hn Hlen r.
  unfold Decoder._decode_func. cbn [truthy].
  replace (n =? 0) with false by lia. cbn [negb].
  rewrite bind_pure_l.
  replace (n * bps >? p_data_len) with false by lia.
  unfold bind, doDecode, engine_call.
  fold r. destruct r as [res heap']. cbn [fst snd].
  by destruct (res <? 0).
Qed.

Lemma _decode_func_lost_too_much self n bps p_dec w :
  n <> 0 ->
  n * bps > p_data_len ->
  Decoder._decode_func libopus p_pcm p_data self (VNumber n) bps doDecode p_dec w =
    (Throw (ThrownError "too much lost data"), w).
Proof.
  intros Hn Hlen. unfold Decoder._decode_func. cbn [truthy].
  replace (n =? 0) with false by lia. cbn [negb].
  rewrite bind_pure_l.
  by replace (n * bps >? p_data_len) with true by lia.
Qed.

(** [_decode] is its function run where the handle's state lives. *)
Lemma _decode_run self data bps w :
  let st := Decoder._state self in
  let p_dec := op_address libopus st w in
  let run := Decoder._decode_func libopus p_pcm p_data self data bps doDecode p_dec
               (op_world libopus st w) in
  Decoder._decode libopus p_pcm p_data data bps doDecode (self, w) =
    (run.1, (Decoder.with_state self (after_op st p_dec run.2).1,
             (after_op st p_dec run.2).2)).
Proof.
  intros st p_dec run. unfold Decoder._decode, Decoder._withState.
  by rewrite withState_run.
Qed.

End Decode.

Lemma new_TypedArray_slice {S} t b n heap (s : S) :
  0 <= n ->
  new_TypedArray t (heap_slice b (b + n * BYTES_PER_ELEMENT t) heap) s =
    (Ok (mkTypedArray t (heap_slice b (b + n * BYTES_PER_ELEMENT t) heap)), s).
Proof.
  intros Hn. unfold new_TypedArray. rewrite heap_slice_length.
  replace (b + n * BYTES_PER_ELEMENT t - b) with (n * BYTES_PER_ELEMENT t) by lia.
  rewrite Z2Nat.id by (destruct t; simpl; lia).
  by rewrite Z.mod_mul by (destruct t; done).
Qed.

Lemma ta_length_slice t b n heap :
  0 <= n ->
  ta_length (mkTypedArray t (heap_slice b (b + n * BYTES_PER_ELEMENT t) heap)) = n.
Proof.
  intros Hn. unfold ta_length. cbn [ta_bytes ta_type]. rewrite heap_slice_length.
  replace (b + n * BYTES_PER_ELEMENT t - b) with (n * BYTES_PER_ELEMENT t) by lia.
  rewrite Z2Nat.id by (destruct t; simpl; lia).
  apply Z.div_mul. by destruct t.
Qed.

(** ** The decode methods *)

Section DecodeMethods.

Variable libopus : LibOpus.
Variables p_pcm p_data : Z.
Variable ty : SampleType.

Let bps := BYTES_PER_ELEMENT ty.
Let decode := Decoder.decode_method libopus p_pcm p_data ty.

Lemma decode_method_unfold data s :
  decode data s =
  bind (Decoder._decode libopus p_pcm p_data data bps
          (fun st data len pcm frame_size decode_fec =>
             engine_call
               (fun h => Decoder.engine_decode libopus ty h st data len pcm frame_size decode_fec)
               (EvDecode (is_float ty) st data len pcm frame_size decode_fec)))
       (new_TypedArray ty) s.
Proof. subst decode bps. by destruct ty. Qed.

Lemma with_state_same (dec : Decoder.t) : Decoder.with_state dec (Decoder._state dec) = dec.
Proof. by destruct dec. Qed.

(** The handle and the live blocks after an operation that changed neither
    the state block nor the allocator. *)
Lemma after_untouched_op dec w :
  let st := Decoder._state dec in
  let p_dec := op_address libopus st w in
  Decoder.with_state dec (after_op st p_dec (op_world libopus st w)).1 = dec.
Proof.
  intros st p_dec. subst p_dec.
  destruct dec as [rate channels [p|bytes]]; [done|].
  unfold Decoder.with_state. cbn [Decoder._rate Decoder._channels Decoder._state] in *.
  f_equal. subst st. by apply after_op_snapshot_unchanged.
Qed.

(** A packet that fits: the engine decodes it, and its return value decides
    between an error and the bytes read back. *)
Lemma decode_method_packet dec w b :
  buf_length b <= p_data_len ->
  let st := Decoder._state dec in
  let p_dec := op_address libopus st w in
  let w1 := op_world libopus st w in
  let heap2 := heap_set (buf_bytes b) p_data (HEAPU8 w1) in
  let maxFrameSize := p_pcm_len / Decoder._channels dec / bps in
  let r := Decoder.engine_decode libopus ty heap2 p_dec p_data (buf_length b) p_pcm
             maxFrameSize 0 in
  let w3 := log (EvDecode (is_float ty) p_dec p_data (buf_length b) p_pcm maxFrameSize 0 r.1)
              (with_heap r.2 w1) in
  decode (VBuffer b) (dec, w) =
    (if r.1 <? 0
     then Throw (ThrownError (stringifyError libopus r.1))
     else Ok (mkTypedArray ty (heap_slice p_pcm (p_pcm + r.1 * bps) r.2)),
     (Decoder.with_state dec (after_op st p_dec w3).1, (after_op st p_dec w3).2)).
Proof.
  intros Hlen st p_dec w1 heap2 maxFrameSize r w3.
  rewrite decode_method_unfold. unfold bind at 1.
  pose proof (_decode_run libopus p_pcm p_data (is_float ty)
                (Decoder.engine_decode libopus ty) dec (VBuffer b) bps w) as Hrun.
  pose proof (_decode_func_packet libopus p_pcm p_data (is_float ty)
                (Decoder.engine_decode libopus ty) dec b bps p_dec w1 Hlen) as Hfunc.
  cbv zeta in Hrun, Hfunc. fold st p_dec w1 in Hrun.
  fold heap2 maxFrameSize in Hfunc. fold r in Hfunc. fold w3 in Hfunc.
  rewrite Hfunc in Hrun. cbn [fst snd] in Hrun. rewrite Hrun.
  destruct (r.1 <? 0) eqn:Hneg; [done|].
  apply new_TypedArray_slice. lia.
Qed.

(** A non-zero count of lost samples within the bound that [_decode]
    checks: the engine is asked to conceal that many samples. *)
Lemma decode_method_lost dec w n :
  n <> 0 ->
  n * bps <= p_data_len ->
  let st := Decoder._state dec in
  let p_dec := op_address libopus st w in
  let w1 := op_world libopus st w in
  let r := Decoder.engine_decode libopus ty (HEAPU8 w1) p_dec 0 0 p_pcm n 0 in
  let w3 := log (EvDecode (is_float ty) p_dec 0 0 p_pcm n 0 r.1) (with_heap r.2 w1) in
  decode (VNumber n) (dec, w) =
    (if r.1 <? 0
     then Throw (ThrownError (stringifyError libopus r.1))
     else Ok (mkTypedArray ty (heap_slice p_pcm (p_pcm + r.1 * bps) r.2)),
     (Decoder.with_state dec (after_op st p_dec w3).1, (after_op st p_dec w3).2)).
Proof.
  intros Hn Hlen st p_dec w1 r w3.
  rewrite decode_method_unfold. unfold bind at 1.
  pose proof (_decode_run libopus p_pcm p_data (is_float ty)
                (Decoder.engine_decode libopus ty) dec (VNumber n) bps w) as Hrun.
  pose proof (_decode_func_lost libopus p_pcm p_data (is_float ty)
                (Decoder.engine_decode libopus ty) dec n bps p_dec w1 Hn Hlen) as Hfunc.
  cbv zeta in Hrun, Hfunc. fold st p_dec w1 in Hrun.
  fold r in Hfunc. fold w3 in Hfunc.
  rewrite Hfunc in Hrun. cbn [fst snd] in Hrun. rewrite Hrun.
  destruct (r.1 <? 0) eqn:Hneg; [done|].
  apply new_TypedArray_slice. lia.
Qed.

(** The two size errors: thrown before the engine is called, with the
    handle as it was; a Safe-mode handle has loaded and released its
    scratch block around the throw. *)
Lemma decode_method_packet_too_large dec w b :
  buf_length b > p_data_len ->
  let st := Decoder._state dec in
  let p_dec := op_address libopus st w in
  decode (VBuffer b) (dec, w) =
    (Throw (ThrownError "data array too large"),
     (dec, (after_op st p_dec (op_world libopus st w)).2)).
Proof.
  intros Hlen st p_dec.
  rewrite decode_method_unfold. unfold bind at 1.
  pose proof (_decode_run libopus p_pcm p_data (is_float ty)
                (Decoder.engine_decode libopus ty) dec (VBuffer b) bps w) as Hrun.
  cbv zeta in Hrun. fold st p_dec in Hrun.
  rewrite _decode_func_packet_too_large in Hrun by done.
  cbn [fst snd] in Hrun. rewrite Hrun.
  subst st p_dec. by rewrite after_untouched_op.
Qed.

Lemma decode_method_lost_too_much dec w n :
  n <> 0 ->
  n * bps > p_data_len ->
  let st := Decoder._state dec in
  let p_dec := op_address libopus st w in
  decode (VNumber n) (dec, w) =
    (Throw (ThrownError "too much lost data"),
     (dec, (after_op st p_dec (op_world libopus st w)).2)).
Proof.
  intros Hn Hlen st p_dec.
  rewrite decode_method_unfold. unfold bind at 1.
  pose proof (_decode_run libopus p_pcm p_data (is_float ty)
                (Decoder.engine_decode libopus ty) dec (VNumber n) bps w) as Hrun.
  cbv zeta in Hrun. fold st p_dec in Hrun.
  rewrite _decode_func_lost_too_much in Hrun by done.
  cbn [fst snd] in Hrun. rewrite Hrun.
  subst st p_dec. by rewrite after_untouched_op.
Qed.

End DecodeMethods.

(** What a call that loaded the state and threw at once leaves behind. *)
Lemma untouched_world libopus st w :
  let w' := (after_op st (op_address libopus st w) (op_world libopus st w)).2 in
  trace w' = trace w ++ enter_events libopus st w
               ++ exit_events st (op_address libopus st w) /\
  codec_calls (enter_events libopus st w ++ exit_events st (op_address libopus st w)) = [] /\
  (live w !! op_address libopus st w = None -> live w' = live w) /\
  (is_foreign st = true -> w' = w).
Proof.
  intros w'. subst w'. repeat split.
  - by rewrite trace_after_op, trace_op_world, app_assoc.
  - by rewrite codec_calls_app, codec_calls_enter, codec_calls_exit.
  - intros Hfresh. by apply live_after_op.
  - by destruct st.
Qed.

(** C6. A Buffer no longer than the packet scratch region is written into
    that region ([heap2] holds it at [p_data]); the engine's decode is
    called on it with the output cap
    [maxFrameSize = p_pcm_len / channels / sampleWidth] (an exact quotient);
    and when the engine returns [n >= 0] the call returns the first
    [n * sampleWidth] bytes of the PCM scratch region as a typed array of
    [n] samples ([Int16Array] for [decodeInt16], width 2; [Float32Array] for
    [decodeFloat32], width 4).  [p_dec] and [w1] are the address and the
    world in which the handle's state is loaded. *)
Theorem decode_packet_reads_back
    (libopus : LibOpus) (p_pcm p_data : Z) (ty : SampleType)
    (dec : Decoder.t) (w : World) (b : Buffer) :
  buf_length b <= p_data_len ->
  Decoder._channels dec = 1 \/ Decoder._channels dec = 2 ->
  let sampleWidth := BYTES_PER_ELEMENT ty in
  let st := Decoder._state dec in
  let p_dec := op_address libopus st w in
  let w1 := op_world libopus st w in
  let heap2 := heap_set (buf_bytes b) p_data (HEAPU8 w1) in
  let maxFrameSize := p_pcm_len / Decoder._channels dec / sampleWidth in
  let r := Decoder.engine_decode libopus ty heap2 p_dec p_data (buf_length b) p_pcm
             maxFrameSize 0 in
  let n := r.1 in
  let samples := mkTypedArray ty (heap_slice p_pcm (p_pcm + n * sampleWidth) r.2) in
  heap_slice p_data (p_data + buf_length b) heap2 = buf_bytes b /\
  maxFrameSize * Decoder._channels dec * sampleWidth = p_pcm_len /\
  (0 <= n ->
   exists s' evs,
     Decoder.decode_method libopus p_pcm p_data ty (VBuffer b) (dec, w) = (Ok samples, s') /\
     ta_length samples = n /\
     trace s'.2 = trace w ++ evs /\
     codec_calls evs =
       [EvDecode (is_float ty) p_dec p_data (buf_length b) p_pcm maxFrameSize 0 n]).
Proof.
  intros Hlen Hch sampleWidth st p_dec w1 heap2 maxFrameSize r n samples.
  split; [apply heap_slice_set|].
  split; [subst maxFrameSize sampleWidth; destruct Hch as [-> | ->], ty; reflexivity|].
  intros Hn.
  pose proof (decode_method_packet libopus p_pcm p_data ty dec w b Hlen) as Hrun.
  cbv zeta in Hrun. fold sampleWidth st p_dec w1 in Hrun.
  fold heap2 in Hrun. fold maxFrameSize in Hrun. fold r in Hrun. fold n in Hrun.
  replace (n <? 0) with false in Hrun by lia. fold samples in Hrun.
  eexists _, _. split; [exact Hrun|].
  split; [by apply ta_length_slice|].
  cbn [snd]. rewrite trace_after_op. cbn [trace log with_heap].
  fold w1. unfold w1 at 1. rewrite trace_op_world.
  rewrite <- !app_assoc. split; [reflexivity|].
  rewrite !codec_calls_app, codec_calls_enter, codec_calls_exit. reflexivity.
Qed.

(** A stereo Safe-mode decoder given the packet of a 20-sample frame. *)
Lemma decode_packet_reads_back_witness :
  exists samples s',
    Decoder.decodeInt16 Toy.engine Toy.p_pcm Toy.p_data
      (VBuffer (mkBuffer ["020"; "000"]%byte 0)) (Toy.new_decoder 2 false)
      = (Ok samples, s') /\
    ta_length samples = 20.
Proof.
  destruct (decode_packet_reads_back Toy.engine Toy.p_pcm Toy.p_data Int16
              (Toy.new_decoder 2 false).1 (Toy.new_decoder 2 false).2
              (mkBuffer ["020"; "000"]%byte 0)
              ltac:(vm_compute; discriminate) ltac:(right; reflexivity))
    as (_ & _ & Hdecode).
  destruct (Hdecode ltac:(vm_compute; discriminate)) as (s' & evs & Hrun & Hlen & _).
  eexists _, s'. split; [exact Hrun|].
  rewrite Hlen. vm_compute. reflexivity.
Defined.

(** ** Encoding *)

Section EncodeMethod.

Variable libopus : LibOpus.
Variables p_pcm p_data : Z.

Lemma enc_with_state_same (enc : Encoder.t) :
  Encoder.with_state enc (Encoder._state enc) = enc.
Proof. by destruct enc. Qed.

Lemma enc_after_untouched_op enc w :
  let st := Encoder._state enc in
  Encoder.with_state enc (after_op st (op_address libopus st w) (op_world libopus st w)).1
  = enc.
Proof.
  intros st.
  destruct enc as [rate channels application [p|bytes]]; [done|].
  unfold Encoder.with_state.
  cbn [Encoder._rate Encoder._channels Encoder._application Encoder._state] in *.
  f_equal. subst st. by apply after_op_snapshot_unchanged.
Qed.

Lemma encode_run pcm enc w :
  let st := Encoder._state enc in
  let p_enc := op_address libopus st w in
  let run := Encoder.encode_func libopus p_pcm p_data (VTyped pcm) (ta_length pcm)
               (ta_length pcm / Encoder._channels enc) p_enc (op_world libopus st w) in
  Encoder.encode libopus p_pcm p_data (VTyped pcm) (enc, w) =
    (run.1, (Encoder.with_state enc (after_op st p_enc run.2).1,
             (after_op st p_enc run.2).2)).
Proof.
  intros st p_enc run. unfold Encoder.encode. cbn [get_length].
  rewrite bind_pure_l. unfold Encoder._withState.
  by rewrite withState_run.
Qed.

(** A typed array that fits the PCM scratch region is copied there and
    handed to the engine with [pcm.length / channels] as its frame size. *)
Lemma encode_typed pcm enc w :
  let width := BYTES_PER_ELEMENT (ta_type pcm) in
  ta_length pcm * width <= p_pcm_len ->
  let st := Encoder._state enc in
  let p_enc := op_address libopus st w in
  let w1 := op_world libopus st w in
  let heap2 := heap_set (ta_bytes pcm) (pcm_view_address (ta_type pcm) p_pcm) (HEAPU8 w1) in
  let samples := ta_length pcm / Encoder._channels enc in
  let r := Encoder.engine_encode libopus (ta_type pcm) heap2 p_enc p_pcm samples p_data
             p_data_len in
  let w3 := log (EvEncode (is_float (ta_type pcm)) p_enc p_pcm samples p_data p_data_len r.1)
              (with_heap r.2 w1) in
  Encoder.encode libopus p_pcm p_data (VTyped pcm) (enc, w) =
    (if r.1 <? 0
     then Throw (ThrownError (stringifyError libopus r.1))
     else Ok (mkBuffer (heap_slice p_data (p_data + r.1) r.2) 0),
     (Encoder.with_state enc (after_op st p_enc w3).1, (after_op st p_enc w3).2)).
Proof.
  intros width Hlen st p_enc w1 heap2 samples r w3.
  rewrite encode_run. cbv zeta. fold st p_enc w1 samples.
  unfold Encoder.encode_func.
  destruct pcm as [ty bytes]. cbn [ta_type] in *.
  destruct ty; cbn [BYTES_PER_ELEMENT] in width; subst width.
  - replace (ta_length {| ta_type := Int16; ta_bytes := bytes |} * 2 >? p_pcm_len)
      with false by lia.
    subst w3 r heap2.
    cbn [pcm_view_address Encoder.engine_encode ta_type ta_bytes is_float].
    unfold bind, HEAPU8_set, pure, _opus_encode, engine_call.
    cbn [HEAPU8 with_heap live trace].
    destruct (opus_encode libopus _ _ _ _ _ _) as [len heap3]. cbn [fst snd].
    by destruct (len <? 0).
  - replace (ta_length {| ta_type := Float32; ta_bytes := bytes |} * 4 >? p_pcm_len)
      with false by lia.
    subst w3 r heap2.
    cbn [pcm_view_address Encoder.engine_encode ta_type ta_bytes is_float].
    unfold bind, HEAPU8_set, pure, _opus_encode_float, engine_call.
    cbn [HEAPU8 with_heap live trace].
    destruct (opus_encode_float libopus _ _ _ _ _ _) as [len heap3]. cbn [fst snd].
    by destruct (len <? 0).
Qed.

(** A typed array that does not fit. *)
Lemma encode_too_large pcm enc w :
  ta_length pcm * BYTES_PER_ELEMENT (ta_type pcm) > p_pcm_len ->
  Encoder.encode libopus p_pcm p_data (VTyped pcm) (enc, w) =
    (Throw (ThrownError "pcm array too large"),
     (enc, released_world libopus (Encoder._state enc) w)).
Proof.
  intros Hlen. rewrite encode_run. cbv zeta.
  unfold Encoder.encode_func, released_world.
  destruct pcm as [ty bytes]. cbn [ta_type] in *.
  destruct ty; cbn [BYTES_PER_ELEMENT] in Hlen.
  - replace (ta_length {| ta_type := Int16; ta_bytes := bytes |} * 2 >? p_pcm_len)
      with true by lia.
    unfold bind, throw. cbn [fst snd]. by rewrite enc_after_untouched_op.
  - replace (ta_length {| ta_type := Float32; ta_bytes := bytes |} * 4 >? p_pcm_len)
      with true by lia.
    unfold bind, throw. cbn [fst snd]. by rewrite enc_after_untouched_op.
Qed.

End EncodeMethod.

(** ** Input sizes and lost samples *)

Lemma new_events_app before after evs :
  trace after = trace before ++ evs -> new_events before after = evs.
Proof. intros Htrace. unfold new_events. by rewrite Htrace, drop_app_length. Qed.

Lemma new_events_released libopus st w :
  new_events w (released_world libopus st w)
  = enter_events libopus st w ++ exit_events st (op_address libopus st w).
Proof. apply new_events_app. apply untouched_world. Qed.

Lemma scratch_capacities : p_pcm_len = 46080 /\ p_data_len = 61440.
Proof. split; reflexivity. Qed.

(** C5, on the code.  An [encode] call whose typed array has more bytes
    (element count times element width) than the PCM scratch region, and a
    decode call whose Buffer has more bytes than the packet scratch region,
    throw the size error and leave the handle, its Safe-mode snapshot
    included, as it was, with no codec call: the world after the call,
    [released_world], differs from the world before it only by the
    [_malloc] and [_free] of the scratch block of a Safe-mode handle.  A
    count of lost samples is treated otherwise.  Its samples go to the PCM
    scratch region, of [p_pcm_len] = 46080 bytes, but [_decode] compares
    count x width with [p_data_len] = 61440, the capacity of the packet
    region.  A count whose bytes exceed the PCM region and not the packet
    region is not refused: the engine's decode is called, asked for that
    many samples at the PCM region, its return value decides the result, and
    the state of the handle after the call is what the engine made of it (in
    Safe mode, the snapshot of the state block as the engine left it).  Only
    a count above the capacity of the packet region is refused. *)
Theorem oversized_lost_count_reaches_engine
    (libopus : LibOpus) (p_pcm p_data : Z)
    (enc : Encoder.t) (dec : Decoder.t) (ty : SampleType)
    (pcm : TypedArray) (b : Buffer) (n : Z) (w : World) :
  let width := BYTES_PER_ELEMENT ty in
  let st := Decoder._state dec in
  let p_dec := op_address libopus st w in
  let w1 := op_world libopus st w in
  let r := Decoder.engine_decode libopus ty (HEAPU8 w1) p_dec 0 0 p_pcm n 0 in
  let lost := Decoder.decode_method libopus p_pcm p_data ty (VNumber n) (dec, w) in
  (ta_length pcm * BYTES_PER_ELEMENT (ta_type pcm) > p_pcm_len ->
   Encoder.encode libopus p_pcm p_data (VTyped pcm) (enc, w) =
     (Throw (ThrownError "pcm array too large"),
      (enc, released_world libopus (Encoder._state enc) w))) /\
  (buf_length b > p_data_len ->
   Decoder.decode_method libopus p_pcm p_data ty (VBuffer b) (dec, w) =
     (Throw (ThrownError "data array too large"),
      (dec, released_world libopus (Decoder._state dec) w))) /\
  (p_pcm_len < n * width <= p_data_len ->
   lost.1 = (if r.1 <? 0
             then Throw (ThrownError (stringifyError libopus r.1))
             else Ok (mkTypedArray ty (heap_slice p_pcm (p_pcm + r.1 * width) r.2))) /\
   codec_calls (new_events w lost.2.2) = [EvDecode (is_float ty) p_dec 0 0 p_pcm n 0 r.1] /\
   (forall p, st = Foreign p -> Decoder._state lost.2.1 = Foreign p) /\
   (forall bytes, st = Snapshot bytes ->
      Decoder._state lost.2.1
      = Snapshot (heap_slice p_dec (p_dec + Z.of_nat (length bytes)) r.2))) /\
  (n * width > p_data_len ->
   lost = (Throw (ThrownError "too much lost data"),
           (dec, released_world libopus (Decoder._state dec) w))) /\
  p_pcm_len < p_data_len /\
  (forall st : CodecState,
     let w' := released_world libopus st w in
     let evs := enter_events libopus st w ++ exit_events st (op_address libopus st w) in
     trace w' = trace w ++ evs /\
     codec_calls evs = [] /\
     (live w !! op_address libopus st w = None -> live w' = live w) /\
     (is_foreign st = true -> w' = w)).
Proof.
  intros width st p_dec w1 r lost.
  split; [intros Hlen; by apply encode_too_large|].
  split; [intros Hlen; by apply decode_method_packet_too_large|].
  split; [|split; [|split; [reflexivity|]]].
  - intros [Hover Hlen].
    assert (Hn : n <> 0).
    { intros ->. unfold p_pcm_len in Hover. simpl in Hover. lia. }
    pose proof (decode_method_lost libopus p_pcm p_data ty dec w n Hn Hlen) as Hrun.
    cbv zeta in Hrun. fold st p_dec w1 r lost in Hrun.
    rewrite Hrun. cbn [fst snd]. split; [reflexivity|]. split.
    { erewrite new_events_app.
      2:{ rewrite trace_after_op. cbn [trace log with_heap].
          unfold w1. rewrite trace_op_world, <- !app_assoc. reflexivity. }
      by rewrite !codec_calls_app, codec_calls_enter, codec_calls_exit. }
    split.
    + intros p Hst. by rewrite Hst.
    + intros bytes Hst. by rewrite Hst.
  - intros Hlen. apply decode_method_lost_too_much; [|done].
    intros ->. destruct ty; unfold p_data_len in Hlen; simpl in Hlen; lia.
  - intros st'. apply untouched_world.
Qed.

(** 12000 lost samples of four bytes are 48000 bytes, more than the 46080
    of the PCM region: on a Safe-mode decoder the call conceals 12000
    samples and the snapshot goes from a last duration of 0 to one of 12000.
    One sample too many for [encode] and 20000 lost samples are refused. *)
Lemma oversized_lost_count_reaches_engine_witness :
  let s := Toy.new_decoder 1 false in
  let enc := (Toy.new_encoder 1 false).1 in
  let pcm := mkTypedArray Float32 (repeat "000"%byte (Z.to_nat (p_pcm_len + 4))) in
  let run := Decoder.decode_method Toy.engine Toy.p_pcm Toy.p_data Float32 (VNumber 12000)
               (s.1, s.2) in
  12000 * BYTES_PER_ELEMENT Float32 > p_pcm_len /\
  (exists out, run.1 = Ok out /\ ta_length out = 12000) /\
  codec_calls (new_events s.2 run.2.2) = [EvDecode true 111616 0 0 Toy.p_pcm 12000 0 12000] /\
  Decoder._state s.1 = Snapshot ["000"; "000"; "000"; "000"]%byte /\
  Decoder._state run.2.1 = Snapshot ["224"; "046"; "000"; "000"]%byte /\
  Encoder.encode Toy.engine Toy.p_pcm Toy.p_data (VTyped pcm) (enc, s.2)
    = (Throw (ThrownError "pcm array too large"),
       (enc, released_world Toy.engine (Encoder._state enc) s.2)) /\
  Decoder.decode_method Toy.engine Toy.p_pcm Toy.p_data Float32 (VNumber 20000) (s.1, s.2)
    = (Throw (ThrownError "too much lost data"),
       (s.1, released_world Toy.engine (Decoder._state s.1) s.2)).
Proof.
  intros s enc pcm run.
  destruct (oversized_lost_count_reaches_engine Toy.engine Toy.p_pcm Toy.p_data
              enc s.1 Float32 pcm (mkBuffer [] 0) 12000 s.2)
    as (Hencode & _ & Hgap & _).
  destruct (oversized_lost_count_reaches_engine Toy.engine Toy.p_pcm Toy.p_data
              enc s.1 Float32 pcm (mkBuffer [] 0) 20000 s.2)
    as (_ & _ & _ & Hrefused & _).
  destruct Hgap as (Hresult & Hcalls & _ & Hsnapshot); [vm_compute; by split|].
  fold run in Hresult, Hcalls, Hsnapshot.
  split; [vm_compute; reflexivity|].
  split.
  { match type of Hresult with
    | _ = (if ?c then _ else _) =>
        replace c with false in Hresult by (vm_compute; reflexivity)
    end.
    eexists. split; [exact Hresult|].
    match goal with
    | |- ta_length (mkTypedArray _ (heap_slice _ (_ + ?n * _) _)) = _ =>
        replace n with 12000 by (vm_compute; reflexivity)
    end.
    by apply ta_length_slice. }
  split; [rewrite Hcalls; vm_compute; reflexivity|].
  split; [vm_compute; reflexivity|].
  split.
  { rewrite (Hsnapshot ["000"; "000"; "000"; "000"]%byte) by (vm_compute; reflexivity).
    vm_compute. reflexivity. }
  split; [apply Hencode; vm_compute; reflexivity|].
  apply Hrefused. vm_compute. reflexivity.
Defined.

(** C2, as amended. For a sample width of 2 ([decodeInt16]) or 4
    ([decodeFloat32]) and a count of lost samples other than 0: when
    count x width exceeds the capacity of the packet region (61440, which is
    above the 46080 of the PCM region) the call is rejected with the size
    error "too much lost data" before any engine call; when count x width
    does not exceed the capacity of the PCM region the call is not rejected
    and the engine's decode is called once, with a null packet pointer, a
    zero length and the count as the frame size, its return value deciding
    the result.  The count 0 is taken as an absent input. *)
Theorem lost_count_checked_then_concealed
    (libopus : LibOpus) (p_pcm p_data : Z) (ty : SampleType)
    (dec : Decoder.t) (w : World) (count : Z) :
  let width := BYTES_PER_ELEMENT ty in
  let decode := Decoder.decode_method libopus p_pcm p_data ty in
  let run := decode (VNumber count) (dec, w) in
  let p_dec := op_address libopus (Decoder._state dec) w in
  p_pcm_len < p_data_len /\
  (count <> 0 -> count * width > p_data_len ->
   run = (Throw (ThrownError "too much lost data"),
          (dec, released_world libopus (Decoder._state dec) w))
   /\ rejected_for_size w run) /\
  (count <> 0 -> count * width <= p_pcm_len ->
   exists res heap',
     codec_calls (new_events w run.2.2)
       = [EvDecode (is_float ty) p_dec 0 0 p_pcm count 0 res] /\
     run.1 = if res <? 0
             then Throw (ThrownError (stringifyError libopus res))
             else Ok (mkTypedArray ty (heap_slice p_pcm (p_pcm + res * width) heap'))) /\
  decode (VNumber 0) (dec, w) = decode VUndefined (dec, w).
Proof.
  intros width decode run p_dec.
  split; [reflexivity|]. split; [|split].
  - intros Hcount Hlen.
    assert (Hrun : run = (Throw (ThrownError "too much lost data"),
                          (dec, released_world libopus (Decoder._state dec) w)))
      by (by apply decode_method_lost_too_much).
    split; [done|]. rewrite Hrun. split; [by eexists|].
    cbn [snd]. rewrite new_events_released.
    by rewrite codec_calls_app, codec_calls_enter, codec_calls_exit.
  - intros Hcount Hlen.
    assert (Hfits : count * width <= p_data_len)
      by (destruct scratch_capacities as [Hpcm Hdata]; lia).
    pose proof (decode_method_lost libopus p_pcm p_data ty dec w count Hcount Hfits) as Hrun.
    cbv zeta in Hrun. fold decode run p_dec width in Hrun.
    eexists _, _. rewrite Hrun. cbn [fst snd]. split; [|reflexivity].
    erewrite new_events_app.
    2:{ rewrite trace_after_op. cbn [trace log with_heap].
        rewrite trace_op_world, <- !app_assoc. reflexivity. }
    rewrite !codec_calls_app, codec_calls_enter, codec_calls_exit. reflexivity.
  - subst decode. by destruct ty.
Qed.

(** 960 lost samples are concealed, 40000 are refused. *)
Lemma lost_count_checked_then_concealed_witness :
  let s := Toy.new_decoder 1 false in
  rejected_for_size s.2
    (Decoder.decode_method Toy.engine Toy.p_pcm Toy.p_data Int16 (VNumber 40000) (s.1, s.2))
  /\ exists res,
       codec_calls (new_events s.2
         (Decoder.decode_method Toy.engine Toy.p_pcm Toy.p_data Int16 (VNumber 960)
            (s.1, s.2)).2.2)
       = [EvDecode false 111616 0 0 Toy.p_pcm 960 0 res].
Proof.
  intros s. split.
  - destruct (lost_count_checked_then_concealed Toy.engine Toy.p_pcm Toy.p_data Int16
                s.1 s.2 40000) as (_ & Hreject & _).
    apply Hreject; [discriminate|]. vm_compute. reflexivity.
  - destruct (lost_count_checked_then_concealed Toy.engine Toy.p_pcm Toy.p_data Int16
                s.1 s.2 960) as (_ & _ & Hconceal & _).
    destruct Hconceal as (res & heap' & Hcalls & _);
      [discriminate | vm_compute; discriminate |].
    exists res. exact Hcalls.
Defined.

(** C2, as stated, fails in two places.  A count of 12000 four-byte samples
    exceeds the PCM capacity (48000 > 46080) and is not rejected: the engine
    is asked to conceal 12000 samples.  A count of 0 does not exceed it, and
    after a 960-sample frame the engine is asked to conceal 960 samples, not
    0. *)
Lemma lost_count_as_specified_fails :
  let dec := (Toy.new_decoder 1 false).1 in
  let w := (Toy.new_decoder 1 false).2 in
  ~ lost_count_as_specified Toy.engine Toy.p_pcm Toy.p_data Float32 (dec, w) 12000 /\
  ~ lost_count_as_specified Toy.engine Toy.p_pcm Toy.p_data Int16
      (Decoder.decode_method Toy.engine Toy.p_pcm Toy.p_data Int16 (VNumber 960) (dec, w)).2 0.
Proof.
  intros dec w. split.
  - intros [[_ Hreject] _].
    destruct Hreject as [[message Hthrown] _]; [vm_compute; reflexivity|].
    rewrite (decode_method_lost Toy.engine Toy.p_pcm Toy.p_data Float32 dec w 12000)
      in Hthrown; [|discriminate|vm_compute; discriminate].
    cbn [fst] in Hthrown.
    match type of Hthrown with
    | (if ?c then _ else _) = _ => replace c with false in Hthrown by (vm_compute; reflexivity)
    end.
    discriminate.
  - intros [_ Hconceal].
    destruct Hconceal as (e & Hcalls & He); [vm_compute; discriminate|].
    vm_compute in Hcalls. injection Hcalls as <-.
    vm_compute in He. discriminate.
Qed.

(** ** The stream adapters *)

Lemma stream_of_mode_name libopus p_pcm p_data ty :
  Decoder.stream libopus p_pcm p_data (VString (mode_name ty))
    = Ok {| Decoder.stream_decode := Decoder.decode_method libopus p_pcm p_data ty |} /\
  Encoder.stream (VString (mode_name ty)) = Ok {| Encoder._mode := ty |}.
Proof. by destruct ty. Qed.

Lemma stream_of_other_string libopus p_pcm p_data (mode : string) :
  mode <> "Int16"%string -> mode <> "Float32"%string ->
  Decoder.stream libopus p_pcm p_data (VString mode)
    = Throw (ThrownTypeError ("mode cannot be " +:+ mode)) /\
  Encoder.stream (VString mode) = Throw (ThrownTypeError ("mode cannot be " +:+ mode)).
Proof.
  intros Hint Hfloat. unfold Decoder.stream, Encoder.stream, loose_eq_string.
  apply String.eqb_neq in Hint, Hfloat. by rewrite Hint, Hfloat.
Qed.

(** C3, on the code. Writing an empty chunk to a decoder stream does not
    take the absent-input path: an empty Buffer is truthy, so [_decode]
    treats it as a packet.  The only codec call is the engine's decode on
    the packet scratch region with length 0 and the full output cap
    [p_pcm_len / channels / sampleWidth] as frame size; the
    last-packet-duration control query is not made. *)
Theorem empty_chunk_is_decoded_as_packet
    (libopus : LibOpus) (p_pcm p_data : Z) (ty : SampleType)
    (dec : Decoder.t) (w : World) (offset : Z) :
  let chunk := mkBuffer [] offset in
  let strm := {| Decoder.stream_decode := Decoder.decode_method libopus p_pcm p_data ty |} in
  let p_dec := op_address libopus (Decoder._state dec) w in
  let maxFrameSize := p_pcm_len / Decoder._channels dec / BYTES_PER_ELEMENT ty in
  let run := Decoder._transform strm chunk (dec, w) in
  truthy (VBuffer chunk) = true /\
  Decoder.stream libopus p_pcm p_data (VString (mode_name ty)) = Ok strm /\
  exists res,
    codec_calls (new_events w run.2.2)
      = [EvDecode (is_float ty) p_dec p_data 0 p_pcm maxFrameSize 0 res].
Proof.
  intros chunk strm p_dec maxFrameSize run.
  split; [reflexivity|]. split; [apply stream_of_mode_name|].
  assert (Hlen : buf_length chunk <= p_data_len) by (by vm_compute).
  pose proof (decode_method_packet libopus p_pcm p_data ty dec w chunk Hlen) as Hrun.
  cbv zeta in Hrun. fold p_dec in Hrun.
  change (buf_length chunk) with 0 in Hrun. fold maxFrameSize in Hrun.
  subst run. unfold Decoder._transform. cbn [Decoder.stream_decode strm].
  rewrite Hrun.
  eexists.
  match goal with
  | |- context [if ?c then _ else _] => destruct c
  end; cbn [snd].
  all: erewrite new_events_app;
    [|rewrite trace_after_op; cbn [trace log with_heap];
      rewrite trace_op_world, <- !app_assoc; reflexivity].
  all: rewrite !codec_calls_app, codec_calls_enter, codec_calls_exit; reflexivity.
Qed.

(** On the small engine: the empty chunk makes a stereo 16-bit decoder ask
    for a full 11520-sample frame, where [decodeInt16()] asks the engine for
    the last duration first. *)
Example empty_chunk_on_toy_engine :
  let s := (Decoder.decodeInt16 Toy.engine Toy.p_pcm Toy.p_data (VNumber 960)
              (Toy.new_decoder 2 true)).2 in
  let strm := {| Decoder.stream_decode := Decoder.decodeInt16 Toy.engine Toy.p_pcm Toy.p_data |} in
  codec_calls (new_events s.2 (Decoder._transform strm (mkBuffer [] 0) s).2.2)
    = [EvDecode false 111616 Toy.p_data 0 Toy.p_pcm 11520 0 11520] /\
  codec_calls (new_events s.2
                 (Decoder.decodeInt16 Toy.engine Toy.p_pcm Toy.p_data VUndefined s).2.2)
    = [EvDecoderCtl 111616 4039 111632 0;
       EvDecode false 111616 0 0 Toy.p_pcm 960 0 960].
Proof. vm_compute. split; reflexivity. Qed.

Lemma Decoder_transform_callback libopus p_pcm p_data ty chunk s :
  let call := Decoder.decode_method libopus p_pcm p_data ty (VBuffer chunk) s in
  Decoder._transform {| Decoder.stream_decode := Decoder.decode_method libopus p_pcm p_data ty |}
    chunk s
  = (callback_of (fun a => mkBuffer (ta_bytes a) 0) call.1, call.2).
Proof.
  intros call. subst call. unfold Decoder._transform. cbn [Decoder.stream_decode].
  by destruct (Decoder.decode_method _ _ _ _ _ _) as [[a|err] s'].
Qed.

Lemma Encoder_transform_callback libopus p_pcm p_data ty chunk s :
  byteOffset chunk mod BYTES_PER_ELEMENT ty = 0 ->
  let call := Encoder.encode libopus p_pcm p_data (VTyped (reinterpret ty chunk)) s in
  Encoder._transform libopus p_pcm p_data {| Encoder._mode := ty |} chunk s
  = (callback_of id call.1, call.2).
Proof.
  intros Haligned call. subst call.
  unfold Encoder._transform, new_TypedArray_view. cbn [Encoder._mode].
  rewrite Haligned. cbn [Z.eqb]. rewrite bind_pure_l. fold (reinterpret ty chunk).
  by destruct (Encoder.encode _ _ _ _ _) as [[a|err] s'].
Qed.

(** A transform that reports each chunk's direct call reports, over a
    sequence of chunks, the sequence of direct calls. *)
Lemma write_all_call_all {S O} (transform : Buffer -> M S Callback)
    (method : Buffer -> M S O) (to_buffer : O -> Buffer) (P : Buffer -> Prop) chunks :
  (forall chunk s, P chunk ->
     transform chunk s = (callback_of to_buffer (method chunk s).1, (method chunk s).2)) ->
  Forall P chunks ->
  forall s,
    write_all transform chunks s
    = (callback_of to_buffer <$> (call_all method chunks s).1, (call_all method chunks s).2).
Proof.
  intros Hstep Hall. induction Hall as [|chunk rest Hchunk Hrest IH]; intros s; [done|].
  cbn [write_all call_all]. rewrite Hstep by done.
  destruct (method chunk s) as [r s']. cbn [fst snd].
  rewrite IH. by destruct (call_all method rest s') as [rs s''].
Qed.

Lemma call_all_length {S I O} (method : I -> M S O) inputs s :
  length (call_all method inputs s).1 = length inputs.
Proof.
  revert s. induction inputs as [|input rest IH]; intros s; [done|].
  cbn [call_all]. destruct (method input s) as [r s'].
  specialize (IH s'). destruct (call_all method rest s') as [rs s''].
  cbn [fst length] in *. by rewrite IH.
Qed.

Lemma pushed_callback_of {O} (to_buffer : O -> Buffer) (rs : list (Result O)) :
  pushed (callback_of to_buffer <$> rs) = to_buffer <$> returned rs.
Proof.
  induction rs as [|[o|err] rs IH]; [done| |].
  - change (to_buffer o :: pushed (callback_of to_buffer <$> rs)
            = to_buffer o :: (to_buffer <$> returned rs)).
    by rewrite IH.
  - exact IH.
Qed.

(** C9, as amended. A stream adapter handles the chunks written to it one
    by one, in order, and for each chunk its callback carries what the
    direct call on that chunk gives, on the state the previous chunks left:
    the output when the call returns, the error when it throws ([encode] on
    the chunk's bytes reinterpreted as a typed array of the mode's type, for
    chunks whose byte offset is a multiple of the element width;
    [decodeInt16] or [decodeFloat32] on the chunk).  So N chunks give N
    callbacks, and the output chunks are, in order, the results of the calls
    that returned: N of them when none throws.  A mode string other than
    'Int16' and 'Float32' makes the construction of the adapter throw. *)
Theorem stream_delivers_direct_results
    (libopus : LibOpus) (p_pcm p_data : Z) (ty : SampleType) (chunks : list Buffer)
    (ds : Decoder.t * World) (es : Encoder.t * World) (mode : string) :
  let dstrm := {| Decoder.stream_decode := Decoder.decode_method libopus p_pcm p_data ty |} in
  let estrm := {| Encoder._mode := ty |} in
  let to_buffer := fun a : TypedArray => mkBuffer (ta_bytes a) 0 in
  let ddirect :=
    call_all (fun c => Decoder.decode_method libopus p_pcm p_data ty (VBuffer c)) chunks ds in
  let edirect :=
    call_all (fun c => Encoder.encode libopus p_pcm p_data (VTyped (reinterpret ty c)))
             chunks es in
  (Decoder.stream libopus p_pcm p_data (VString (mode_name ty)) = Ok dstrm /\
   Encoder.stream (VString (mode_name ty)) = Ok estrm) /\
  (write_all (Decoder._transform dstrm) chunks ds
     = (callback_of to_buffer <$> ddirect.1, ddirect.2) /\
   length ddirect.1 = length chunks /\
   pushed (callback_of to_buffer <$> ddirect.1) = to_buffer <$> returned ddirect.1) /\
  (Forall (fun c => byteOffset c mod BYTES_PER_ELEMENT ty = 0) chunks ->
   write_all (Encoder._transform libopus p_pcm p_data estrm) chunks es
     = (callback_of id <$> edirect.1, edirect.2) /\
   length edirect.1 = length chunks /\
   pushed (callback_of id <$> edirect.1) = returned edirect.1) /\
  (mode <> "Int16"%string -> mode <> "Float32"%string ->
   Decoder.stream libopus p_pcm p_data (VString mode)
     = Throw (ThrownTypeError ("mode cannot be " +:+ mode)) /\
   Encoder.stream (VString mode) = Throw (ThrownTypeError ("mode cannot be " +:+ mode))).
Proof.
  intros dstrm estrm to_buffer ddirect edirect.
  split; [apply stream_of_mode_name|].
  split; [|split].
  - split; [|split].
    + apply (write_all_call_all _
               (fun c => Decoder.decode_method libopus p_pcm p_data ty (VBuffer c))
               to_buffer (fun _ => True)).
      * intros chunk s _. apply Decoder_transform_callback.
      * by apply Forall_forall.
    + apply call_all_length.
    + apply pushed_callback_of.
  - intros Haligned. split; [|split].
    + apply (write_all_call_all _
               (fun c => Encoder.encode libopus p_pcm p_data (VTyped (reinterpret ty c)))
               id (fun c => byteOffset c mod BYTES_PER_ELEMENT ty = 0)); [|done].
      intros chunk s Hchunk. by apply Encoder_transform_callback.
    + apply call_all_length.
    + rewrite pushed_callback_of. apply list_fmap_id.
  - intros Hint Hfloat. by apply stream_of_other_string.
Qed.

(** Two aligned chunks through a stereo 16-bit encoder stream, and the mode
    'asd'. *)
Lemma stream_delivers_direct_results_witness :
  let chunks := [mkBuffer (repeat "001"%byte 80) 0; mkBuffer (repeat "001"%byte 16) 8] in
  let strm := {| Encoder._mode := Int16 |} in
  pushed (write_all (Encoder._transform Toy.engine Toy.p_pcm Toy.p_data strm) chunks
            (Toy.new_encoder 2 false)).1
    = [mkBuffer ["020"; "000"]%byte 0; mkBuffer ["004"; "000"]%byte 0] /\
  Encoder.stream (VString "asd") = Throw (ThrownTypeError "mode cannot be asd").
Proof.
  intros chunks strm.
  destruct (stream_delivers_direct_results Toy.engine Toy.p_pcm Toy.p_data Int16 chunks
              (Toy.new_decoder 2 false) (Toy.new_encoder 2 false) "asd")
    as (_ & _ & Hencoder & Hmode).
  split.
  - destruct Hencoder as (Hwrite & _ & Hpushed).
    { repeat constructor. }
    subst strm. rewrite Hwrite. cbn [fst]. rewrite Hpushed.
    vm_compute. reflexivity.
  - apply Hmode; discriminate.
Defined.

(** C9, as stated, fails where a direct call throws: a chunk one sample
    larger than the PCM scratch region makes [encode] throw "pcm array too
    large", the stream reports the error for that chunk, and one chunk
    written gives no output chunk. *)
Lemma one_output_per_chunk_fails :
  let chunk := mkBuffer (repeat "000"%byte (Z.to_nat (p_pcm_len + 2))) 0 in
  let enc := (Toy.new_encoder 1 false).1 in
  let w := (Toy.new_encoder 1 false).2 in
  let transform := Encoder._transform Toy.engine Toy.p_pcm Toy.p_data {| Encoder._mode := Int16 |} in
  (transform chunk (enc, w)).1 = Ok (CallbackError (ThrownError "pcm array too large")) /\
  ~ one_output_per_chunk transform [chunk] (enc, w).
Proof.
  intros chunk enc w transform.
  assert (Hbig : ta_length (reinterpret Int16 chunk)
                 * BYTES_PER_ELEMENT (ta_type (reinterpret Int16 chunk)) > p_pcm_len)
    by (vm_compute; reflexivity).
  assert (Hrun : transform chunk (enc, w)
                 = (Ok (CallbackError (ThrownError "pcm array too large")),
                    (enc, released_world Toy.engine (Encoder._state enc) w))).
  { subst transform. rewrite Encoder_transform_callback by reflexivity.
    pose proof (encode_too_large Toy.engine Toy.p_pcm Toy.p_data
                  (reinterpret Int16 chunk) enc w Hbig) as Hencode.
    by rewrite Hencode. }
  split; [by rewrite Hrun|].
  unfold one_output_per_chunk. cbn [write_all]. rewrite Hrun.
  cbn. discriminate.
Qed.

(** ** Encoding a frame and decoding its packet *)

(** C4, on the code. [encode] tells the engine that the frame has
    [pcm.length / channels] samples, a count per channel, as is the cap
    [p_pcm_len / channels / sampleWidth] that the decoder passes; the
    decoder returns an array of exactly [n] elements, [n] being the value
    the engine's decode returned.  So when the engine's decode returns the
    sample count of the frame it was given to decode, the count [encode]
    passed, a two-channel round trip yields [pcm.length / 2] samples: fewer
    than were put in. *)
Theorem roundtrip_returns_per_channel_count
    (libopus : LibOpus) (p_pcm p_data : Z) (enc : Encoder.t) (dec : Decoder.t)
    (ty : SampleType) (pcm : TypedArray) (w w' : World) (packet : Buffer) (out : TypedArray) :
  let channels := Encoder._channels enc in
  let p_enc := op_address libopus (Encoder._state enc) w in
  let p_dec := op_address libopus (Decoder._state dec) w' in
  let enc_run := Encoder.encode libopus p_pcm p_data (VTyped pcm) (enc, w) in
  let dec_run := Decoder.decode_method libopus p_pcm p_data ty (VBuffer packet) (dec, w') in
  ta_length pcm * BYTES_PER_ELEMENT (ta_type pcm) <= p_pcm_len ->
  enc_run.1 = Ok packet ->
  dec_run.1 = Ok out ->
  exists len n,
    codec_calls (new_events w enc_run.2.2)
      = [EvEncode (is_float (ta_type pcm)) p_enc p_pcm (ta_length pcm / channels)
           p_data p_data_len len] /\
    codec_calls (new_events w' dec_run.2.2)
      = [EvDecode (is_float ty) p_dec p_data (buf_length packet) p_pcm
           (p_pcm_len / Decoder._channels dec / BYTES_PER_ELEMENT ty) 0 n] /\
    ta_length out = n /\
    (n = ta_length pcm / channels -> channels = 2 -> 0 < ta_length pcm ->
     ta_length out < ta_length pcm).
Proof.
  intros channels p_enc p_dec enc_run dec_run Hfits Hencoded Hdecoded.
  pose proof (encode_typed libopus p_pcm p_data pcm enc w Hfits) as Henc.
  cbv zeta in Henc. fold channels p_enc enc_run in Henc.
  destruct (decide (buf_length packet <= p_data_len)) as [Hlen|Hlen].
  2:{ pose proof (decode_method_packet_too_large libopus p_pcm p_data ty dec w' packet
                    ltac:(lia)) as Hdec.
      cbv zeta in Hdec. fold dec_run in Hdec. rewrite Hdec in Hdecoded. discriminate. }
  pose proof (decode_method_packet libopus p_pcm p_data ty dec w' packet Hlen) as Hdec.
  cbv zeta in Hdec. fold p_dec dec_run in Hdec.
  eexists _, _.
  split; [|split; [|split]].
  - rewrite Henc. cbn [snd]. erewrite new_events_app.
    2:{ rewrite trace_after_op. cbn [trace log with_heap].
        rewrite trace_op_world, <- !app_assoc. reflexivity. }
    rewrite !codec_calls_app, codec_calls_enter, codec_calls_exit. reflexivity.
  - rewrite Hdec. cbn [snd]. erewrite new_events_app.
    2:{ rewrite trace_after_op. cbn [trace log with_heap].
        rewrite trace_op_world, <- !app_assoc. reflexivity. }
    rewrite !codec_calls_app, codec_calls_enter, codec_calls_exit. reflexivity.
  - rewrite Hdec in Hdecoded. cbn [fst] in Hdecoded.
    match type of Hdecoded with
    | (if ?c then _ else _) = _ => destruct c eqn:Hneg; [discriminate|]
    end.
    injection Hdecoded as <-. apply ta_length_slice. lia.
  - intros Hn Hch Hpos.
    rewrite Hdec in Hdecoded. cbn [fst] in Hdecoded.
    match type of Hdecoded with
    | (if ?c then _ else _) = _ => destruct c eqn:Hneg; [discriminate|]
    end.
    injection Hdecoded as <-. rewrite ta_length_slice by lia.
    rewrite Hn, Hch. apply Z.div_lt; lia.
Qed.

(** A stereo frame of 40 interleaved 16-bit samples comes back as 20. *)
Lemma roundtrip_returns_per_channel_count_witness :
  let enc := (Toy.new_encoder 2 false).1 in
  let w := (Toy.new_encoder 2 false).2 in
  let dec := (Toy.new_decoder 2 false).1 in
  let pcm := mkTypedArray Int16 (repeat "001"%byte 80) in
  let packet := mkBuffer ["020"; "000"]%byte 0 in
  let enc_run := Encoder.encode Toy.engine Toy.p_pcm Toy.p_data (VTyped pcm) (enc, w) in
  let dec_run := Decoder.decode_method Toy.engine Toy.p_pcm Toy.p_data Int16 (VBuffer packet)
                   (dec, enc_run.2.2) in
  enc_run.1 = Ok packet /\
  ta_length pcm = 40 /\
  exists out, dec_run.1 = Ok out /\ ta_length out = 20 /\ ta_length out < ta_length pcm.
Proof.
  intros enc w dec pcm packet enc_run dec_run.
  assert (Hencoded : enc_run.1 = Ok packet) by (vm_compute; reflexivity).
  split; [exact Hencoded|]. split; [reflexivity|].
  destruct (dec_run.1) as [out|err] eqn:Hdecoded; [|vm_compute in Hdecoded; discriminate].
  exists out. split; [reflexivity|].
  destruct (roundtrip_returns_per_channel_count Toy.engine Toy.p_pcm Toy.p_data
              enc dec Int16 pcm w enc_run.2.2 packet out
              ltac:(vm_compute; discriminate) Hencoded Hdecoded)
    as (len & n & _ & Hcall & Hout & Hless).
  assert (Hn : n = 20).
  { vm_compute in Hcall. by injection Hcall as <-. }
  split; [by rewrite Hout|].
  apply Hless; [by rewrite Hn | reflexivity | by vm_compute].
Defined.

(** ** A zero count of lost samples *)

Lemma _getLastPacketDuration_run (libopus : LibOpus) (p_dec : Z) (w : World) :
  let p_res := malloc_addr libopus (live w) 4 in
  let pp_res := malloc_addr libopus (<[p_res := 4]> (live w)) 4 in
  let heap1 := heapu32_store (Z.shiftr pp_res 2) p_res (HEAPU8 w) in
  let r := opus_decoder_ctl libopus heap1 p_dec 4039 pp_res in
  Decoder._getLastPacketDuration libopus p_dec w =
    (if r.1 =? 0
     then Ok (heap32_load (Z.shiftr p_res 2) r.2)
     else Throw (ThrownError (stringifyError libopus r.1)),
     {| HEAPU8 := r.2;
        live := delete p_res (delete pp_res (<[pp_res := 4]> (<[p_res := 4]> (live w))));
        trace := trace w ++ [EvMalloc 4 p_res; EvMalloc 4 pp_res;
                             EvDecoderCtl p_dec 4039 pp_res r.1;
                             EvFree pp_res; EvFree p_res] |}).
Proof.
  intros p_res pp_res heap1 r. subst r heap1.
  destruct w as [heap blocks events]. cbn [live HEAPU8 trace] in *.
  unfold Decoder._getLastPacketDuration, bind, _malloc, alloc_block, try_finally,
    _opus_decoder_ctl, engine_call, throw, free_block, log, with_heap.
  cbn [HEAPU8 live trace fst snd]. fold p_res. fold pp_res.
  destruct (opus_decoder_ctl libopus _ p_dec 4039 pp_res) as [err heap2].
  cbn [fst snd HEAPU8 live trace].
  destruct (err =? 0); cbn [negb HEAPU8 live trace]; by rewrite <- !app_assoc.
Qed.




(** * Further properties of the binding *)

(** ** Bytes and 32-bit words on the heap *)

Lemma Z_of_byte_of_Z z : Z_of_byte (byte_of_Z z) = z mod 256.
Proof.
  unfold Z_of_byte, byte_of_Z.
  assert (Hrange : 0 <= z mod 256 < 256) by (apply Z.mod_pos_bound; lia).
  destruct (Byte.of_N (Z.to_N (z mod 256))) as [b|] eqn:Hb.
  - apply Byte.to_of_N in Hb. rewrite Hb. lia.
  - apply Byte.of_N_None_iff in Hb. lia.
Qed.

Lemma heapu32_store_read i v heap (k : nat) :
  (k < 4)%nat ->
  heapu32_store i v heap (4 * i + Z.of_nat k)
  = byte_of_Z (Z.shiftr (v mod 2 ^ 32) (8 * Z.of_nat k)).
Proof.
  intros Hk. unfold heapu32_store. rewrite heap_set_inside by (simpl; lia).
  destruct k as [|[|[|[|k]]]]; try lia; reflexivity.
Qed.

Lemma heapu32_store_outside i v heap a :
  ~ (4 * i <= a < 4 * i + 4) -> heapu32_store i v heap a = heap a.
Proof. intros Ha. unfold heapu32_store. apply heap_set_outside. simpl. lia. Qed.

(** A number stored through [HEAPU32] is read back through [HEAP32] as its
    [ToInt32]. *)
Lemma heap32_load_store i v heap :
  heap32_load i (heapu32_store i v heap) = to_int32 v.
Proof.
  unfold heap32_load, to_int32.
  pose proof (heapu32_store_read i v heap 0 ltac:(lia)) as H0.
  pose proof (heapu32_store_read i v heap 1 ltac:(lia)) as H1.
  pose proof (heapu32_store_read i v heap 2 ltac:(lia)) as H2.
  pose proof (heapu32_store_read i v heap 3 ltac:(lia)) as H3.
  change (Z.of_nat 0) with 0 in H0. rewrite Z.add_0_r in H0.
  change (Z.of_nat 1) with 1 in H1. change (Z.of_nat 2) with 2 in H2.
  change (Z.of_nat 3) with 3 in H3.
  rewrite H0, H1, H2, H3, !Z_of_byte_of_Z.
  set (u := v mod 2 ^ 32).
  assert (Hu : 0 <= u < 2 ^ 32) by (apply Z.mod_pos_bound; lia).
  change (8 * 0) with 0. change (8 * 1) with 8. change (8 * 2) with 16.
  change (8 * 3) with 24.
  rewrite Z.shiftr_0_r, !Z.shiftr_div_pow2, !Z.shiftl_mul_pow2 by lia.
  assert (Hword : u mod 256 + (u / 2 ^ 8) mod 256 * 2 ^ 8
                  + (u / 2 ^ 16) mod 256 * 2 ^ 16 + (u / 2 ^ 24) mod 256 * 2 ^ 24 = u).
  { change (2 ^ 8) with 256. change (2 ^ 16) with 65536. change (2 ^ 24) with 16777216.
    change (2 ^ 32) with 4294967296 in Hu.
    Z.div_mod_to_equations. lia. }
  by rewrite Hword.
Qed.

(** ** The last-packet-duration query *)

(** X1. [_getLastPacketDuration] obtains two four-byte blocks, stores the
    address of the first in the second, and passes the second as the
    argument block of control request 4039: the engine finds there, read as
    a 32-bit integer, the address of the result block.  A zero status
    returns the integer the engine left in the result block, any other
    status throws the engine's text for it; in both cases the two blocks are
    released, the argument block first, and with an allocator that hands
    out free addresses the live blocks are those before the call. *)
Theorem getLastPacketDuration_query_and_release
    (libopus : LibOpus) (p_dec : Z) (w : World) :
  let p_res := malloc_addr libopus (live w) 4 in
  let pp_res := malloc_addr libopus (<[p_res := 4]> (live w)) 4 in
  let heap1 := heapu32_store (Z.shiftr pp_res 2) p_res (HEAPU8 w) in
  let r := opus_decoder_ctl libopus heap1 p_dec 4039 pp_res in
  let run := Decoder._getLastPacketDuration libopus p_dec w in
  heap32_load (Z.shiftr pp_res 2) heap1 = to_int32 p_res /\
  run.1 = (if r.1 =? 0
           then Ok (heap32_load (Z.shiftr p_res 2) r.2)
           else Throw (ThrownError (stringifyError libopus r.1))) /\
  HEAPU8 run.2 = r.2 /\
  trace run.2 = trace w ++ [EvMalloc 4 p_res; EvMalloc 4 pp_res;
                            EvDecoderCtl p_dec 4039 pp_res r.1;
                            EvFree pp_res; EvFree p_res] /\
  (live w !! p_res = None -> <[p_res := 4]> (live w) !! pp_res = None ->
   live run.2 = live w).
Proof.
  intros p_res pp_res heap1 r run.
  split; [apply heap32_load_store|].
  subst run. rewrite _getLastPacketDuration_run. cbv zeta.
  fold p_res. fold pp_res. fold heap1. fold r. cbn [fst snd HEAPU8 live trace].
  repeat split.
  intros Hres Hargs.
  rewrite delete_insert_eq, (delete_id _ _ Hargs), delete_insert_eq.
  by apply delete_id.
Qed.

(** After a 960-sample frame the query returns 960 and leaves no block. *)
Lemma getLastPacketDuration_query_and_release_witness :
  let w := (Decoder.decode_method Toy.engine Toy.p_pcm Toy.p_data Int16 (VNumber 960)
              (Toy.new_decoder 1 true)).2.2 in
  let run := Decoder._getLastPacketDuration Toy.engine 111616 w in
  run.1 = Ok 960 /\ live run.2 = live w.
Proof.
  intros w run.
  destruct (getLastPacketDuration_query_and_release Toy.engine 111616 w)
    as (_ & Hresult & _ & _ & Hlive).
  split.
  - fold run in Hresult. rewrite Hresult. vm_compute. reflexivity.
  - apply Hlive; vm_compute; reflexivity.
Defined.

(** ** Live blocks *)

Lemma keeps_live_pure {A} (a : A) : keeps_live (pure a).
Proof. by intros w. Qed.

Lemma keeps_live_throw {A} e : keeps_live (@throw World A e).
Proof. by intros w. Qed.

Lemma keeps_live_bind {A B} (m : M World A) (k : A -> M World B) :
  keeps_live m -> (forall a, keeps_live (k a)) -> keeps_live (bind m k).
Proof.
  intros Hm Hk w. unfold bind. specialize (Hm w).
  destruct (m w) as [[a|e] w']; cbn [snd] in *; [|done].
  by rewrite Hk.
Qed.

Lemma keeps_live_engine_call f ev : keeps_live (engine_call f ev).
Proof. intros w. unfold engine_call. by destruct (f (HEAPU8 w)). Qed.

Lemma keeps_live_HEAPU8_set arr offset : keeps_live (HEAPU8_set arr offset).
Proof. by intros w. Qed.

Lemma keeps_live_read {A} (f : World -> A) : keeps_live (fun w => (Ok (f w), w)).
Proof. by intros w. Qed.

Lemma keeps_live_getLastPacketDuration libopus p_dec :
  fresh_allocator libopus -> keeps_live (Decoder._getLastPacketDuration libopus p_dec).
Proof.
  intros Hfresh w.
  by apply (getLastPacketDuration_query_and_release libopus p_dec w).
Qed.

Lemma keeps_live_decode_func libopus p_pcm p_data self data bps doDecode p_dec :
  fresh_allocator libopus ->
  (forall st d len pcm frame_size fec, keeps_live (doDecode st d len pcm frame_size fec)) ->
  keeps_live (Decoder._decode_func libopus p_pcm p_data self data bps doDecode p_dec).
Proof.
  intros Hfresh HdoDecode. unfold Decoder._decode_func.
  apply keeps_live_bind.
  { destruct (truthy data); [apply keeps_live_pure|].
    apply keeps_live_bind; [by apply keeps_live_getLastPacketDuration|].
    intros d. apply keeps_live_pure. }
  intros data'. apply keeps_live_bind.
  - destruct data' as [| | |n| |b| |]; try apply keeps_live_throw.
    + destruct (n * bps >? p_data_len); [apply keeps_live_throw | apply HdoDecode].
    + destruct (buf_length b >? p_data_len); [apply keeps_live_throw|].
      apply keeps_live_bind; [apply keeps_live_HEAPU8_set|].
      intros _. apply HdoDecode.
  - intros res. destruct (res <? 0); [apply keeps_live_throw|].
    apply (keeps_live_read (fun w => heap_slice p_pcm (p_pcm + res * bps) (HEAPU8 w))).
Qed.

Lemma keeps_live_encode_func libopus p_pcm p_data pcm length samples p_enc :
  keeps_live (Encoder.encode_func libopus p_pcm p_data pcm length samples p_enc).
Proof.
  intros w. unfold Encoder.encode_func.
  destruct pcm as [| | | | | |[[|] bytes]|]; try reflexivity.
  - destruct (length * 2 >? p_pcm_len) eqn:Hlen;
      unfold bind, throw, HEAPU8_set, pure, _opus_encode, engine_call;
      rewrite ?Hlen; [reflexivity|].
    cbn [HEAPU8 with_heap].
    destruct (opus_encode libopus _ _ _ _ _ _) as [len heap'].
    by destruct (len <? 0).
  - destruct (length * 4 >? p_pcm_len) eqn:Hlen;
      unfold bind, throw, HEAPU8_set, pure, _opus_encode_float, engine_call;
      rewrite ?Hlen; [reflexivity|].
    cbn [HEAPU8 with_heap].
    destruct (opus_encode_float libopus _ _ _ _ _ _) as [len heap'].
    by destruct (len <? 0).
Qed.

(** An operation that keeps the live blocks, run on a handle whose scratch
    block is fresh, leaves the live blocks as they were. *)
Lemma withState_keeps_live libopus {A} st (func : Z -> M World A) w :
  fresh_allocator libopus ->
  (forall p, keeps_live (func p)) ->
  live (withState libopus st func w).2 = live w.
Proof.
  intros Hfresh Hfunc. rewrite withState_run. cbv zeta. cbn [snd].
  destruct st as [p|bytes].
  - cbn [after_op op_address op_world snd]. apply Hfunc.
  - apply live_after_op; [apply Hfresh | apply Hfunc].
Qed.

Lemma new_TypedArray_state {S} ty buffer (s : S) : (new_TypedArray ty buffer s).2 = s.
Proof. unfold new_TypedArray. by destruct (_ =? 0). Qed.

Lemma bind_state_after {S A B} (m : M S A) (k : A -> M S B) s :
  (forall a s', (k a s').2 = s') -> (bind m k s).2 = (m s).2.
Proof. intros Hk. unfold bind. destruct (m s) as [[a|e] s']; [apply Hk | done]. Qed.

Lemma get_length_state {S} v (s : S) : (get_length v s).2 = s.
Proof. by destruct v. Qed.

(** The small engine's allocator places a block above every live one. *)
Lemma Toy_malloc_above (blocks : gmap Z Z) size a sz :
  blocks !! a = Some sz -> a < Toy.malloc blocks size.
Proof.
  unfold Toy.malloc. revert a sz.
  apply (map_fold_weak_ind
           (fun r (m : gmap Z Z) => forall a sz, m !! a = Some sz -> a < r)).
  - intros a sz Ha. by rewrite lookup_empty in Ha.
  - intros i x m r Hi IH a sz Ha.
    destruct (decide (i = a)) as [->|Hne].
    + assert (8 * ((a + Z.max x 1 + 7) / 8) >= a + 1)
        by (Z.div_mod_to_equations; lia).
      lia.
    + rewrite lookup_insert_ne in Ha by done.
      specialize (IH a sz Ha). lia.
Qed.

Lemma Toy_fresh_allocator : fresh_allocator Toy.engine.
Proof.
  intros blocks size. cbn [malloc_addr Toy.engine].
  destruct (blocks !! Toy.malloc blocks size) as [sz|] eqn:Hlookup; [|done].
  pose proof (Toy_malloc_above blocks size _ _ Hlookup). lia.
Qed.

(** X2. With an allocator that hands out free addresses, no call of
    [decodeInt16], [decodeFloat32], [encode] or [getLastPacketDuration]
    changes the set of live foreign blocks, whatever the input and whether
    the call returns or throws, in Safe and in Unsafe mode: every block a
    call obtains, it releases. *)
Theorem methods_keep_live_blocks
    (libopus : LibOpus) (p_pcm p_data : Z) (ty : SampleType)
    (dec : Decoder.t) (enc : Encoder.t) (data pcm : JsValue) (w : World) :
  fresh_allocator libopus ->
  live (Decoder.decode_method libopus p_pcm p_data ty data (dec, w)).2.2 = live w /\
  live (Decoder.getLastPacketDuration libopus (dec, w)).2.2 = live w /\
  live (Encoder.encode libopus p_pcm p_data pcm (enc, w)).2.2 = live w.
Proof.
  intros Hfresh. split; [|split].
  - rewrite decode_method_unfold.
    rewrite bind_state_after by (intros; apply new_TypedArray_state).
    unfold Decoder._decode, Decoder._withState.
    pose proof (withState_keeps_live libopus (Decoder._state dec)
                  (Decoder._decode_func libopus p_pcm p_data dec data
                     (BYTES_PER_ELEMENT ty)
                     (fun st d len pcm' frame_size decode_fec =>
                        engine_call
                          (fun h => Decoder.engine_decode libopus ty h st d len pcm'
                                      frame_size decode_fec)
                          (EvDecode (is_float ty) st d len pcm' frame_size decode_fec)))
                  w Hfresh) as Hlive.
    destruct (withState _ _ _ _) as [[r st] w']. cbn [snd] in *.
    apply Hlive. intros p. apply keeps_live_decode_func; [done|].
    intros. apply keeps_live_engine_call.
  - unfold Decoder.getLastPacketDuration, Decoder._withState.
    pose proof (withState_keeps_live libopus (Decoder._state dec)
                  (Decoder._getLastPacketDuration libopus) w Hfresh) as Hlive.
    destruct (withState _ _ _ _) as [[r st] w']. cbn [snd] in *.
    apply Hlive. intros p. by apply keeps_live_getLastPacketDuration.
  - unfold Encoder.encode, bind.
    pose proof (get_length_state pcm (enc, w)) as Hstate.
    destruct (get_length pcm (enc, w)) as [[length|e] [enc' w']] eqn:Hlength;
      cbn [snd] in Hstate; injection Hstate as -> ->; [|done].
    + unfold Encoder._withState.
      pose proof (withState_keeps_live libopus (Encoder._state enc)
                    (Encoder.encode_func libopus p_pcm p_data pcm length
                       (length / Encoder._channels enc)) w Hfresh) as Hlive.
      destruct (withState _ _ _ _) as [[r st] w'']. cbn [snd] in *.
      apply Hlive. intros p. apply keeps_live_encode_func.
Qed.

(** A lost frame, a query, and an [encode] refused for its type, on the
    small engine. *)
Lemma methods_keep_live_blocks_witness :
  let dec := (Toy.new_decoder 2 false).1 in
  let enc := (Toy.new_encoder 2 true).1 in
  let w := (Toy.new_encoder 2 true).2 in
  live (Decoder.decode_method Toy.engine Toy.p_pcm Toy.p_data Float32 VNull (dec, w)).2.2
    = live w /\
  live (Encoder.encode Toy.engine Toy.p_pcm Toy.p_data (VString "123") (enc, w)).2.2
    = live w.
Proof.
  intros dec enc w.
  destruct (methods_keep_live_blocks Toy.engine Toy.p_pcm Toy.p_data Float32
              dec enc VNull (VString "123") w Toy_fresh_allocator)
    as (Hdecode & _ & Hencode).
  by split.
Defined.

(** ** What a call leaves of the handle *)

Lemma after_op_same_shape st p w : same_shape st (after_op st p w).1.
Proof.
  destruct st as [q|bytes]; cbn [after_op fst same_shape]; [done|].
  rewrite heap_slice_length. lia.
Qed.

Lemma withState_same_shape libopus {A} st (func : Z -> M World A) w :
  same_shape st (withState libopus st func w).1.2.
Proof. rewrite withState_run. cbv zeta. cbn [fst snd]. apply after_op_same_shape. Qed.

Lemma Decoder_withState_same libopus {A} (func : Z -> M World A) dec w :
  same_decoder dec (Decoder._withState libopus func (dec, w)).2.1.
Proof.
  unfold Decoder._withState.
  pose proof (withState_same_shape libopus (Decoder._state dec) func w) as Hshape.
  destruct (withState _ _ _ _) as [[r st] w']. cbn [fst snd] in *.
  by repeat split.
Qed.

Lemma Encoder_withState_same libopus {A} (func : Z -> M World A) enc w :
  same_encoder enc (Encoder._withState libopus func (enc, w)).2.1.
Proof.
  unfold Encoder._withState.
  pose proof (withState_same_shape libopus (Encoder._state enc) func w) as Hshape.
  destruct (withState _ _ _ _) as [[r st] w']. cbn [fst snd] in *.
  by repeat split.
Qed.

Lemma same_shape_refl st : same_shape st st.
Proof. by destruct st. Qed.

(** X3. Whatever the input and the outcome, a call of [decodeInt16],
    [decodeFloat32], [getLastPacketDuration], [encode] or [destroy] leaves
    the handle with the rate, channel count (and application) it was built
    with and in the mode it was built in: an Unsafe-mode handle keeps its
    foreign address, the snapshot of a Safe-mode handle keeps its size. *)
Theorem methods_keep_handle_shape
    (libopus : LibOpus) (p_pcm p_data : Z) (ty : SampleType)
    (dec : Decoder.t) (enc : Encoder.t) (data pcm : JsValue) (w : World) :
  same_decoder dec (Decoder.decode_method libopus p_pcm p_data ty data (dec, w)).2.1 /\
  same_decoder dec (Decoder.getLastPacketDuration libopus (dec, w)).2.1 /\
  same_decoder dec (Decoder.destroy (dec, w)).2.1 /\
  same_encoder enc (Encoder.encode libopus p_pcm p_data pcm (enc, w)).2.1 /\
  same_encoder enc (Encoder.destroy (enc, w)).2.1.
Proof.
  split; [|split; [|split; [|split]]].
  - rewrite decode_method_unfold.
    rewrite bind_state_after by (intros; apply new_TypedArray_state).
    apply Decoder_withState_same.
  - apply Decoder_withState_same.
  - unfold Decoder.destroy.
    destruct (Decoder._state dec) eqn:Hst; cbn [fst snd];
      repeat split; rewrite ?Hst; apply same_shape_refl.
  - unfold Encoder.encode, bind.
    pose proof (get_length_state pcm (enc, w)) as Hstate.
    destruct (get_length pcm (enc, w)) as [[length|e] [enc' w']] eqn:Hlength;
      cbn [snd] in Hstate; injection Hstate as -> ->.
    + apply Encoder_withState_same.
    + cbn [fst snd]. repeat split. apply same_shape_refl.
  - unfold Encoder.destroy.
    destruct (Encoder._state enc) eqn:Hst; cbn [fst snd];
      repeat split; rewrite ?Hst; apply same_shape_refl.
Qed.

(** ** Construction, step by step *)

Lemma rate_check_accepts rate :
  supported_rate rate -> bool_decide (rate ∉ [8000; 12000; 16000; 24000; 48000]) = false.
Proof. intros Hrate. apply bool_decide_eq_false_2. intros Hn. by apply Hn. Qed.

Lemma rate_check_rejects rate :
  ~ supported_rate rate -> bool_decide (rate ∉ [8000; 12000; 16000; 24000; 48000]) = true.
Proof. intros Hrate. by apply bool_decide_eq_true_2. Qed.

Lemma application_check_accepts application :
  supported_application application ->
  negb (application =? Encoder.VOIP) && negb (application =? Encoder.AUDIO)
  && negb (application =? Encoder.RESTRICTED_LOWDELAY) = false.
Proof. by intros [->|[->| ->]]. Qed.

Lemma application_check_rejects application :
  ~ supported_application application ->
  negb (application =? Encoder.VOIP) && negb (application =? Encoder.AUDIO)
  && negb (application =? Encoder.RESTRICTED_LOWDELAY) = true.
Proof.
  intros Happ. unfold supported_application in Happ.
  rewrite !andb_true_iff, !negb_true_iff, !Z.eqb_neq. tauto.
Qed.

(** What the decoder's constructor does once the options are accepted. *)
Lemma Decoder_run libopus opts w :
  let rate := default 48000 (Decoder.opt_rate opts) in
  let channels := default 1 (Decoder.opt_channels opts) in
  let unsafe := default false (Decoder.opt_unsafe opts) in
  let size := opus_decoder_get_size libopus channels in
  let dec := malloc_addr libopus (live w) size in
  let r := opus_decoder_init libopus (HEAPU8 w) dec rate channels in
  let events := [EvDecoderGetSize channels size; EvMalloc size dec;
                 EvDecoderInit dec rate channels r.1] in
  channels = 1 \/ channels = 2 ->
  supported_rate rate ->
  Decoder.Decoder libopus opts w =
    if negb (r.1 =? 0)
    then (Throw (ThrownError (stringifyError libopus r.1)),
          {| HEAPU8 := r.2; live := delete dec (<[dec := size]> (live w));
             trace := trace w ++ events ++ [EvFree dec] |})
    else if unsafe
    then (Ok (Decoder.mkDecoder rate channels (Foreign dec)),
          {| HEAPU8 := r.2; live := <[dec := size]> (live w);
             trace := trace w ++ events |})
    else (Ok (Decoder.mkDecoder rate channels (Snapshot (heap_slice dec (dec + size) r.2))),
          {| HEAPU8 := r.2; live := delete dec (<[dec := size]> (live w));
             trace := trace w ++ events ++ [EvFree dec] |}).
Proof.
  intros rate channels unsafe size dec r events Hch Hrate. subst events r.
  destruct w as [heap blocks evs]. cbn [live HEAPU8 trace] in *.
  unfold Decoder.Decoder. fold rate. fold channels. fold unsafe.
  rewrite channels_check_accepts, rate_check_accepts by done.
  unfold bind, _opus_decoder_get_size, _malloc, alloc_block, _opus_decoder_init,
    engine_call, _free, free_block, throw, pure, log, with_heap.
  cbn [HEAPU8 live trace fst snd]. fold size. fold dec.
  destruct (opus_decoder_init libopus heap dec rate channels) as [status heap'].
  cbn [fst snd HEAPU8 live trace].
  destruct (status =? 0); cbn [negb]; [destruct unsafe|];
    cbn [HEAPU8 live trace]; by rewrite <- ?app_assoc.
Qed.

Lemma Encoder_run libopus opts w :
  let rate := default 48000 (Encoder.opt_rate opts) in
  let channels := default 1 (Encoder.opt_channels opts) in
  let application := default Encoder.AUDIO (Encoder.opt_application opts) in
  let unsafe := default false (Encoder.opt_unsafe opts) in
  let size := opus_encoder_get_size libopus channels in
  let enc := malloc_addr libopus (live w) size in
  let r := opus_encoder_init libopus (HEAPU8 w) enc rate channels application in
  let events := [EvEncoderGetSize channels size; EvMalloc size enc;
                 EvEncoderInit enc rate channels application r.1] in
  channels = 1 \/ channels = 2 ->
  supported_rate rate ->
  supported_application application ->
  Encoder.Encoder libopus opts w =
    if negb (r.1 =? 0)
    then (Throw (ThrownString (stringifyError libopus r.1)),
          {| HEAPU8 := r.2; live := delete enc (<[enc := size]> (live w));
             trace := trace w ++ events ++ [EvFree enc] |})
    else if unsafe
    then (Ok (Encoder.mkEncoder rate channels application (Foreign enc)),
          {| HEAPU8 := r.2; live := <[enc := size]> (live w);
             trace := trace w ++ events |})
    else (Ok (Encoder.mkEncoder rate channels application
                (Snapshot (heap_slice enc (enc + size) r.2))),
          {| HEAPU8 := r.2; live := delete enc (<[enc := size]> (live w));
             trace := trace w ++ events ++ [EvFree enc] |}).
Proof.
  intros rate channels application unsafe size enc r events Hch Hrate Happ.
  subst events r.
  destruct w as [heap blocks evs]. cbn [live HEAPU8 trace] in *.
  unfold Encoder.Encoder. fold rate. fold channels. fold application. fold unsafe.
  rewrite channels_check_accepts, rate_check_accepts, application_check_accepts by done.
  unfold bind, _opus_encoder_get_size, _malloc, alloc_block, _opus_encoder_init,
    engine_call, _free, free_block, throw, pure, log, with_heap.
  cbn [HEAPU8 live trace fst snd]. fold size. fold enc.
  destruct (opus_encoder_init libopus heap enc rate channels application)
    as [status heap'].
  cbn [fst snd HEAPU8 live trace].
  destruct (status =? 0); cbn [negb]; [destruct unsafe|];
    cbn [HEAPU8 live trace]; by rewrite <- ?app_assoc.
Qed.

(** ** The channel count, as any number *)

(** What the constructors do with a channel value that passes the test. *)
Lemma JsDecoder_run libopus opts w :
  let rate := default 48000 (JsDecoder.opt_rate opts) in
  let channels := default (Finite 1 0) (JsDecoder.opt_channels opts) in
  let unsafe := default false (JsDecoder.opt_unsafe opts) in
  let size := opus_decoder_get_size libopus (ToInt32 channels) in
  let dec := malloc_addr libopus (live w) size in
  let r := opus_decoder_init libopus (HEAPU8 w) dec rate (ToInt32 channels) in
  let events := [EvDecoderGetSize (ToInt32 channels) size; EvMalloc size dec;
                 EvDecoderInit dec rate (ToInt32 channels) r.1] in
  channels_refused channels = false ->
  supported_rate rate ->
  JsDecoder.Decoder libopus opts w =
    if negb (r.1 =? 0)
    then (Throw (ThrownError (stringifyError libopus r.1)),
          {| HEAPU8 := r.2; live := delete dec (<[dec := size]> (live w));
             trace := trace w ++ events ++ [EvFree dec] |})
    else if unsafe
    then (Ok (JsDecoder.mkDecoder rate channels (Foreign dec)),
          {| HEAPU8 := r.2; live := <[dec := size]> (live w);
             trace := trace w ++ events |})
    else (Ok (JsDecoder.mkDecoder rate channels (Snapshot (heap_slice dec (dec + size) r.2))),
          {| HEAPU8 := r.2; live := delete dec (<[dec := size]> (live w));
             trace := trace w ++ events ++ [EvFree dec] |}).
Proof.
  intros rate channels unsafe size dec r events Hch Hrate. subst events r.
  destruct w as [heap blocks evs]. cbn [live HEAPU8 trace] in *.
  unfold JsDecoder.Decoder. fold rate. fold channels. fold unsafe.
  unfold channels_refused in Hch. rewrite Hch, rate_check_accepts by done.
  unfold bind, _opus_decoder_get_size, _malloc, alloc_block, _opus_decoder_init,
    engine_call, _free, free_block, throw, pure, log, with_heap.
  cbn [HEAPU8 live trace fst snd]. fold size. fold dec.
  destruct (opus_decoder_init libopus heap dec rate (ToInt32 channels)) as [status heap'].
  cbn [fst snd HEAPU8 live trace].
  destruct (status =? 0); cbn [negb]; [destruct unsafe|];
    cbn [HEAPU8 live trace]; by rewrite <- ?app_assoc.
Qed.

Lemma JsEncoder_run libopus opts w :
  let rate := default 48000 (JsEncoder.opt_rate opts) in
  let channels := default (Finite 1 0) (JsEncoder.opt_channels opts) in
  let application := default Encoder.AUDIO (JsEncoder.opt_application opts) in
  let unsafe := default false (JsEncoder.opt_unsafe opts) in
  let size := opus_encoder_get_size libopus (ToInt32 channels) in
  let enc := malloc_addr libopus (live w) size in
  let r := opus_encoder_init libopus (HEAPU8 w) enc rate (ToInt32 channels) application in
  let events := [EvEncoderGetSize (ToInt32 channels) size; EvMalloc size enc;
                 EvEncoderInit enc rate (ToInt32 channels) application r.1] in
  channels_refused channels = false ->
  supported_rate rate ->
  supported_application application ->
  JsEncoder.Encoder libopus opts w =
    if negb (r.1 =? 0)
    then (Throw (ThrownString (stringifyError libopus r.1)),
          {| HEAPU8 := r.2; live := delete enc (<[enc := size]> (live w));
             trace := trace w ++ events ++ [EvFree enc] |})
    else if unsafe
    then (Ok (JsEncoder.mkEncoder rate channels application (Foreign enc)),
          {| HEAPU8 := r.2; live := <[enc := size]> (live w);
             trace := trace w ++ events |})
    else (Ok (JsEncoder.mkEncoder rate channels application
                (Snapshot (heap_slice enc (enc + size) r.2))),
          {| HEAPU8 := r.2; live := delete enc (<[enc := size]> (live w));
             trace := trace w ++ events ++ [EvFree enc] |}).
Proof.
  intros rate channels application unsafe size enc r events Hch Hrate Happ.
  subst events r.
  destruct w as [heap blocks evs]. cbn [live HEAPU8 trace] in *.
  unfold JsEncoder.Encoder. fold rate. fold channels. fold application. fold unsafe.
  unfold channels_refused in Hch.
  rewrite Hch, rate_check_accepts, application_check_accepts by done.
  unfold bind, _opus_encoder_get_size, _malloc, alloc_block, _opus_encoder_init,
    engine_call, _free, free_block, throw, pure, log, with_heap.
  cbn [HEAPU8 live trace fst snd]. fold size. fold enc.
  destruct (opus_encoder_init libopus heap enc rate (ToInt32 channels) application)
    as [status heap'].
  cbn [fst snd HEAPU8 live trace].
  destruct (status =? 0); cbn [negb]; [destruct unsafe|];
    cbn [HEAPU8 live trace]; by rewrite <- ?app_assoc.
Qed.

(** Of the whole numbers, the test lets 1 and 2 through, and no other. *)
Lemma channels_refused_whole n : channels_refused (Finite n 0) = (n <? 1) || (n >? 2).
Proof.
  unfold channels_refused, number_ltb, number_gtb.
  change (0 <=? 0) with true. cbv iota. by rewrite Z.pow_0_r, Z.mul_1_r.
Qed.

Lemma ToInt32_whole n : n = 1 \/ n = 2 -> ToInt32 (Finite n 0) = n.
Proof. by intros [->| ->]. Qed.

(** A number strictly between 1 and 2 passes the test and reaches the engine
    as 1. *)
Lemma channels_between m e :
  e < 0 -> 2 ^ (- e) < m < 2 * 2 ^ (- e) ->
  channels_refused (Finite m e) = false /\ ToInt32 (Finite m e) = 1.
Proof.
  intros He Hm. unfold channels_refused, number_ltb, number_gtb, ToInt32.
  replace (0 <=? e) with false by lia.
  set (k := 2 ^ (- e)) in *.
  split.
  - apply orb_false_iff. split; lia.
  - assert (Hquot : Z.quot m k = 1).
    { rewrite Z.quot_div_nonneg by lia.
      symmetry. apply Z.div_unique with (m - k); lia. }
    by rewrite Hquot.
Qed.

(** On whole numbers the constructors are [Decoder.Decoder] and
    [Encoder.Encoder]. *)
Lemma JsDecoder_on_whole libopus opts w :
  JsDecoder.Decoder libopus (JsDecoder.of_options opts) w
  = (on_result JsDecoder.of_handle (Decoder.Decoder libopus opts w).1,
     (Decoder.Decoder libopus opts w).2).
Proof.
  set (n := default 1 (Decoder.opt_channels opts)).
  assert (Hch : default (Finite 1 0) (JsDecoder.opt_channels (JsDecoder.of_options opts))
                = Finite n 0).
  { subst n. unfold JsDecoder.of_options. cbn [JsDecoder.opt_channels].
    by destruct (Decoder.opt_channels opts). }
  unfold JsDecoder.Decoder, Decoder.Decoder. rewrite Hch. fold n.
  change (number_ltb (Finite n 0) 1 || number_gtb (Finite n 0) 2)
    with (channels_refused (Finite n 0)).
  rewrite channels_refused_whole.
  cbn [JsDecoder.of_options JsDecoder.opt_rate JsDecoder.opt_unsafe].
  destruct ((n <? 1) || (n >? 2)) eqn:Hcheck; [reflexivity|].
  rewrite (ToInt32_whole n) by (apply orb_false_iff in Hcheck; lia).
  destruct (bool_decide _); [reflexivity|].
  destruct w as [heap blocks evs].
  unfold bind, _opus_decoder_get_size, _malloc, alloc_block, _opus_decoder_init,
    engine_call, _free, free_block, throw, pure, log, with_heap.
  cbn [HEAPU8 live trace fst snd].
  destruct (opus_decoder_init libopus heap _ _ n) as [status heap'].
  cbn [fst snd HEAPU8 live trace].
  destruct (status =? 0); cbn [negb]; [|reflexivity].
  by destruct (default false (Decoder.opt_unsafe opts)).
Qed.

Lemma JsEncoder_on_whole libopus opts w :
  JsEncoder.Encoder libopus (JsEncoder.of_options opts) w
  = (on_result JsEncoder.of_handle (Encoder.Encoder libopus opts w).1,
     (Encoder.Encoder libopus opts w).2).
Proof.
  set (n := default 1 (Encoder.opt_channels opts)).
  assert (Hch : default (Finite 1 0) (JsEncoder.opt_channels (JsEncoder.of_options opts))
                = Finite n 0).
  { subst n. unfold JsEncoder.of_options. cbn [JsEncoder.opt_channels].
    by destruct (Encoder.opt_channels opts). }
  unfold JsEncoder.Encoder, Encoder.Encoder. rewrite Hch. fold n.
  change (number_ltb (Finite n 0) 1 || number_gtb (Finite n 0) 2)
    with (channels_refused (Finite n 0)).
  rewrite channels_refused_whole.
  cbn [JsEncoder.of_options JsEncoder.opt_rate JsEncoder.opt_unsafe
       JsEncoder.opt_application].
  destruct ((n <? 1) || (n >? 2)) eqn:Hcheck; [reflexivity|].
  rewrite (ToInt32_whole n) by (apply orb_false_iff in Hcheck; lia).
  destruct (bool_decide _); [reflexivity|].
  destruct (negb _ && negb _ && negb _); [reflexivity|].
  destruct w as [heap blocks evs].
  unfold bind, _opus_encoder_get_size, _malloc, alloc_block, _opus_encoder_init,
    engine_call, _free, free_block, throw, pure, log, with_heap.
  cbn [HEAPU8 live trace fst snd].
  destruct (opus_encoder_init libopus heap _ _ n _) as [status heap'].
  cbn [fst snd HEAPU8 live trace].
  destruct (status =? 0); cbn [negb]; [|reflexivity].
  by destruct (default false (Encoder.opt_unsafe opts)).
Qed.

(** C7, on the code.  The constructors test the channel option with
    [opts.channels < 1 || opts.channels > 2]: they throw "channels must be
    either 1 or 2", with the engine untouched, exactly for the numbers below
    1 and above 2.  Of the whole numbers that leaves 1 and 2, and with one
    of them, a supported rate (and application) and an engine whose init
    reports success the construction returns a handle.  But a number
    strictly between 1 and 2, such as 1.5, and NaN pass the test as well:
    no channel error is thrown, the engine's size query and init are called
    with the number cut to a 32-bit integer (1 for 1.5, 0 for NaN), and when
    the init reports success the construction returns a handle whose
    [_channels] is that number. *)
Theorem channels_checked_against_bounds_only
    (libopus : LibOpus) (dopts : JsDecoder.Options) (eopts : JsEncoder.Options) (w : World) :
  let dch := default (Finite 1 0) (JsDecoder.opt_channels dopts) in
  let drate := default 48000 (JsDecoder.opt_rate dopts) in
  let dsize := opus_decoder_get_size libopus (ToInt32 dch) in
  let dp := malloc_addr libopus (live w) dsize in
  let dr := opus_decoder_init libopus (HEAPU8 w) dp drate (ToInt32 dch) in
  let drun := JsDecoder.Decoder libopus dopts w in
  let ech := default (Finite 1 0) (JsEncoder.opt_channels eopts) in
  let erate := default 48000 (JsEncoder.opt_rate eopts) in
  let eapp := default Encoder.AUDIO (JsEncoder.opt_application eopts) in
  let esize := opus_encoder_get_size libopus (ToInt32 ech) in
  let ep := malloc_addr libopus (live w) esize in
  let er := opus_encoder_init libopus (HEAPU8 w) ep erate (ToInt32 ech) eapp in
  let erun := JsEncoder.Encoder libopus eopts w in
  (channels_refused dch = true ->
   exists err, drun = (Throw err, w) /\ channel_related err = true) /\
  (channels_refused ech = true ->
   exists err, erun = (Throw err, w) /\ channel_related err = true) /\
  (channels_refused dch = false -> supported_rate drate ->
   (exists rest,
      trace drun.2 = trace w ++ [EvDecoderGetSize (ToInt32 dch) dsize; EvMalloc dsize dp;
                                 EvDecoderInit dp drate (ToInt32 dch) dr.1] ++ rest) /\
   (dr.1 = 0 -> exists dec, drun.1 = Ok dec /\ JsDecoder._channels dec = dch) /\
   (dr.1 <> 0 -> drun.1 = Throw (ThrownError (stringifyError libopus dr.1)))) /\
  (channels_refused ech = false -> supported_rate erate -> supported_application eapp ->
   (exists rest,
      trace erun.2 = trace w ++ [EvEncoderGetSize (ToInt32 ech) esize; EvMalloc esize ep;
                                 EvEncoderInit ep erate (ToInt32 ech) eapp er.1] ++ rest) /\
   (er.1 = 0 -> exists enc, erun.1 = Ok enc /\ JsEncoder._channels enc = ech) /\
   (er.1 <> 0 -> erun.1 = Throw (ThrownString (stringifyError libopus er.1)))) /\
  (forall n : Z, channels_refused (Finite n 0) = false <-> n = 1 \/ n = 2) /\
  channels_refused NaN = false /\
  (forall m e : Z, e < 0 -> 2 ^ (- e) < m < 2 * 2 ^ (- e) ->
     channels_refused (Finite m e) = false /\ ToInt32 (Finite m e) = 1) /\
  (forall opts : Decoder.Options,
     JsDecoder.Decoder libopus (JsDecoder.of_options opts) w
     = (on_result JsDecoder.of_handle (Decoder.Decoder libopus opts w).1,
        (Decoder.Decoder libopus opts w).2)) /\
  (forall opts : Encoder.Options,
     JsEncoder.Encoder libopus (JsEncoder.of_options opts) w
     = (on_result JsEncoder.of_handle (Encoder.Encoder libopus opts w).1,
        (Encoder.Encoder libopus opts w).2)).
Proof.
  intros dch drate dsize dp dr drun ech erate eapp esize ep er erun.
  split.
  { intros Hrefused. exists (ThrownError "channels must be either 1 or 2").
    subst drun. unfold JsDecoder.Decoder. fold dch.
    unfold channels_refused in Hrefused. by rewrite Hrefused. }
  split.
  { intros Hrefused. exists (ThrownString "channels must be either 1 or 2").
    subst erun. unfold JsEncoder.Encoder. fold ech.
    unfold channels_refused in Hrefused. by rewrite Hrefused. }
  split.
  { intros Hpasses Hrate.
    pose proof (JsDecoder_run libopus dopts w Hpasses Hrate) as Hrun.
    cbv zeta in Hrun. fold dch drate dsize dp dr drun in Hrun.
    split; [|split].
    - rewrite Hrun.
      destruct (negb (dr.1 =? 0)); [|destruct (default false _)]; cbn [snd trace].
      + by exists [EvFree dp].
      + exists []. by rewrite app_nil_r.
      + by exists [EvFree dp].
    - intros Hok. rewrite Hrun, Hok. cbn [negb Z.eqb].
      destruct (default false _); by eexists.
    - intros Hfailed. rewrite Hrun.
      by replace (dr.1 =? 0) with false by lia. }
  split.
  { intros Hpasses Hrate Happ.
    pose proof (JsEncoder_run libopus eopts w Hpasses Hrate Happ) as Hrun.
    cbv zeta in Hrun. fold ech erate eapp esize ep er erun in Hrun.
    split; [|split].
    - rewrite Hrun.
      destruct (negb (er.1 =? 0)); [|destruct (default false _)]; cbn [snd trace].
      + by exists [EvFree ep].
      + exists []. by rewrite app_nil_r.
      + by exists [EvFree ep].
    - intros Hok. rewrite Hrun, Hok. cbn [negb Z.eqb].
      destruct (default false _); by eexists.
    - intros Hfailed. rewrite Hrun.
      by replace (er.1 =? 0) with false by lia. }
  split.
  { intros n. rewrite channels_refused_whole, orb_false_iff. lia. }
  split; [reflexivity|].
  split; [intros m e; apply channels_between|].
  split; [intros opts; apply JsDecoder_on_whole | intros opts; apply JsEncoder_on_whole].
Qed.

(** [new Decoder({channels: 1.5})] returns a decoder, built by an engine that
    was asked for one channel; [new Encoder({channels: NaN})] passes the
    test and fails in the engine, asked for no channel; three channels are
    refused by the test. *)
Lemma channels_checked_against_bounds_only_witness :
  let fraction := JsDecoder.mkOptions None (Some (Finite 3 (-1))) None in
  let nan := JsEncoder.mkOptions None (Some NaN) None None in
  let three := JsDecoder.mkOptions None (Some (Finite 3 0)) None in
  let run := JsDecoder.Decoder Toy.engine fraction Toy.world in
  (exists dec, run.1 = Ok dec /\ JsDecoder._channels dec = Finite 3 (-1)) /\
  (exists rest, trace run.2 = [EvDecoderGetSize 1 4; EvMalloc 4 111616;
                               EvDecoderInit 111616 48000 1 0] ++ rest) /\
  (JsEncoder.Encoder Toy.engine nan Toy.world).1 = Throw (ThrownString "invalid argument") /\
  (exists err, JsDecoder.Decoder Toy.engine three Toy.world = (Throw err, Toy.world)
               /\ channel_related err = true).
Proof.
  intros fraction nan three run.
  destruct (channels_checked_against_bounds_only Toy.engine fraction nan Toy.world)
    as (_ & _ & Hfraction & Hnan & _).
  destruct (channels_checked_against_bounds_only Toy.engine three nan Toy.world)
    as (Hthree & _).
  destruct Hfraction as (Htrace & Hok & _);
    [reflexivity | vm_compute; repeat (first [left; reflexivity | right]) |].
  destruct Hnan as (_ & _ & Hfailed);
    [reflexivity | vm_compute; repeat (first [left; reflexivity | right])
     | right; left; reflexivity |].
  split; [apply Hok; vm_compute; reflexivity|].
  split; [exact Htrace|].
  split; [apply Hfailed; vm_compute; discriminate|].
  apply Hthree. reflexivity.
Defined.

(** X4. With an accepted channel count, a rate other than 8000, 12000,
    16000, 24000 and 48000 makes both constructors throw the rate error, and
    with an accepted rate an application other than VOIP, AUDIO and
    RESTRICTED_LOWDELAY makes the encoder's constructor throw the
    application error; in each case the engine is untouched (the world is
    the one before the call). *)
Theorem construction_checks_rate_and_application
    (libopus : LibOpus) (dopts : Decoder.Options) (eopts : Encoder.Options) (w : World) :
  let dch := default 1 (Decoder.opt_channels dopts) in
  let drate := default 48000 (Decoder.opt_rate dopts) in
  let ech := default 1 (Encoder.opt_channels eopts) in
  let erate := default 48000 (Encoder.opt_rate eopts) in
  let eapp := default Encoder.AUDIO (Encoder.opt_application eopts) in
  (dch = 1 \/ dch = 2 -> ~ supported_rate drate ->
   exists err, Decoder.Decoder libopus dopts w = (Throw err, w)
               /\ rate_related err = true) /\
  (ech = 1 \/ ech = 2 -> ~ supported_rate erate ->
   exists err, Encoder.Encoder libopus eopts w = (Throw err, w)
               /\ rate_related err = true) /\
  (ech = 1 \/ ech = 2 -> supported_rate erate -> ~ supported_application eapp ->
   exists err, Encoder.Encoder libopus eopts w = (Throw err, w)
               /\ application_related err = true).
Proof.
  intros dch drate ech erate eapp. repeat split.
  - intros Hch Hrate. eexists. unfold Decoder.Decoder. fold dch. fold drate.
    rewrite channels_check_accepts, rate_check_rejects by done. by split.
  - intros Hch Hrate. eexists. unfold Encoder.Encoder. fold ech. fold erate.
    rewrite channels_check_accepts, rate_check_rejects by done. by split.
  - intros Hch Hrate Happ. eexists.
    unfold Encoder.Encoder. fold ech. fold erate. fold eapp.
    rewrite channels_check_accepts, rate_check_accepts, application_check_rejects by done.
    by split.
Qed.

(** The rates 42 and 0 and the application 123 are refused. *)
Lemma construction_checks_rate_and_application_witness :
  (exists err,
      Decoder.Decoder Toy.engine (Decoder.mkOptions (Some 42) None None) Toy.world
        = (Throw err, Toy.world) /\ rate_related err = true) /\
  (exists err,
      Encoder.Encoder Toy.engine (Encoder.mkOptions (Some 0) None None None) Toy.world
        = (Throw err, Toy.world) /\ rate_related err = true) /\
  (exists err,
      Encoder.Encoder Toy.engine (Encoder.mkOptions None None (Some 123) None) Toy.world
        = (Throw err, Toy.world) /\ application_related err = true).
Proof.
  assert (Hbad : forall rate, rate = 42 \/ rate = 0 -> ~ supported_rate rate).
  { intros rate Hrate Hin. apply list_elem_of_In in Hin. simpl in Hin. lia. }
  assert (Hgood : supported_rate 48000).
  { apply list_elem_of_In. simpl. lia. }
  destruct (construction_checks_rate_and_application Toy.engine
              (Decoder.mkOptions (Some 42) None None)
              (Encoder.mkOptions (Some 0) None None None) Toy.world)
    as (Hdec & Henc & _).
  destruct (construction_checks_rate_and_application Toy.engine
              (Decoder.mkOptions (Some 42) None None)
              (Encoder.mkOptions None None (Some 123) None) Toy.world)
    as (_ & _ & Happ).
  split; [apply Hdec; [by left | apply Hbad; by left]|].
  split; [apply Henc; [by left | apply Hbad; by right]|].
  apply Happ; [by left | exact Hgood |].
  unfold supported_application. cbn. unfold Encoder.VOIP, Encoder.AUDIO,
    Encoder.RESTRICTED_LOWDELAY. lia.
Defined.

(** X5. When the engine's init reports a non-zero status, each constructor
    releases the block it had obtained for the state and throws the engine's
    text for that status; it has called the size query, [_malloc], the init
    and [_free], in that order, and with an allocator that hands out free
    addresses the live blocks are those before the call. *)
Theorem construction_releases_block_on_init_failure
    (libopus : LibOpus) (dopts : Decoder.Options) (eopts : Encoder.Options) (w : World) :
  let dch := default 1 (Decoder.opt_channels dopts) in
  let drate := default 48000 (Decoder.opt_rate dopts) in
  let dsize := opus_decoder_get_size libopus dch in
  let dec := malloc_addr libopus (live w) dsize in
  let dr := opus_decoder_init libopus (HEAPU8 w) dec drate dch in
  let drun := Decoder.Decoder libopus dopts w in
  let ech := default 1 (Encoder.opt_channels eopts) in
  let erate := default 48000 (Encoder.opt_rate eopts) in
  let eapp := default Encoder.AUDIO (Encoder.opt_application eopts) in
  let esize := opus_encoder_get_size libopus ech in
  let enc := malloc_addr libopus (live w) esize in
  let er := opus_encoder_init libopus (HEAPU8 w) enc erate ech eapp in
  let erun := Encoder.Encoder libopus eopts w in
  fresh_allocator libopus ->
  (dch = 1 \/ dch = 2 -> supported_rate drate -> dr.1 <> 0 ->
   drun.1 = Throw (ThrownError (stringifyError libopus dr.1)) /\
   trace drun.2 = trace w ++ [EvDecoderGetSize dch dsize; EvMalloc dsize dec;
                              EvDecoderInit dec drate dch dr.1; EvFree dec] /\
   live drun.2 = live w) /\
  (ech = 1 \/ ech = 2 -> supported_rate erate -> supported_application eapp -> er.1 <> 0 ->
   erun.1 = Throw (ThrownString (stringifyError libopus er.1)) /\
   trace erun.2 = trace w ++ [EvEncoderGetSize ech esize; EvMalloc esize enc;
                              EvEncoderInit enc erate ech eapp er.1; EvFree enc] /\
   live erun.2 = live w).
Proof.
  intros dch drate dsize dec dr drun ech erate eapp esize enc er erun Hfresh.
  split.
  - intros Hch Hrate Hstatus. subst drun.
    rewrite Decoder_run by done. cbv zeta.
    fold dch drate dsize. fold dec. fold dr.
    replace (dr.1 =? 0) with false by lia. cbn [negb fst snd trace live].
    repeat split. rewrite delete_insert_eq. apply delete_id, Hfresh.
  - intros Hch Hrate Happ Hstatus. subst erun.
    rewrite Encoder_run by done. cbv zeta.
    fold ech erate eapp esize. fold enc. fold er.
    replace (er.1 =? 0) with false by lia. cbn [negb fst snd trace live].
    repeat split. rewrite delete_insert_eq. apply delete_id, Hfresh.
Qed.

(** An engine whose init reports -3. *)
Lemma construction_releases_block_on_init_failure_witness :
  let drun := Decoder.Decoder failing_init_engine (Decoder.mkOptions None None None)
                Toy.world in
  let erun := Encoder.Encoder failing_init_engine (Encoder.mkOptions None None None None)
                Toy.world in
  drun.1 = Throw (ThrownError "unknown error") /\ live drun.2 = live Toy.world /\
  erun.1 = Throw (ThrownString "unknown error") /\ live erun.2 = live Toy.world.
Proof.
  intros drun erun.
  assert (Hfresh : fresh_allocator failing_init_engine)
    by exact Toy_fresh_allocator.
  assert (Hrate : supported_rate 48000) by (apply list_elem_of_In; simpl; lia).
  destruct (construction_releases_block_on_init_failure failing_init_engine
              (Decoder.mkOptions None None None) (Encoder.mkOptions None None None None)
              Toy.world Hfresh) as (Hdec & Henc).
  destruct Hdec as (Hthrown & _ & Hlive); [by left | exact Hrate | discriminate |].
  destruct Henc as (Hthrown' & _ & Hlive');
    [by left | exact Hrate | by right; left | discriminate |].
  by repeat split.
Defined.

(** X6. When the engine's init reports success, the decoder's constructor
    returns a handle with the rate and channel count asked for.  In Safe
    mode the handle holds a snapshot of exactly the [size] bytes the engine
    initialised at the block's address, the block is released, and the live
    blocks are those before the call.  In Unsafe mode the handle holds the
    block's address, the block (of [size] bytes) is the one live block the
    call adds, and [destroy()] on the new handle takes it away again.  (The
    allocator hands out free addresses and the engine's size is not
    negative.) *)
Theorem Decoder_construction_outcome
    (libopus : LibOpus) (opts : Decoder.Options) (w : World) :
  let rate := default 48000 (Decoder.opt_rate opts) in
  let channels := default 1 (Decoder.opt_channels opts) in
  let unsafe := default false (Decoder.opt_unsafe opts) in
  let size := opus_decoder_get_size libopus channels in
  let p := malloc_addr libopus (live w) size in
  let r := opus_decoder_init libopus (HEAPU8 w) p rate channels in
  let run := Decoder.Decoder libopus opts w in
  fresh_allocator libopus ->
  0 <= size ->
  channels = 1 \/ channels = 2 ->
  supported_rate rate ->
  r.1 = 0 ->
  exists dec,
    run.1 = Ok dec /\
    Decoder._rate dec = rate /\ Decoder._channels dec = channels /\
    Decoder._unsafe dec = unsafe /\
    (unsafe = false ->
     exists bytes,
       Decoder._state dec = Snapshot bytes /\
       bytes = heap_slice p (p + size) r.2 /\
       Z.of_nat (length bytes) = size /\
       live run.2 = live w) /\
    (unsafe = true ->
     Decoder._state dec = Foreign p /\
     live run.2 = <[p := size]> (live w) /\
     live (Decoder.destroy (dec, run.2)).2.2 = live w).
Proof.
  intros rate channels unsafe size p r run Hfresh Hsize Hch Hrate Hstatus.
  subst run. rewrite Decoder_run by done. cbv zeta.
  fold rate channels unsafe size. fold p. fold r. rewrite Hstatus. cbn [Z.eqb negb].
  destruct unsafe; eexists; (split; [reflexivity|]); cbn [fst snd]; repeat split; try done.
  - unfold Decoder.destroy. cbn [Decoder._state snd live free_block log].
    rewrite delete_insert_eq. apply delete_id, Hfresh.
  - intros _. eexists. repeat split.
    + rewrite heap_slice_length. lia.
    + cbn [live]. rewrite delete_insert_eq. apply delete_id, Hfresh.
Qed.

(** X7. The encoder's constructor, when the engine's init reports success:
    the handle has the rate, channel count and application asked for; in
    Safe mode it holds a snapshot of exactly the [size] bytes the engine
    initialised, the block is released and the live blocks are those before
    the call; in Unsafe mode it holds the block's address, that block is the
    one live block the call adds, and [destroy()] on the new handle takes it
    away again.  (The allocator hands out free addresses and the engine's
    size is not negative.) *)
Theorem Encoder_construction_outcome
    (libopus : LibOpus) (opts : Encoder.Options) (w : World) :
  let rate := default 48000 (Encoder.opt_rate opts) in
  let channels := default 1 (Encoder.opt_channels opts) in
  let application := default Encoder.AUDIO (Encoder.opt_application opts) in
  let unsafe := default false (Encoder.opt_unsafe opts) in
  let size := opus_encoder_get_size libopus channels in
  let p := malloc_addr libopus (live w) size in
  let r := opus_encoder_init libopus (HEAPU8 w) p rate channels application in
  let run := Encoder.Encoder libopus opts w in
  fresh_allocator libopus ->
  0 <= size ->
  channels = 1 \/ channels = 2 ->
  supported_rate rate ->
  supported_application application ->
  r.1 = 0 ->
  exists enc,
    run.1 = Ok enc /\
    Encoder._rate enc = rate /\ Encoder._channels enc = channels /\
    Encoder._application enc = application /\
    Encoder._unsafe enc = unsafe /\
    (unsafe = false ->
     exists bytes,
       Encoder._state enc = Snapshot bytes /\
       bytes = heap_slice p (p + size) r.2 /\
       Z.of_nat (length bytes) = size /\
       live run.2 = live w) /\
    (unsafe = true ->
     Encoder._state enc = Foreign p /\
     live run.2 = <[p := size]> (live w) /\
     live (Encoder.destroy (enc, run.2)).2.2 = live w).
Proof.
  intros rate channels application unsafe size p r run Hfresh Hsize Hch Hrate Happ Hstatus.
  subst run. rewrite Encoder_run by done. cbv zeta.
  fold rate channels application unsafe size. fold p. fold r.
  rewrite Hstatus. cbn [Z.eqb negb].
  destruct unsafe; eexists; (split; [reflexivity|]); cbn [fst snd]; repeat split; try done.
  - unfold Encoder.destroy. cbn [Encoder._state snd live free_block log].
    rewrite delete_insert_eq. apply delete_id, Hfresh.
  - intros _. eexists. repeat split.
    + rewrite heap_slice_length. lia.
    + cbn [live]. rewrite delete_insert_eq. apply delete_id, Hfresh.
Qed.

(** A Safe-mode and an Unsafe-mode decoder on the small engine. *)
Lemma Decoder_construction_outcome_witness :
  let safe := Decoder.Decoder Toy.engine (Decoder.mkOptions None (Some 2) None) Toy.world in
  let unsafe := Decoder.Decoder Toy.engine (Decoder.mkOptions None None (Some true))
                  Toy.world in
  live safe.2 = live Toy.world /\
  exists dec, unsafe.1 = Ok dec /\
    Decoder._state dec = Foreign 111616 /\
    live unsafe.2 = <[111616 := 4]> (live Toy.world) /\
    live (Decoder.destroy (dec, unsafe.2)).2.2 = live Toy.world.
Proof.
  intros safe unsafe.
  assert (Hrate : supported_rate 48000) by (apply list_elem_of_In; simpl; lia).
  split.
  - destruct (Decoder_construction_outcome Toy.engine
                (Decoder.mkOptions None (Some 2) None) Toy.world
                Toy_fresh_allocator ltac:(done) ltac:(by right) Hrate eq_refl)
      as (dec & _ & _ & _ & _ & Hsafe & _).
    destruct (Hsafe eq_refl) as (bytes & _ & _ & _ & Hlive). exact Hlive.
  - destruct (Decoder_construction_outcome Toy.engine
                (Decoder.mkOptions None None (Some true)) Toy.world
                Toy_fresh_allocator ltac:(done) ltac:(by left) Hrate eq_refl)
      as (dec & Hrun & _ & _ & _ & _ & Hunsafe).
    destruct (Hunsafe eq_refl) as (Hstate & Hlive & Hdestroy).
    exists dec. split; [exact Hrun|]. split; [|split; [exact Hlive | exact Hdestroy]].
    rewrite Hstate. vm_compute. reflexivity.
Defined.

(** A Safe-mode and an Unsafe-mode encoder on the small engine. *)
Lemma Encoder_construction_outcome_witness :
  let safe := Encoder.Encoder Toy.engine (Encoder.mkOptions None (Some 2) None None)
                Toy.world in
  let unsafe := Encoder.Encoder Toy.engine
                  (Encoder.mkOptions None None (Some Encoder.VOIP) (Some true)) Toy.world in
  live safe.2 = live Toy.world /\
  exists enc, unsafe.1 = Ok enc /\
    Encoder._application enc = Encoder.VOIP /\
    live (Encoder.destroy (enc, unsafe.2)).2.2 = live Toy.world.
Proof.
  intros safe unsafe.
  assert (Hrate : supported_rate 48000) by (apply list_elem_of_In; simpl; lia).
  split.
  - destruct (Encoder_construction_outcome Toy.engine
                (Encoder.mkOptions None (Some 2) None None) Toy.world
                Toy_fresh_allocator ltac:(done) ltac:(by right) Hrate
                ltac:(by right; left) eq_refl)
      as (enc & _ & _ & _ & _ & _ & Hsafe & _).
    destruct (Hsafe eq_refl) as (bytes & _ & _ & _ & Hlive). exact Hlive.
  - destruct (Encoder_construction_outcome Toy.engine
                (Encoder.mkOptions None None (Some Encoder.VOIP) (Some true)) Toy.world
                Toy_fresh_allocator ltac:(done) ltac:(by left) Hrate
                ltac:(by left) eq_refl)
      as (enc & Hrun & _ & _ & Happ & _ & _ & Hunsafe).
    destruct (Hunsafe eq_refl) as (_ & _ & Hdestroy).
    exists enc. split; [exact Hrun|]. split; [exact Happ | exact Hdestroy].
Defined.

(** ** The static packet query *)

(** X8. [Decoder.getNumberOfSamples] refuses anything that is not a Buffer
    with a TypeError and a Buffer longer than the packet scratch region with
    the size error, both before touching the engine; otherwise it copies
    the packet to the packet scratch region, asks the engine once for the
    sample count at the given rate, and returns it, or throws the engine's
    text when the count is negative.  It uses no codec state: it obtains and
    releases no block. *)
Theorem getNumberOfSamples_behaviour
    (libopus : LibOpus) (p_data : Z) (data : JsValue) (b : Buffer)
    (sampleRate : Z) (w : World) :
  (is_buffer data = false ->
   Decoder.getNumberOfSamples libopus p_data data sampleRate w
     = (Throw (ThrownTypeError "data must be a Buffer"), w)) /\
  (buf_length b > p_data_len ->
   Decoder.getNumberOfSamples libopus p_data (VBuffer b) sampleRate w
     = (Throw (ThrownError "data array too large"), w)) /\
  (buf_length b <= p_data_len ->
   let heap2 := heap_set (buf_bytes b) p_data (HEAPU8 w) in
   let res := opus_packet_get_nb_samples libopus heap2 p_data (buf_length b) sampleRate in
   let run := Decoder.getNumberOfSamples libopus p_data (VBuffer b) sampleRate w in
   run.1 = (if res <? 0 then Throw (ThrownError (stringifyError libopus res)) else Ok res) /\
   HEAPU8 run.2 = heap2 /\
   heap_slice p_data (p_data + buf_length b) heap2 = buf_bytes b /\
   live run.2 = live w /\
   trace run.2 = trace w ++ [EvPacketGetNbSamples p_data (buf_length b) sampleRate res]).
Proof.
  split; [|split].
  - intros Hdata. by destruct data.
  - intros Hlen. unfold Decoder.getNumberOfSamples.
    by replace (buf_length b >? p_data_len) with true by lia.
  - intros Hlen heap2 res run. subst run. unfold Decoder.getNumberOfSamples.
    replace (buf_length b >? p_data_len) with false by lia.
    unfold bind, HEAPU8_set, _opus_packet_get_nb_samples, throw, pure.
    cbn [HEAPU8 with_heap]. fold heap2. fold res.
    split; [by destruct (res <? 0)|].
    split; [by destruct (res <? 0)|].
    split; [apply heap_slice_set|].
    by destruct (res <? 0).
Qed.

(** A string, an oversized packet, and the packet of a 20-sample frame. *)
Lemma getNumberOfSamples_behaviour_witness :
  let packet := mkBuffer ["020"; "000"]%byte 0 in
  let big := mkBuffer (repeat "000"%byte (Z.to_nat (p_data_len + 1))) 0 in
  Decoder.getNumberOfSamples Toy.engine Toy.p_data (VString "asd") 48000 Toy.world
    = (Throw (ThrownTypeError "data must be a Buffer"), Toy.world) /\
  Decoder.getNumberOfSamples Toy.engine Toy.p_data (VBuffer big) 48000 Toy.world
    = (Throw (ThrownError "data array too large"), Toy.world) /\
  (Decoder.getNumberOfSamples Toy.engine Toy.p_data (VBuffer packet) 48000 Toy.world).1
    = Ok 20.
Proof.
  intros packet big.
  destruct (getNumberOfSamples_behaviour Toy.engine Toy.p_data (VString "asd") big
              48000 Toy.world) as (Htype & Hsize & _).
  destruct (getNumberOfSamples_behaviour Toy.engine Toy.p_data VNull packet
              48000 Toy.world) as (_ & _ & Hok).
  split; [by apply Htype|].
  split; [apply Hsize; vm_compute; reflexivity|].
  destruct (Hok ltac:(vm_compute; discriminate)) as (Hresult & _).
  rewrite Hresult. vm_compute. reflexivity.
Defined.

(** ** Inputs of the wrong type *)

Lemma _decode_func_other_type libopus p_pcm p_data self data bps doDecode p_dec w :
  truthy data = true -> is_number data = false -> is_buffer data = false ->
  Decoder._decode_func libopus p_pcm p_data self data bps doDecode p_dec w
  = (Throw (ThrownTypeError "data must be number, Buffer or null"), w).
Proof.
  intros Htruthy Hnumber Hbuffer. unfold Decoder._decode_func.
  rewrite Htruthy, bind_pure_l.
  by destruct data.
Qed.

(** X9. A truthy input to [decodeInt16] or [decodeFloat32] that is neither a
    number nor a Buffer (a non-empty string, [true], an object, a typed
    array) is refused with the TypeError "data must be number, Buffer or
    null", with the handle as it was and no codec call made; a falsy input
    of any type ([false], the empty string, 0, [null]) is handled as
    [undefined] is. *)
Theorem decode_rejects_other_types
    (libopus : LibOpus) (p_pcm p_data : Z) (ty : SampleType)
    (dec : Decoder.t) (w : World) (data : JsValue) :
  (truthy data = true -> is_number data = false -> is_buffer data = false ->
   Decoder.decode_method libopus p_pcm p_data ty data (dec, w)
     = (Throw (ThrownTypeError "data must be number, Buffer or null"),
        (dec, released_world libopus (Decoder._state dec) w))
   /\ codec_calls (new_events w (released_world libopus (Decoder._state dec) w)) = []) /\
  (truthy data = false ->
   Decoder.decode_method libopus p_pcm p_data ty data (dec, w)
     = Decoder.decode_method libopus p_pcm p_data ty VUndefined (dec, w)).
Proof.
  split.
  - intros Htruthy Hnumber Hbuffer. split.
    + rewrite decode_method_unfold. unfold bind at 1.
      pose proof (_decode_run libopus p_pcm p_data (is_float ty)
                    (Decoder.engine_decode libopus ty) dec data
                    (BYTES_PER_ELEMENT ty) w) as Hrun.
      cbv zeta in Hrun. rewrite _decode_func_other_type in Hrun by done.
      cbn [fst snd] in Hrun. rewrite Hrun.
      unfold released_world. by rewrite after_untouched_op.
    + rewrite new_events_released.
      by rewrite codec_calls_app, codec_calls_enter, codec_calls_exit.
  - intros Hfalsy. rewrite !decode_method_unfold. unfold bind.
    rewrite (_decode_falsy _ _ _ data) by done.
    by rewrite (_decode_falsy _ _ _ VUndefined) by done.
Qed.

(** The inputs of the decoder's tests, and the empty string. *)
Lemma decode_rejects_other_types_witness :
  let s := Toy.new_decoder 1 false in
  (Decoder.decode_method Toy.engine Toy.p_pcm Toy.p_data Int16 (VString "asd") (s.1, s.2)).1
    = Throw (ThrownTypeError "data must be number, Buffer or null") /\
  (Decoder.decode_method Toy.engine Toy.p_pcm Toy.p_data Float32 VObject (s.1, s.2)).1
    = Throw (ThrownTypeError "data must be number, Buffer or null") /\
  Decoder.decode_method Toy.engine Toy.p_pcm Toy.p_data Int16 (VString "") (s.1, s.2)
    = Decoder.decode_method Toy.engine Toy.p_pcm Toy.p_data Int16 VUndefined (s.1, s.2).
Proof.
  intros s.
  destruct (decode_rejects_other_types Toy.engine Toy.p_pcm Toy.p_data Int16 s.1 s.2
              (VString "asd")) as (Hstring & _).
  destruct (decode_rejects_other_types Toy.engine Toy.p_pcm Toy.p_data Float32 s.1 s.2
              VObject) as (Hobject & _).
  destruct (decode_rejects_other_types Toy.engine Toy.p_pcm Toy.p_data Int16 s.1 s.2
              (VString "")) as (_ & Hempty).
  destruct (Hstring eq_refl eq_refl eq_refl) as (-> & _).
  destruct (Hobject eq_refl eq_refl eq_refl) as (-> & _).
  split; [reflexivity|]. split; [reflexivity|]. by apply Hempty.
Defined.

(** X10. [encode] called with [undefined] or [null] throws a TypeError while
    reading [pcm.length], before the state is loaded: the handle and the
    engine are untouched.  Called with any other value that is neither an
    [Int16Array] nor a [Float32Array] (a string, a plain array or object, a
    Buffer) it throws the TypeError "pcm must be Int16Array or Float32Array"
    from inside [_withState]: no codec call is made and the handle is as it
    was. *)
Theorem encode_rejects_other_types
    (libopus : LibOpus) (p_pcm p_data : Z) (enc : Encoder.t) (w : World) (pcm : JsValue) :
  (is_nullish pcm = true ->
   exists message,
     Encoder.encode libopus p_pcm p_data pcm (enc, w)
       = (Throw (ThrownTypeError message), (enc, w))) /\
  (is_nullish pcm = false -> is_typed pcm = false ->
   Encoder.encode libopus p_pcm p_data pcm (enc, w)
     = (Throw (ThrownTypeError "pcm must be Int16Array or Float32Array"),
        (enc, released_world libopus (Encoder._state enc) w))
   /\ codec_calls (new_events w (released_world libopus (Encoder._state enc) w)) = []).
Proof.
  split.
  - intros Hnull. destruct pcm; try discriminate; by eexists.
  - intros Hnull Htyped. split.
    + unfold Encoder.encode, released_world.
      destruct pcm; try discriminate; cbn [get_length]; rewrite bind_pure_l;
        unfold Encoder._withState; rewrite withState_run; cbv zeta;
        unfold Encoder.encode_func, bind, throw; cbn [fst snd];
        by rewrite enc_after_untouched_op.
    + rewrite new_events_released.
      by rewrite codec_calls_app, codec_calls_enter, codec_calls_exit.
Qed.

(** The inputs of the encoder's tests. *)
Lemma encode_rejects_other_types_witness :
  let s := Toy.new_encoder 1 false in
  (exists message,
     Encoder.encode Toy.engine Toy.p_pcm Toy.p_data VUndefined (s.1, s.2)
       = (Throw (ThrownTypeError message), (s.1, s.2))) /\
  (Encoder.encode Toy.engine Toy.p_pcm Toy.p_data (VString "123") (s.1, s.2)).1
    = Throw (ThrownTypeError "pcm must be Int16Array or Float32Array") /\
  (Encoder.encode Toy.engine Toy.p_pcm Toy.p_data
     (VBuffer (mkBuffer (repeat "000"%byte 42) 0)) (s.1, s.2)).1
    = Throw (ThrownTypeError "pcm must be Int16Array or Float32Array").
Proof.
  intros s.
  destruct (encode_rejects_other_types Toy.engine Toy.p_pcm Toy.p_data s.1 s.2 VUndefined)
    as (Hnull & _).
  destruct (encode_rejects_other_types Toy.engine Toy.p_pcm Toy.p_data s.1 s.2
              (VString "123")) as (_ & Hstring).
  destruct (encode_rejects_other_types Toy.engine Toy.p_pcm Toy.p_data s.1 s.2
              (VBuffer (mkBuffer (repeat "000"%byte 42) 0))) as (_ & Hbuffer).
  split; [by apply Hnull|].
  destruct (Hstring eq_refl eq_refl) as (-> & _).
  destruct (Hbuffer eq_refl eq_refl) as (-> & _).
  by split.
Defined.

(** ** What [encode] hands to the engine and returns *)

Lemma pcm_view_address_aligned ty p_pcm :
  p_pcm mod BYTES_PER_ELEMENT ty = 0 -> pcm_view_address ty p_pcm = p_pcm.
Proof.
  intros Haligned. unfold pcm_view_address.
  destruct ty; cbn [BYTES_PER_ELEMENT] in Haligned;
    rewrite Z.shiftr_div_pow2 by lia.
  - change (2 ^ 1) with 2. Z.div_mod_to_equations. lia.
  - change (2 ^ 2) with 4. Z.div_mod_to_equations. lia.
Qed.

(** X11. [encode] on a typed array that fits the PCM scratch region, with
    the region aligned to the element width: the samples are copied to the
    start of the region; the engine's encode ([_opus_encode] for an
    Int16Array, [_opus_encode_float] for a Float32Array) is the one codec
    call, on the PCM region with frame size [pcm.length / channels] and the
    packet region with its capacity as output; a negative return value
    throws the engine's text for it, and a return value [len >= 0] returns
    a Buffer of exactly the first [len] bytes of the packet region. *)
Theorem encode_copies_frame_and_reads_packet
    (libopus : LibOpus) (p_pcm p_data : Z) (enc : Encoder.t) (pcm : TypedArray) (w : World) :
  let width := BYTES_PER_ELEMENT (ta_type pcm) in
  let st := Encoder._state enc in
  let p_enc := op_address libopus st w in
  let w1 := op_world libopus st w in
  let heap2 := heap_set (ta_bytes pcm) p_pcm (HEAPU8 w1) in
  let samples := ta_length pcm / Encoder._channels enc in
  let r := Encoder.engine_encode libopus (ta_type pcm) heap2 p_enc p_pcm samples p_data
             p_data_len in
  let run := Encoder.encode libopus p_pcm p_data (VTyped pcm) (enc, w) in
  ta_length pcm * width <= p_pcm_len ->
  p_pcm mod width = 0 ->
  heap_slice p_pcm (p_pcm + Z.of_nat (length (ta_bytes pcm))) heap2 = ta_bytes pcm /\
  codec_calls (new_events w run.2.2)
    = [EvEncode (is_float (ta_type pcm)) p_enc p_pcm samples p_data p_data_len r.1] /\
  (r.1 < 0 -> run.1 = Throw (ThrownError (stringifyError libopus r.1))) /\
  (0 <= r.1 ->
   exists packet,
     run.1 = Ok packet /\
     buf_bytes packet = heap_slice p_data (p_data + r.1) r.2 /\
     buf_length packet = r.1).
Proof.
  intros width st p_enc w1 heap2 samples r run Hfits Haligned.
  split; [apply heap_slice_set|].
  pose proof (encode_typed libopus p_pcm p_data pcm enc w Hfits) as Hrun.
  cbv zeta in Hrun. rewrite pcm_view_address_aligned in Hrun by done.
  fold st p_enc w1 in Hrun. fold heap2 samples in Hrun. fold r run in Hrun.
  rewrite Hrun. cbn [fst snd]. split; [|split].
  - erewrite new_events_app.
    2:{ rewrite trace_after_op. cbn [trace log with_heap].
        subst w1. rewrite trace_op_world, <- !app_assoc. reflexivity. }
    rewrite !codec_calls_app, codec_calls_enter, codec_calls_exit. reflexivity.
  - intros Hneg. by replace (r.1 <? 0) with true by lia.
  - intros Hpos. replace (r.1 <? 0) with false by lia.
    eexists. split; [reflexivity|]. cbn [buf_bytes]. split; [reflexivity|].
    unfold buf_length. cbn [buf_bytes]. rewrite heap_slice_length. lia.
Qed.

(** A stereo frame of 40 samples, and an empty frame, which the small
    engine refuses as libopus does. *)
Lemma encode_copies_frame_and_reads_packet_witness :
  let s := Toy.new_encoder 2 false in
  (exists packet,
     (Encoder.encode Toy.engine Toy.p_pcm Toy.p_data
        (VTyped (mkTypedArray Int16 (repeat "001"%byte 80))) (s.1, s.2)).1 = Ok packet /\
     buf_bytes packet = ["020"; "000"]%byte) /\
  (Encoder.encode Toy.engine Toy.p_pcm Toy.p_data
     (VTyped (mkTypedArray Float32 [])) (s.1, s.2)).1
    = Throw (ThrownError "invalid argument").
Proof.
  intros s. split.
  - destruct (encode_copies_frame_and_reads_packet Toy.engine Toy.p_pcm Toy.p_data
                s.1 (mkTypedArray Int16 (repeat "001"%byte 80)) s.2
                ltac:(vm_compute; discriminate) eq_refl) as (_ & _ & _ & Hok).
    destruct (Hok ltac:(vm_compute; discriminate)) as (packet & Hrun & Hbytes & _).
    exists packet. split; [exact Hrun|]. rewrite Hbytes. vm_compute. reflexivity.
  - destruct (encode_copies_frame_and_reads_packet Toy.engine Toy.p_pcm Toy.p_data
                s.1 (mkTypedArray Float32 []) s.2
                ltac:(vm_compute; discriminate) eq_refl) as (_ & _ & Herror & _).
    rewrite Herror by (vm_compute; reflexivity).
    vm_compute. reflexivity.
Defined.

(** ** Engine errors and the absent input *)

(** X12. When the engine's decode returns a negative value, for a packet
    that fits the packet scratch region or for a non-zero count of lost
    samples that passes the size check, [decodeInt16] and [decodeFloat32]
    throw an Error carrying the engine's text for that value; the decode was
    the only codec call. *)
Theorem decode_engine_error_is_thrown
    (libopus : LibOpus) (p_pcm p_data : Z) (ty : SampleType)
    (dec : Decoder.t) (w : World) (b : Buffer) (n : Z) :
  let width := BYTES_PER_ELEMENT ty in
  let st := Decoder._state dec in
  let p_dec := op_address libopus st w in
  let w1 := op_world libopus st w in
  let cap := p_pcm_len / Decoder._channels dec / width in
  let packet_r := Decoder.engine_decode libopus ty
                    (heap_set (buf_bytes b) p_data (HEAPU8 w1))
                    p_dec p_data (buf_length b) p_pcm cap 0 in
  let lost_r := Decoder.engine_decode libopus ty (HEAPU8 w1) p_dec 0 0 p_pcm n 0 in
  let packet_run := Decoder.decode_method libopus p_pcm p_data ty (VBuffer b) (dec, w) in
  let lost_run := Decoder.decode_method libopus p_pcm p_data ty (VNumber n) (dec, w) in
  (buf_length b <= p_data_len -> packet_r.1 < 0 ->
   packet_run.1 = Throw (ThrownError (stringifyError libopus packet_r.1)) /\
   codec_calls (new_events w packet_run.2.2)
     = [EvDecode (is_float ty) p_dec p_data (buf_length b) p_pcm cap 0 packet_r.1]) /\
  (n <> 0 -> n * width <= p_data_len -> lost_r.1 < 0 ->
   lost_run.1 = Throw (ThrownError (stringifyError libopus lost_r.1)) /\
   codec_calls (new_events w lost_run.2.2)
     = [EvDecode (is_float ty) p_dec 0 0 p_pcm n 0 lost_r.1]).
Proof.
  intros width st p_dec w1 cap packet_r lost_r packet_run lost_run. split.
  - intros Hlen Hneg. subst packet_run.
    rewrite (decode_method_packet libopus p_pcm p_data ty dec w b Hlen). cbv zeta.
    fold width st p_dec w1. fold cap. fold packet_r. cbn [fst snd].
    replace (packet_r.1 <? 0) with true by lia. split; [reflexivity|].
    erewrite new_events_app.
    2:{ rewrite trace_after_op. cbn [trace log with_heap].
        subst w1. rewrite trace_op_world, <- !app_assoc. reflexivity. }
    rewrite !codec_calls_app, codec_calls_enter, codec_calls_exit. reflexivity.
  - intros Hn Hlen Hneg. subst lost_run.
    rewrite (decode_method_lost libopus p_pcm p_data ty dec w n Hn Hlen). cbv zeta.
    fold width st p_dec w1. fold lost_r. cbn [fst snd].
    replace (lost_r.1 <? 0) with true by lia. split; [reflexivity|].
    erewrite new_events_app.
    2:{ rewrite trace_after_op. cbn [trace log with_heap].
        subst w1. rewrite trace_op_world, <- !app_assoc. reflexivity. }
    rewrite !codec_calls_app, codec_calls_enter, codec_calls_exit. reflexivity.
Qed.

(** A packet announcing more samples than the output cap, and a negative
    count of lost samples. *)
Lemma decode_engine_error_is_thrown_witness :
  let s := Toy.new_decoder 2 false in
  (Decoder.decode_method Toy.engine Toy.p_pcm Toy.p_data Float32
     (VBuffer (mkBuffer ["255"; "255"]%byte 0)) (s.1, s.2)).1
    = Throw (ThrownError "buffer too small") /\
  (Decoder.decode_method Toy.engine Toy.p_pcm Toy.p_data Float32 (VNumber (-5)) (s.1, s.2)).1
    = Throw (ThrownError "invalid argument").
Proof.
  intros s.
  destruct (decode_engine_error_is_thrown Toy.engine Toy.p_pcm Toy.p_data Float32
              s.1 s.2 (mkBuffer ["255"; "255"]%byte 0) (-5)) as (Hpacket & Hlost).
  destruct Hpacket as (-> & _); [vm_compute; discriminate | vm_compute; reflexivity |].
  destruct Hlost as (-> & _);
    [discriminate | vm_compute; discriminate | vm_compute; reflexivity |].
  split; vm_compute; reflexivity.
Defined.

(** X13. On an Unsafe-mode handle, decoding with an absent input is
    [getLastPacketDuration()] followed by decoding with the duration [d] it
    returned as the count of lost samples, when [d] is not 0; and it throws
    what the query throws when the query fails. *)
Theorem absent_input_is_query_then_count
    (libopus : LibOpus) (p_pcm p_data : Z) (ty : SampleType)
    (dec : Decoder.t) (p : Z) (w : World) (absent : JsValue) :
  let query := Decoder.getLastPacketDuration libopus (dec, w) in
  let run := Decoder.decode_method libopus p_pcm p_data ty absent (dec, w) in
  Decoder._state dec = Foreign p ->
  truthy absent = false ->
  (forall d, query.1 = Ok d -> d <> 0 ->
     run = Decoder.decode_method libopus p_pcm p_data ty (VNumber d) query.2) /\
  (forall e, query.1 = Throw e -> run = (Throw e, query.2)).
Proof.
  intros query run Hstate Hfalsy.
  assert (Hdec : Decoder.with_state dec (Foreign p) = dec)
    by (rewrite <- Hstate; apply with_state_same).
  assert (Hquery : query = ((Decoder._getLastPacketDuration libopus p w).1,
                            (dec, (Decoder._getLastPacketDuration libopus p w).2))).
  { subst query. unfold Decoder.getLastPacketDuration, Decoder._withState.
    rewrite Hstate. cbn [withState].
    destruct (Decoder._getLastPacketDuration libopus p w) as [r w']. by rewrite Hdec. }
  assert (Hrun : forall data s,
             Decoder.decode_method libopus p_pcm p_data ty data s
             = bind (Decoder._decode libopus p_pcm p_data data (BYTES_PER_ELEMENT ty)
                       (fun st d len pcm frame_size decode_fec =>
                          engine_call
                            (fun h => Decoder.engine_decode libopus ty h st d len pcm
                                        frame_size decode_fec)
                            (EvDecode (is_float ty) st d len pcm frame_size decode_fec)))
                    (new_TypedArray ty) s)
    by (intros; apply decode_method_unfold).
  pose proof (eq_refl run) as Hvalue. unfold run at 2 in Hvalue.
  rewrite Hrun in Hvalue. unfold bind at 1 in Hvalue.
  unfold Decoder._decode at 1, Decoder._withState in Hvalue.
  rewrite Hstate in Hvalue. cbn [withState] in Hvalue.
  rewrite _decode_func_falsy in Hvalue by done.
  unfold bind at 1 in Hvalue.
  rewrite Hquery, Hvalue. clearbody run query.
  destruct (Decoder._getLastPacketDuration libopus p w) as [[d|e] w'] eqn:Hq;
    cbn [fst snd]; rewrite ?Hdec.
  - split; [|discriminate]. intros d' [= <-] Hd.
    symmetry. rewrite Hrun. unfold bind at 1.
    unfold Decoder._decode at 1, Decoder._withState.
    rewrite Hstate. cbn [withState].
    unfold Decoder._decode_func at 1. cbn [truthy].
    replace (d =? 0) with false by lia. cbn [negb]. rewrite bind_pure_l.
    reflexivity.
  - split; [discriminate|]. by intros e' [= <-].
Qed.

(** After a 960-sample frame on an Unsafe-mode decoder. *)
Lemma absent_input_is_query_then_count_witness :
  let s := (Decoder.decode_method Toy.engine Toy.p_pcm Toy.p_data Int16 (VNumber 960)
              (Toy.new_decoder 1 true)).2 in
  Decoder.decode_method Toy.engine Toy.p_pcm Toy.p_data Int16 VNull (s.1, s.2)
  = Decoder.decode_method Toy.engine Toy.p_pcm Toy.p_data Int16 (VNumber 960)
      (Decoder.getLastPacketDuration Toy.engine (s.1, s.2)).2.
Proof.
  intros s.
  destruct (absent_input_is_query_then_count Toy.engine Toy.p_pcm Toy.p_data Int16
              s.1 111616 s.2 VNull ltac:(vm_compute; reflexivity) eq_refl)
    as (Hcount & _).
  apply Hcount; [vm_compute; reflexivity | discriminate].
Defined.

(** ** The stream adapters, at their edges *)

(** X14. For a primitive [mode] ([undefined], [null], a boolean, a string,
    or an integer below 2^53 in magnitude, which JavaScript prints as its
    decimal digits), [stream(mode)] of a decoder or an encoder returns an adapter
    exactly when [mode] is the string 'Float32' or the string 'Int16', and
    then binds [decodeFloat32], respectively [decodeInt16] (for the encoder:
    the Float32Array, respectively Int16Array view); for every other such
    value it throws the TypeError "mode cannot be " followed by the value's
    string form.  The comparison being [==], a Buffer whose contents spell a
    mode name is taken for that name. *)
Theorem stream_accepts_exactly_two_modes
    (libopus : LibOpus) (p_pcm p_data : Z) (mode : JsValue) :
  let dstream := Decoder.stream libopus p_pcm p_data mode in
  let estream := Encoder.stream mode in
  (prints_plainly mode = true ->
   (mode = VString "Float32" ->
    dstream = Ok {| Decoder.stream_decode := Decoder.decodeFloat32 libopus p_pcm p_data |}
    /\ estream = Ok {| Encoder._mode := Float32 |}) /\
   (mode = VString "Int16" ->
    dstream = Ok {| Decoder.stream_decode := Decoder.decodeInt16 libopus p_pcm p_data |}
    /\ estream = Ok {| Encoder._mode := Int16 |}) /\
   (mode <> VString "Float32" -> mode <> VString "Int16" ->
    dstream = Throw (ThrownTypeError ("mode cannot be " +:+ to_js_string mode))
    /\ estream = Throw (ThrownTypeError ("mode cannot be " +:+ to_js_string mode)))) /\
  (forall (ty : SampleType) (b : Buffer),
     buf_bytes b = list_byte_of_string (mode_name ty) ->
     Decoder.stream libopus p_pcm p_data (VBuffer b)
       = Ok {| Decoder.stream_decode := Decoder.decode_method libopus p_pcm p_data ty |}
     /\ Encoder.stream (VBuffer b) = Ok {| Encoder._mode := ty |}).
Proof.
  intros dstream estream. subst dstream estream.
  unfold Decoder.stream, Encoder.stream. split.
  - intros Hprimitive. split; [by intros ->|]. split; [by intros ->|].
    intros Hfloat Hint.
    destruct mode as [| | | |s|b| |]; try done; cbn [loose_eq_string].
    assert (String.eqb s "Float32" = false) as ->
      by (apply String.eqb_neq; congruence).
    assert (String.eqb s "Int16" = false) as ->
      by (apply String.eqb_neq; congruence).
    done.
  - intros ty b Hname. cbn [loose_eq_string].
    rewrite Hname, string_of_list_byte_of_string. by destruct ty.
Qed.

(** The modes of the tests: none, 123 and 'asd'. *)
Lemma stream_accepts_exactly_two_modes_witness :
  Encoder.stream VUndefined = Throw (ThrownTypeError "mode cannot be undefined") /\
  Encoder.stream (VNumber 123) = Throw (ThrownTypeError "mode cannot be 123") /\
  Encoder.stream (VString "asd") = Throw (ThrownTypeError "mode cannot be asd") /\
  Encoder.stream (VString "Int16") = Ok {| Encoder._mode := Int16 |} /\
  Encoder.stream (VBuffer (mkBuffer ["I"; "n"; "t"; "1"; "6"]%byte 0))
    = Ok {| Encoder._mode := Int16 |}.
Proof.
  destruct (stream_accepts_exactly_two_modes Toy.engine Toy.p_pcm Toy.p_data VUndefined)
    as ((_ & _ & Hnone) & _); [reflexivity|].
  destruct (stream_accepts_exactly_two_modes Toy.engine Toy.p_pcm Toy.p_data (VNumber 123))
    as ((_ & _ & Hnumber) & _); [reflexivity|].
  destruct (stream_accepts_exactly_two_modes Toy.engine Toy.p_pcm Toy.p_data (VString "asd"))
    as ((_ & _ & Hstring) & _); [reflexivity|].
  destruct (stream_accepts_exactly_two_modes Toy.engine Toy.p_pcm Toy.p_data
              (VString "Int16")) as ((_ & Hint & _) & Hbuffer); [reflexivity|].
  split; [apply Hnone; discriminate|].
  split; [apply Hnumber; discriminate|].
  split; [apply Hstring; discriminate|].
  split; [by apply Hint|].
  apply (Hbuffer Int16 (mkBuffer ["I"; "n"; "t"; "1"; "6"]%byte 0)). reflexivity.
Defined.

(** X15. The encoder stream builds its typed view before the [try]: a chunk
    whose byte offset is not a multiple of the element width makes
    [_transform] throw a RangeError instead of calling back, with the
    encoder and the engine untouched.  For an aligned chunk the view has
    [byteLength / width] elements, rounded down: it is the chunk's contents
    when the length is a multiple of the width, and drops the trailing bytes
    otherwise. *)
Theorem encoder_stream_view_of_chunk
    (libopus : LibOpus) (p_pcm p_data : Z) (ty : SampleType) (chunk : Buffer)
    (s : Encoder.t * World) :
  let width := BYTES_PER_ELEMENT ty in
  let transform := Encoder._transform libopus p_pcm p_data {| Encoder._mode := ty |} in
  (byteOffset chunk mod width <> 0 ->
   exists message, transform chunk s = (Throw (ThrownRangeError message), s)) /\
  (byteOffset chunk mod width = 0 ->
   transform chunk s
     = (callback_of id (Encoder.encode libopus p_pcm p_data
                          (VTyped (reinterpret ty chunk)) s).1,
        (Encoder.encode libopus p_pcm p_data (VTyped (reinterpret ty chunk)) s).2)) /\
  ta_length (reinterpret ty chunk) = buf_length chunk / width /\
  (exists rest, buf_bytes chunk = ta_bytes (reinterpret ty chunk) ++ rest
                /\ Z.of_nat (length rest) = buf_length chunk mod width) /\
  (buf_length chunk mod width = 0 -> ta_bytes (reinterpret ty chunk) = buf_bytes chunk).
Proof.
  intros width transform.
  assert (Hwidth : 0 < width) by (subst width; by destruct ty).
  assert (Hlen : 0 <= buf_length chunk) by (unfold buf_length; lia).
  assert (Hwhole : 0 <= buf_length chunk / width * width <= buf_length chunk).
  { split; [apply Z.mul_nonneg_nonneg; [apply Z.div_pos|]; lia|].
    rewrite Z.mul_comm. apply Z.mul_div_le. lia. }
  assert (Hview : Z.of_nat (length (ta_bytes (reinterpret ty chunk)))
                  = buf_length chunk / width * width).
  { unfold reinterpret. cbn [ta_bytes]. fold width. rewrite length_take.
    unfold buf_length in *. lia. }
  split; [|split; [|split; [|split]]].
  - intros Hoffset. subst transform.
    unfold Encoder._transform, new_TypedArray_view. cbn [Encoder._mode]. fold width.
    replace (byteOffset chunk mod width =? 0) with false by lia.
    by eexists.
  - intros Hoffset. by apply Encoder_transform_callback.
  - unfold ta_length. rewrite Hview. cbn [reinterpret ta_type]. fold width.
    apply Z.div_mul. lia.
  - exists (drop (Z.to_nat (buf_length chunk / width * width)) (buf_bytes chunk)).
    split; [unfold reinterpret; cbn [ta_bytes]; fold width; by rewrite take_drop|].
    rewrite length_drop. unfold buf_length in *.
    rewrite Z.mod_eq by lia. lia.
  - intros Hmod. unfold reinterpret. cbn [ta_bytes]. fold width.
    apply take_ge. unfold buf_length in *.
    rewrite Z.mod_eq in Hmod by lia. lia.
Qed.

(** A three-byte chunk in Int16 mode is a one-sample array; the same chunk
    at an odd byte offset is refused. *)
Lemma encoder_stream_view_of_chunk_witness :
  let s := Toy.new_encoder 1 false in
  let transform := Encoder._transform Toy.engine Toy.p_pcm Toy.p_data
                     {| Encoder._mode := Int16 |} in
  (exists message,
     transform (mkBuffer ["001"; "002"; "003"]%byte 1) s
       = (Throw (ThrownRangeError message), s)) /\
  ta_bytes (reinterpret Int16 (mkBuffer ["001"; "002"]%byte 0)) = ["001"; "002"]%byte /\
  ta_length (reinterpret Int16 (mkBuffer ["001"; "002"; "003"]%byte 0)) = 1.
Proof.
  intros s transform.
  destruct (encoder_stream_view_of_chunk Toy.engine Toy.p_pcm Toy.p_data Int16
              (mkBuffer ["001"; "002"; "003"]%byte 1) s) as (Hodd & _).
  destruct (encoder_stream_view_of_chunk Toy.engine Toy.p_pcm Toy.p_data Int16
              (mkBuffer ["001"; "002"]%byte 0) s) as (_ & _ & _ & _ & Hwhole).
  destruct (encoder_stream_view_of_chunk Toy.engine Toy.p_pcm Toy.p_data Int16
              (mkBuffer ["001"; "002"; "003"]%byte 0) s) as (_ & _ & Hlength & _).
  split; [apply Hodd; discriminate|].
  split; [by apply Hwhole|]. by rewrite Hlength.
Defined.

(** ** The size checks, exactly *)

Lemma encode_typed_codec_calls libopus p_pcm p_data pcm enc w :
  ta_length pcm * BYTES_PER_ELEMENT (ta_type pcm) <= p_pcm_len ->
  exists call,
    codec_calls (new_events w (Encoder.encode libopus p_pcm p_data (VTyped pcm) (enc, w)).2.2)
    = [call].
Proof.
  intros Hfits. rewrite (encode_typed libopus p_pcm p_data pcm enc w Hfits).
  cbv zeta. cbn [snd]. eexists. erewrite new_events_app.
  2:{ rewrite trace_after_op. cbn [trace log with_heap].
      rewrite trace_op_world, <- !app_assoc. reflexivity. }
  rewrite !codec_calls_app, codec_calls_enter, codec_calls_exit. reflexivity.
Qed.

Lemma decode_packet_codec_calls libopus p_pcm p_data ty dec w b :
  buf_length b <= p_data_len ->
  exists call,
    codec_calls (new_events w
      (Decoder.decode_method libopus p_pcm p_data ty (VBuffer b) (dec, w)).2.2) = [call].
Proof.
  intros Hfits. rewrite (decode_method_packet libopus p_pcm p_data ty dec w b Hfits).
  cbv zeta. cbn [snd]. eexists. erewrite new_events_app.
  2:{ rewrite trace_after_op. cbn [trace log with_heap].
      rewrite trace_op_world, <- !app_assoc. reflexivity. }
  rewrite !codec_calls_app, codec_calls_enter, codec_calls_exit. reflexivity.
Qed.

(** X16. The two array size checks are exact.  [encode] on a typed array
    ends without any codec call exactly when the array has more bytes than
    the PCM scratch region holds, and it then throws "pcm array too large":
    an array of exactly [p_pcm_len] bytes reaches the engine.  A decode of a
    Buffer ends without any codec call exactly when the Buffer is longer
    than the packet scratch region, and it then throws "data array too
    large". *)
Theorem array_size_checks_are_exact
    (libopus : LibOpus) (p_pcm p_data : Z) (ty : SampleType)
    (enc : Encoder.t) (dec : Decoder.t) (pcm : TypedArray) (b : Buffer) (w : World) :
  let encoded := Encoder.encode libopus p_pcm p_data (VTyped pcm) (enc, w) in
  let decoded := Decoder.decode_method libopus p_pcm p_data ty (VBuffer b) (dec, w) in
  (codec_calls (new_events w encoded.2.2) = []
   <-> ta_length pcm * BYTES_PER_ELEMENT (ta_type pcm) > p_pcm_len) /\
  (codec_calls (new_events w encoded.2.2) = []
   -> encoded.1 = Throw (ThrownError "pcm array too large")) /\
  (codec_calls (new_events w decoded.2.2) = [] <-> buf_length b > p_data_len) /\
  (codec_calls (new_events w decoded.2.2) = []
   -> decoded.1 = Throw (ThrownError "data array too large")).
Proof.
  intros encoded decoded.
  assert (Hquiet : forall st, codec_calls (new_events w (released_world libopus st w)) = []).
  { intros st. rewrite new_events_released.
    by rewrite codec_calls_app, codec_calls_enter, codec_calls_exit. }
  assert (Hencode : codec_calls (new_events w encoded.2.2) = []
                    -> ta_length pcm * BYTES_PER_ELEMENT (ta_type pcm) > p_pcm_len).
  { intros Hnone.
    destruct (decide (ta_length pcm * BYTES_PER_ELEMENT (ta_type pcm) <= p_pcm_len))
      as [Hfits|]; [|lia].
    destruct (encode_typed_codec_calls libopus p_pcm p_data pcm enc w Hfits) as [call Hcall].
    fold encoded in Hcall. congruence. }
  assert (Hdecode : codec_calls (new_events w decoded.2.2) = [] -> buf_length b > p_data_len).
  { intros Hnone.
    destruct (decide (buf_length b <= p_data_len)) as [Hfits|]; [|lia].
    destruct (decode_packet_codec_calls libopus p_pcm p_data ty dec w b Hfits)
      as [call Hcall].
    fold decoded in Hcall. congruence. }
  split; [|split; [|split]].
  - split; [exact Hencode|]. intros Hbig. subst encoded.
    rewrite encode_too_large by done. apply Hquiet.
  - intros Hnone. subst encoded. by rewrite encode_too_large by auto.
  - split; [exact Hdecode|]. intros Hbig. subst decoded.
    rewrite decode_method_packet_too_large by done. apply Hquiet.
  - intros Hnone. subst decoded. by rewrite decode_method_packet_too_large by auto.
Qed.

(** The arrays of the encoder's tests, one element over the capacity, and
    the arrays of exactly the capacity. *)
Lemma array_size_checks_are_exact_witness :
  let s := Toy.new_encoder 1 true in
  let over := mkTypedArray Int16 (repeat "000"%byte (Z.to_nat (p_pcm_len + 2))) in
  let full := mkTypedArray Int16 (repeat "000"%byte (Z.to_nat p_pcm_len)) in
  (Encoder.encode Toy.engine Toy.p_pcm Toy.p_data (VTyped over) (s.1, s.2)).1
    = Throw (ThrownError "pcm array too large") /\
  codec_calls (new_events s.2
    (Encoder.encode Toy.engine Toy.p_pcm Toy.p_data (VTyped full) (s.1, s.2)).2.2) <> [].
Proof.
  intros s over full.
  destruct (array_size_checks_are_exact Toy.engine Toy.p_pcm Toy.p_data Int16
              s.1 (Toy.new_decoder 1 true).1 over (mkBuffer [] 0) s.2)
    as ([_ Hover] & Hthrown & _).
  destruct (array_size_checks_are_exact Toy.engine Toy.p_pcm Toy.p_data Int16
              s.1 (Toy.new_decoder 1 true).1 full (mkBuffer [] 0) s.2)
    as ([Hfull _] & _).
  split.
  - apply Hthrown, Hover. vm_compute. reflexivity.
  - intros Hnone. apply Hfull in Hnone. vm_compute in Hnone. discriminate.
Defined.

(** ** What a decode call can end in *)

Lemma _decode_func_outcome libopus p_pcm p_data self data bps float f p_dec w :
  let doDecode := fun st d len pcm frame_size decode_fec =>
    engine_call (fun h => f h st d len pcm frame_size decode_fec)
                (EvDecode float st d len pcm frame_size decode_fec) in
  decode_func_outcome p_pcm bps float p_dec w
    (Decoder._decode_func libopus p_pcm p_data self data bps doDecode p_dec w).
Proof.
  intros doDecode.
  assert (Hcall : forall d len frame_size evs w',
             trace w' = trace w ++ evs ->
             decode_func_outcome p_pcm bps float p_dec w
               (bind (doDecode p_dec d len p_pcm frame_size 0)
                  (fun res => if res <? 0
                              then throw (ThrownError (stringifyError libopus res))
                              else fun w0 : World =>
                                (Ok (heap_slice p_pcm (p_pcm + res * bps) (HEAPU8 w0)),
                                 w0)) w')).
  { intros d len frame_size evs w' Htrace.
    unfold decode_func_outcome, bind, doDecode, engine_call.
    destruct (f (HEAPU8 w') p_dec d len p_pcm frame_size 0) as [res heap'].
    destruct (res <? 0) eqn:Hres; cbn [throw fst snd].
    - eexists. by left.
    - exists res. split; [lia|]. split; [reflexivity|].
      exists evs, d, len, frame_size. cbn [trace log with_heap].
      by rewrite Htrace, <- app_assoc. }
  assert (Hbranch : forall (data' : JsValue) evs w',
             trace w' = trace w ++ evs ->
             decode_func_outcome p_pcm bps float p_dec w
               (bind
                  (match data' with
                   | VNumber n =>
                       if n * bps >? p_data_len
                       then throw (ThrownError "too much lost data")
                       else doDecode p_dec 0 0 p_pcm n 0
                   | VBuffer b =>
                       if buf_length b >? p_data_len
                       then throw (ThrownError "data array too large")
                       else
                         HEAPU8_set (buf_bytes b) p_data ;;
                         doDecode p_dec p_data (buf_length b) p_pcm
                           (p_pcm_len / Decoder._channels self / bps) 0
                   | _ => throw (ThrownTypeError "data must be number, Buffer or null")
                   end)
                  (fun res => if res <? 0
                              then throw (ThrownError (stringifyError libopus res))
                              else fun w0 : World =>
                                (Ok (heap_slice p_pcm (p_pcm + res * bps) (HEAPU8 w0)),
                                 w0)) w')).
  { intros data' evs w' Htrace.
    destruct data' as [| | |n| |b| |];
      try (unfold decode_func_outcome; cbn [bind throw fst]; eexists; by right).
    - destruct (n * bps >? p_data_len);
        [unfold decode_func_outcome; cbn [bind throw fst]; eexists; by left|].
      by apply Hcall with evs.
    - destruct (buf_length b >? p_data_len);
        [unfold decode_func_outcome; cbn [bind throw fst]; eexists; by left|].
      rewrite bind_assoc. unfold bind at 1, HEAPU8_set. by apply Hcall with evs. }
  unfold Decoder._decode_func. destruct (truthy data).
  - rewrite bind_pure_l. apply (Hbranch data []). by rewrite app_nil_r.
  - rewrite bind_assoc. unfold bind at 1.
    rewrite _getLastPacketDuration_run. cbv zeta.
    match goal with |- context [if ?c then Ok ?d else _] => destruct c end;
      cbv beta iota.
    + rewrite bind_pure_l. cbv beta.
      eapply (Hbranch (VNumber _)). cbn [trace]. reflexivity.
    + unfold decode_func_outcome. cbn [fst]. eexists. by left.
Qed.

(** X17. A call of [decodeInt16] or [decodeFloat32] ends, whatever the input,
    in one of two ways.  It returns a typed array of the method's element
    type whose contents are the first [n] elements, whole elements only, of
    the PCM scratch region as the linear memory is when the call returns,
    where [n >= 0] is the value returned by the engine's decode, the last
    codec call the method made.  Or it throws an [Error] or a [TypeError]:
    the typed-array constructor's RangeError cannot occur. *)
Theorem decode_outcome_is_frame_or_error
    (libopus : LibOpus) (p_pcm p_data : Z) (ty : SampleType)
    (data : JsValue) (dec : Decoder.t) (w : World) :
  decode_outcome p_pcm ty w (Decoder.decode_method libopus p_pcm p_data ty data (dec, w)).
Proof.
  pose proof (decode_method_unfold libopus p_pcm p_data ty data (dec, w)) as Hrun.
  unfold bind at 1 in Hrun. rewrite _decode_run in Hrun. cbv zeta in Hrun.
  unfold decode_outcome. rewrite Hrun. clear Hrun.
  pose proof (_decode_func_outcome libopus p_pcm p_data dec data (BYTES_PER_ELEMENT ty)
                (is_float ty) (Decoder.engine_decode libopus ty)
                (op_address libopus (Decoder._state dec) w)
                (op_world libopus (Decoder._state dec) w)) as Houtcome.
  cbv zeta in Houtcome. unfold decode_func_outcome in Houtcome.
  destruct (Decoder._decode_func _ _ _ _ _ _ _ _ _) as [[bytes|err] w3].
  - cbn [fst snd] in *.
    destruct Houtcome as (n & Hn & -> & evs & d & len & frame_size & Htrace).
    rewrite new_TypedArray_slice by done. cbn [fst snd ta_type ta_bytes].
    rewrite ta_length_slice by done.
    split; [done|]. split; [done|]. split.
    + f_equal. by destruct (Decoder._state dec).
    + exists (codec_calls evs), (op_address libopus (Decoder._state dec) w), d, len, frame_size.
      erewrite new_events_app.
      2:{ rewrite trace_after_op, Htrace, trace_op_world, <- !app_assoc. reflexivity. }
      rewrite !codec_calls_app, codec_calls_enter, codec_calls_exit.
      cbn [app]. by rewrite app_nil_r.
  - cbn [fst snd] in *. exact Houtcome.
Qed.

(** X18. [destroy()] on an Unsafe-mode handle releases the state block and
    leaves the handle as it was: nothing marks it as destroyed.  A later
    [decodeInt16] or [decodeFloat32] of a packet, or [encode] of a frame,
    that passes the size check still calls the engine on the released
    address, and a second [destroy()] passes the same address to [_free]
    again. *)
Theorem destroyed_handle_is_still_used
    (libopus : LibOpus) (p_pcm p_data : Z) (ty : SampleType)
    (dec : Decoder.t) (enc : Encoder.t) (p : Z) (w : World)
    (b : Buffer) (pcm : TypedArray) :
  let ddone := Decoder.destroy (dec, w) in
  let edone := Encoder.destroy (enc, w) in
  let cap := p_pcm_len / Decoder._channels dec / BYTES_PER_ELEMENT ty in
  let samples := ta_length pcm / Encoder._channels enc in
  (Decoder._state dec = Foreign p ->
   ddone.2.1 = dec /\
   live ddone.2.2 !! p = None /\
   new_events w (Decoder.destroy ddone.2).2.2 = [EvFree p; EvFree p] /\
   (buf_length b <= p_data_len ->
    exists r,
      codec_calls (new_events ddone.2.2
        (Decoder.decode_method libopus p_pcm p_data ty (VBuffer b) ddone.2).2.2)
      = [EvDecode (is_float ty) p p_data (buf_length b) p_pcm cap 0 r])) /\
  (Encoder._state enc = Foreign p ->
   edone.2.1 = enc /\
   live edone.2.2 !! p = None /\
   new_events w (Encoder.destroy edone.2).2.2 = [EvFree p; EvFree p] /\
   (ta_length pcm * BYTES_PER_ELEMENT (ta_type pcm) <= p_pcm_len ->
    exists r,
      codec_calls (new_events edone.2.2
        (Encoder.encode libopus p_pcm p_data (VTyped pcm) edone.2).2.2)
      = [EvEncode (is_float (ta_type pcm)) p p_pcm samples p_data p_data_len r])).
Proof.
  intros ddone edone cap samples. split.
  - intros Hstate. subst ddone. unfold Decoder.destroy. rewrite Hstate.
    cbn [fst snd]. split; [done|]. split.
    { unfold free_block. cbn [live log]. apply lookup_delete_eq. }
    split.
    { rewrite Hstate. unfold new_events, free_block, log. cbn [trace snd].
      by rewrite <- app_assoc, drop_app_length. }
    intros Hfits.
    rewrite (decode_method_packet libopus p_pcm p_data ty dec (free_block p w) b Hfits).
    cbv zeta. cbn [snd]. rewrite Hstate. cbn [op_address op_world after_op snd].
    eexists. erewrite new_events_app; [|cbn [trace log with_heap]; reflexivity].
    reflexivity.
  - intros Hstate. subst edone. unfold Encoder.destroy. rewrite Hstate.
    cbn [fst snd]. split; [done|]. split.
    { unfold free_block. cbn [live log]. apply lookup_delete_eq. }
    split.
    { rewrite Hstate. unfold new_events, free_block, log. cbn [trace snd].
      by rewrite <- app_assoc, drop_app_length. }
    intros Hfits.
    rewrite (encode_typed libopus p_pcm p_data pcm enc (free_block p w) Hfits).
    cbv zeta. cbn [snd]. rewrite Hstate. cbn [op_address op_world after_op snd].
    eexists. erewrite new_events_app; [|cbn [trace log with_heap]; reflexivity].
    reflexivity.
Qed.

Lemma destroyed_handle_is_still_used_witness :
  let s := Toy.new_decoder 1 true in
  let gone := Decoder.destroy (s.1, s.2) in
  let packet := mkBuffer ["001"%byte] 0 in
  exists p r,
    Decoder._state s.1 = Foreign p /\
    live gone.2.2 !! p = None /\
    codec_calls (new_events gone.2.2
      (Decoder.decode_method Toy.engine Toy.p_pcm Toy.p_data Int16 (VBuffer packet) gone.2).2.2)
    = [EvDecode (is_float Int16) p Toy.p_data (buf_length packet) Toy.p_pcm
         (p_pcm_len / Decoder._channels s.1 / BYTES_PER_ELEMENT Int16) 0 r].
Proof.
  intros s gone packet.
  destruct (destroyed_handle_is_still_used Toy.engine Toy.p_pcm Toy.p_data Int16
              s.1 (Toy.new_encoder 1 true).1 111616 s.2 packet (mkTypedArray Int16 []))
    as [Hdec _].
  destruct Hdec as (_ & Hlive & _ & Hcall); [vm_compute; reflexivity|].
  destruct Hcall as [r Hr]; [vm_compute; intros Hgt; discriminate Hgt|].
  exists 111616, r. split; [vm_compute; reflexivity|]. split; [exact Hlive | exact Hr].
Defined.
